(** * Dark-current correction of a chunk exposure

    A shallow embedding of [darkCurrentCorrectChunkExposure]
    (src/oldsrc/darkCurrentCorrectChunkExposure.cc) and the properties its
    specification states about it.

    The function works on heap objects reached through handles: a
    [MaskedImage] is a bundle of shared pointers to its planes, and the image
    metadata is reached through a [DataProperty::PtrType].  The embedding
    therefore threads an explicit store through every call, keeps the two
    exposures as handles into it, and records each call on the external
    collaborators in a log.  The two messages to the trace log (lines 82
    and 202) are left out. *)

From Stdlib Require Import ZArith Lia Bool.
From Stdlib Require Import Floats.SpecFloat.
From Stdlib Require Import DecimalString.
From stdpp Require Import base option list strings gmap.

Local Open Scope string_scope.
Local Open Scope list_scope.
Local Open Scope Z_scope.

(** ** IEEE 754 scalars

    [float] (binary32) and [double] (binary64) values, with the operations
    of the Standard Library's executable IEEE 754 specification (round to
    nearest, ties to even; NaN payloads are not tracked). *)

Module IEEE.

Abbreviation cfloat := spec_float.
Abbreviation cdouble := spec_float.

Definition float_prec : Z := 24.
Definition float_emax : Z := 128.
Definition double_prec : Z := 53.
Definition double_emax : Z := 1024.

(** [a / b] on two [float] operands, evaluated in [float]. *)
Definition float_div (a b : cfloat) : cfloat := SFdiv float_prec float_emax a b.

(** [a != b]: true as soon as one side is a NaN, false on [+0] against [-0]. *)
Definition float_ne (a b : cfloat) : bool := negb (SFeqb a b).

(** The value-preserving widening of a [float] to a [double]. *)
Definition float_to_double (x : cfloat) : cdouble :=
  match x with
  | S754_finite s m e => binary_normalize double_prec double_emax (cond_Zopp s (Zpos m)) e s
  | _ => x
  end.

Definition double_mul (a b : cdouble) : cdouble := SFmul double_prec double_emax a b.
Definition double_add (a b : cdouble) : cdouble := SFadd double_prec double_emax a b.
Definition double_sub (a b : cdouble) : cdouble := SFsub double_prec double_emax a b.

(** The conversion of a [double] to [bool] in [if (darkScale)]: false
    exactly on the two zeros (a NaN converts to true). *)
Definition double_to_bool (d : cdouble) : bool := negb (SFeqb d (S754_zero false)).

(** Literals: the integer [n] as a [float] or a [double], and [n / 2^k]. *)
Definition float_of_Z (n : Z) : cfloat := binary_normalize float_prec float_emax n 0 false.
Definition double_of_Z (n : Z) : cdouble := binary_normalize double_prec double_emax n 0 false.
Definition double_dyadic (n k : Z) : cdouble :=
  binary_normalize double_prec double_emax n (- k) false.

Definition is_zero (x : spec_float) : bool :=
  match x with S754_zero _ => true | _ => false end.

Definition is_inf_or_nan (x : spec_float) : bool :=
  match x with S754_infinity _ | S754_nan => true | _ => false end.

End IEEE.
Import IEEE.

(** [static_cast<int>] of an unsigned 32-bit count. *)
Definition static_cast_int (u : Z) : Z :=
  (u + 2147483648) mod 4294967296 - 2147483648.

(** ** Metadata: [boost::any] values and [DataProperty] nodes *)

(** The content of a [boost::any], by the type it was stored with. *)
Inductive any : Type :=
| AnyEmpty
| AnyInt (i : Z)
| AnyFloat (f : cfloat)
| AnyDouble (d : cdouble)
| AnyString (s : string).

(** The exceptions the function and its collaborators raise.
    [NullDereference] stands for the use of a handle that points at no
    object (undefined behaviour in the source). *)
Inductive exn : Type :=
| Runtime (msg : string)
| LengthError (msg : string)
| NotFound (msg : string)
| RangeError (msg : string)
| BadAnyCast
| PolicyNameNotFound (key : string)
| NullDereference.

(** [boost::any_cast<const int>] and [boost::any_cast<const float>]: the
    stored type has to be exactly the requested one. *)
Definition any_cast_int (a : any) : exn + Z :=
  match a with AnyInt i => inr i | _ => inl BadAnyCast end.

Definition any_cast_float (a : any) : exn + cfloat :=
  match a with AnyFloat f => inr f | _ => inl BadAnyCast end.

(** Modelled from the spec: the metadata property bag ([DataProperty], not
    part of the source) is "an ordered mapping from string keys to typed
    values, queried by unique key (findUnique) and extended by addProperty".
    A node is the ordered list of its named children. *)
Abbreviation DataProperty := (list (string * any)).

(** Position of the first child called [key]. *)
Fixpoint find_index (key : string) (dp : DataProperty) : option nat :=
  match dp with
  | [] => None
  | (k, _) :: rest =>
      if String.eqb k key then Some O else S <$> find_index key rest
  end.

(** ** Configuration *)

(** Modelled from the spec: a policy (not part of the source) is a
    hierarchical key-value source "exposing getPolicy(subtreeName),
    getString(key), getDouble(key) with well-defined failure when a key is
    absent". *)
#[warnings="-register-all"]
Inductive Policy : Type :=
| mkPolicy (strings : list (string * string))
           (doubles : list (string * cdouble))
           (policies : list (string * Policy)).

Fixpoint assoc {V : Type} (key : string) (l : list (string * V)) : option V :=
  match l with
  | [] => None
  | (k, v) :: rest => if String.eqb k key then Some v else assoc key rest
  end.

Definition policy_strings (p : Policy) := let 'mkPolicy s _ _ := p in s.
Definition policy_doubles (p : Policy) := let 'mkPolicy _ d _ := p in d.
Definition policy_policies (p : Policy) := let 'mkPolicy _ _ c := p in c.

(** ** The store *)

Abbreviation loc := positive.

(** Modelled from the spec: the image container ([MaskedImage], not part of
    the source) holds a pixel plane, a mask plane and a variance plane of
    [cols] x [rows] samples, and the image carries a pointer to its
    metadata.  A [MaskedImage] value is a handle: copying it, as
    [getMaskedImage] does, shares the planes ("the scaling step in the
    original design mutates it in place").  The three planes of one masked
    image live in one heap cell, the function never separates them. *)
Record MaskedImageData (ImageT MaskT : Type) : Type := mkMaskedImageData {
  mi_cols : Z;
  mi_rows : Z;
  mi_image : list ImageT;
  mi_mask : list MaskT;
  mi_variance : list ImageT;
  mi_metadata : loc
}.
Arguments mkMaskedImageData {ImageT MaskT}.
Arguments mi_cols {ImageT MaskT}.
Arguments mi_rows {ImageT MaskT}.
Arguments mi_image {ImageT MaskT}.
Arguments mi_mask {ImageT MaskT}.
Arguments mi_variance {ImageT MaskT}.
Arguments mi_metadata {ImageT MaskT}.

(** An exposure owns a masked image; [getMaskedImage] hands out a copy of the
    handle. *)
Record Exposure : Type := mkExposure { getMaskedImage : loc }.

(** Modelled from the spec: the per-sample arithmetic of the container's
    [operator*=] and [operator-=] ("the exact combination rule is an
    external collaborator capability of the image container"), one instance
    per instantiation of the template. *)
Class ImageOps (ImageT MaskT : Type) : Type := {
  pixel_scale : ImageT -> cdouble -> ImageT;
  variance_scale : ImageT -> cdouble -> ImageT;
  pixel_sub : ImageT -> ImageT -> ImageT;
  variance_add : ImageT -> ImageT -> ImageT;
  mask_or : MaskT -> MaskT -> MaskT
}.

(** A call on a collaborator, as the log keeps it. *)
Inductive event : Type :=
| EvFindUnique (metadata : loc) (key : string)
| EvGetPolicy (key : string)
| EvGetString (key : string)
| EvGetDouble (key : string)
| EvDivide (a b : cfloat)
| EvScale (image : loc) (scale : cdouble)
| EvSubtract (image rhs : loc)
| EvAddProperty (metadata : loc) (key : string)
| EvSetValue (metadata : loc) (index : nat) (value : any)
| EvSetMetadata (image metadata : loc).

Definition is_mutation (e : event) : bool :=
  match e with
  | EvScale _ _ | EvSubtract _ _ | EvAddProperty _ _
  | EvSetValue _ _ _ | EvSetMetadata _ _ => true
  | _ => false
  end.

Definition is_pixel_mutation (e : event) : bool :=
  match e with
  | EvScale _ _ | EvSubtract _ _ => true
  | _ => false
  end.

Record state (ImageT MaskT : Type) : Type := mkState {
  images : gmap loc (MaskedImageData ImageT MaskT);
  properties : gmap loc DataProperty;
  log : list event
}.
Arguments mkState {ImageT MaskT}.
Arguments images {ImageT MaskT}.
Arguments properties {ImageT MaskT}.
Arguments log {ImageT MaskT}.

(** ** The monad: a store threaded through calls that may throw *)

Inductive result (A : Type) : Type :=
| Ok (a : A)
| Throw (e : exn).
Arguments Ok {A}.
Arguments Throw {A}.

Definition M (S A : Type) : Type := S -> S * result A.

Definition ret {S A : Type} (a : A) : M S A := fun st => (st, Ok a).

Definition throw {S A : Type} (e : exn) : M S A := fun st => (st, Throw e).

Definition bind {S A B : Type} (c : M S A) (k : A -> M S B) : M S B :=
  fun st =>
    match c st with
    | (st', Ok a) => k a st'
    | (st', Throw e) => (st', Throw e)
    end.

Declare Scope cxx_scope.
Delimit Scope cxx_scope with cxx.
Notation "x <- c ;; k" := (bind c (fun x => k))
  (at level 100, c at next level, right associativity) : cxx_scope.
Notation "c ;;; k" := (bind c (fun _ => k))
  (at level 100, right associativity) : cxx_scope.
Local Open Scope cxx_scope.

(** An [exn + A] computed without the store, raised or returned. *)
Definition lift {S A : Type} (r : exn + A) : M S A :=
  match r with inl e => throw e | inr a => ret a end.

(** ** The collaborators' operations and the function *)

Definition func_name : string := "darkCurrentCorrectChunkExposure".

(** The texts of the exceptions, as the function assembles them. *)
Definition previously_performed : string :=
  "Dark Current Subtraction previously performed.".

Definition not_same_size : string :=
  "In " +:+ func_name +:+
  ": Chunk Exposure and Master Bias Chunk Exposure are not the same size.".

Definition could_not_get (key side : string) : string :=
  "In " +:+ func_name +:+ ": Could not get " +:+ key +:+ " from " +:+ side +:+ " Metadata.".

Definition not_same_pixels : string :=
  "In " +:+ func_name +:+
  ": Chunk Exposure and Master Dark Current Chunk Exposure are not derived from the same pixels.".

Section Correction.
Context {ImageT MaskT : Type} {ops : ImageOps ImageT MaskT}.

Local Abbreviation St := (state ImageT MaskT).
Local Abbreviation Cxx := (M St).
Local Abbreviation Cell := (MaskedImageData ImageT MaskT).

Definition emit (e : event) : Cxx unit :=
  fun st => (mkState (images st) (properties st) (log st ++ [e]), Ok tt).

Definition deref_image (h : loc) : Cxx Cell :=
  fun st =>
    match images st !! h with
    | Some d => (st, Ok d)
    | None => (st, Throw NullDereference)
    end.

Definition deref_properties (m : loc) : Cxx DataProperty :=
  fun st =>
    match properties st !! m with
    | Some dp => (st, Ok dp)
    | None => (st, Throw NullDereference)
    end.

Definition store_image (h : loc) (d : Cell) : Cxx unit :=
  fun st => (mkState (<[h := d]> (images st)) (properties st) (log st), Ok tt).

Definition store_properties (m : loc) (dp : DataProperty) : Cxx unit :=
  fun st => (mkState (images st) (<[m := dp]> (properties st)) (log st), Ok tt).

(** Modelled from the spec: [maskedImage.getImage()->getMetadata()],
    [getCols()] and [getRows()] of the image container (its "dimension
    queries" and its metadata store). *)
Definition getMetadata (h : loc) : Cxx loc :=
  d <- deref_image h ;; ret (mi_metadata d).

Definition getCols (h : loc) : Cxx Z :=
  d <- deref_image h ;; ret (mi_cols d).

Definition getRows (h : loc) : Cxx Z :=
  d <- deref_image h ;; ret (mi_rows d).

(** Modelled from the spec: [metadata->findUnique(key)] of the property
    bag ("findUnique(key) -> optional value"): a pointer to the child, here
    its position, or null. *)
Definition findUnique (m : loc) (key : string) : Cxx (option nat) :=
  emit (EvFindUnique m key) ;;;
  dp <- deref_properties m ;;
  ret (find_index key dp).

(** Modelled from the spec: [field->getValue()] of the property bag,
    through a pointer obtained from [findUnique]. *)
Definition getValue (m : loc) (i : nat) : Cxx any :=
  dp <- deref_properties m ;;
  match dp !! i with
  | Some (_, v) => ret v
  | None => throw NullDereference
  end.

(** Modelled from the spec: [metadata->addProperty(DataProperty(key))] of
    the property bag ("extended by addProperty"): a new last child holding
    an empty value. *)
Definition addProperty (m : loc) (key : string) : Cxx unit :=
  emit (EvAddProperty m key) ;;;
  dp <- deref_properties m ;;
  store_properties m (dp ++ [(key, AnyEmpty)]).

(** Modelled from the spec: [field->setValue(v)] of the property bag. *)
Definition setValue (m : loc) (i : nat) (v : any) : Cxx unit :=
  emit (EvSetValue m i v) ;;;
  dp <- deref_properties m ;;
  match dp !! i with
  | Some (k, _) => store_properties m (<[i := (k, v)]> dp)
  | None => throw NullDereference
  end.

Definition with_metadata (m : loc) (d : Cell) : Cell :=
  mkMaskedImageData (mi_cols d) (mi_rows d) (mi_image d) (mi_mask d)
                    (mi_variance d) m.

(** Modelled from the spec: [maskedImage.setMetadata(metadata)] of the
    image container. *)
Definition setMetadata (h m : loc) : Cxx unit :=
  emit (EvSetMetadata h m) ;;;
  d <- deref_image h ;;
  store_image h (with_metadata m d).

(** Modelled from the spec: [maskedImage *= scale] of the image container,
    "multiply every sample (pixel and variance planes)", in place. *)
Definition scale_data (s : cdouble) (d : Cell) : Cell :=
  mkMaskedImageData (mi_cols d) (mi_rows d)
                    (map (fun p => pixel_scale p s) (mi_image d))
                    (mi_mask d)
                    (map (fun v => variance_scale v s) (mi_variance d))
                    (mi_metadata d).

Definition operator_mul_assign (h : loc) (s : cdouble) : Cxx unit :=
  emit (EvScale h s) ;;;
  d <- deref_image h ;;
  store_image h (scale_data s d).

(** Modelled from the spec: [maskedImage -= rhs] of the image container,
    "element-wise", in place on the left operand.  The function calls it on
    planes of equal dimensions only. *)
Definition subtract_data (d r : Cell) : Cell :=
  mkMaskedImageData (mi_cols d) (mi_rows d)
                    (zip_with pixel_sub (mi_image d) (mi_image r))
                    (zip_with mask_or (mi_mask d) (mi_mask r))
                    (zip_with variance_add (mi_variance d) (mi_variance r))
                    (mi_metadata d).

Definition operator_sub_assign (h g : loc) : Cxx unit :=
  emit (EvSubtract h g) ;;;
  d <- deref_image h ;;
  r <- deref_image g ;;
  store_image h (subtract_data d r).

(** Modelled from the spec: [policy.getPolicy(key)], [getString(key)] and
    [getDouble(key)] of the policy, each with its "well-defined failure when
    a key is absent". *)
Definition getPolicy (p : Policy) (key : string) : Cxx Policy :=
  emit (EvGetPolicy key) ;;;
  match assoc key (policy_policies p) with
  | Some q => ret q
  | None => throw (PolicyNameNotFound key)
  end.

Definition getString (p : Policy) (key : string) : Cxx string :=
  emit (EvGetString key) ;;;
  match assoc key (policy_strings p) with
  | Some s => ret s
  | None => throw (PolicyNameNotFound key)
  end.

Definition getDouble (p : Policy) (key : string) : Cxx cdouble :=
  emit (EvGetDouble key) ;;;
  match assoc key (policy_doubles p) with
  | Some d => ret d
  | None => throw (PolicyNameNotFound key)
  end.

(** [exptime/mexptime], a division of two [float]s. *)
Definition divide (a b : cfloat) : Cxx cfloat :=
  emit (EvDivide a b) ;;; ret (float_div a b).

(** *** The function, block by block *)

(** Lines 80-84: the sub-stage has not been run on this chunk. *)
Definition checkNotRunPreviously (chunkMetadata : loc) : Cxx unit :=
  isrDarkField <- findUnique chunkMetadata "ISR_DARKCOR" ;;
  match isrDarkField with
  | Some _ => throw (Runtime previously_performed)
  | None => ret tt
  end.

(** Lines 89-97: both exposures have the same size. *)
Definition checkSameSize (chunkMaskedImage masterChunkMaskedImage : loc) : Cxx unit :=
  cols <- getCols chunkMaskedImage ;;
  let numCols := static_cast_int cols in
  rows <- getRows chunkMaskedImage ;;
  let numRows := static_cast_int rows in
  mcols <- getCols masterChunkMaskedImage ;;
  let mnumCols := static_cast_int mcols in
  mrows <- getRows masterChunkMaskedImage ;;
  let mnumRows := static_cast_int mrows in
  if negb (numCols =? mnumCols) || negb (numRows =? mnumRows)
  then throw (LengthError not_same_size)
  else ret tt.

(** Lines 106-112 and their five siblings (114-120, 126-132, 134-140,
    152-158, 160-166): the value stored under [key], cast to the type
    asked for; [NotFound] when there is no such field. *)
Definition getField {A : Type} (metadata : loc) (key : string)
           (any_cast : any -> exn + A) (side : string) : Cxx A :=
  field <- findUnique metadata key ;;
  match field with
  | Some i => v <- getValue metadata i ;; lift (any_cast v)
  | None => throw (NotFound (could_not_get key side))
  end.

(** Lines 106-124 for [key = "AMPID"] and lines 126-144 for
    [key = "CCDID"]: the two blocks differ in the key only. *)
Definition checkSameId (key : string) (chunkMetadata masterChunkMetadata : loc) : Cxx unit :=
  id <- getField chunkMetadata key any_cast_int "the Chunk" ;;
  mid <- getField masterChunkMetadata key any_cast_int "the Master Dark Current Chunk" ;;
  if negb (id =? mid)
  then throw (RangeError not_same_pixels)
  else ret tt.

(** Lines 105-148: the exposures are derived from the same pixels. *)
Definition checkSamePixels (chunkType : string)
           (chunkMetadata masterChunkMetadata : loc) : Cxx unit :=
  if String.eqb chunkType "amp"
  then checkSameId "AMPID" chunkMetadata masterChunkMetadata
  else if String.eqb chunkType "ccd"
       then checkSameId "CCDID" chunkMetadata masterChunkMetadata
       else ret tt (* raft level check: not yet implemented *).

(** Lines 152-158 and 160-166: [EXPTIME] of one side. *)
Definition getExptime (metadata : loc) (side : string) : Cxx cfloat :=
  getField metadata "EXPTIME" any_cast_float side.

(** The local variables that are live at line 171. *)
Record locals : Type := mkLocals {
  chunkMaskedImage : loc;
  chunkMetadata : loc;
  masterChunkMaskedImage : loc;
  masterChunkMetadata : loc;
  exptime : cfloat;
  mexptime : cfloat;
  darkScale : cdouble
}.

(** Lines 150-170: the exposure times of both sides and the configured
    scale. *)
Definition getScalingInformation (darkPolicy : Policy)
           (chunkMaskedImage chunkMetadata masterChunkMaskedImage masterChunkMetadata : loc)
  : Cxx locals :=
  exptime <- getExptime chunkMetadata "Chunk" ;;
  mexptime <- getExptime masterChunkMetadata "Master Dark Current Chunk" ;;
  darkScale <- getDouble darkPolicy "darkScale" ;;
  ret (mkLocals chunkMaskedImage chunkMetadata masterChunkMaskedImage
                masterChunkMetadata exptime mexptime darkScale).

(** Lines 64-170: everything that is read and checked before the first
    write. *)
Definition validate (chunkExposure masterChunkExposure : Exposure)
           (isrPolicy datasetPolicy : Policy) : Cxx locals :=
  let chunkMaskedImage := getMaskedImage chunkExposure in
  chunkMetadata <- getMetadata chunkMaskedImage ;;
  let masterChunkMaskedImage := getMaskedImage masterChunkExposure in
  masterChunkMetadata <- getMetadata masterChunkMaskedImage ;;
  checkNotRunPreviously chunkMetadata ;;;
  checkSameSize chunkMaskedImage masterChunkMaskedImage ;;;
  darkPolicy <- getPolicy isrPolicy "darkPolicy" ;;
  chunkType <- getString darkPolicy "chunkType" ;;
  checkSamePixels chunkType chunkMetadata masterChunkMetadata ;;;
  getScalingInformation darkPolicy chunkMaskedImage chunkMetadata
                        masterChunkMaskedImage masterChunkMetadata.

(** Lines 174-189: scale the master, subtract it from the chunk. *)
Definition scaleAndSubtract (l : locals) : Cxx unit :=
  (if float_ne (exptime l) (mexptime l)
   then q <- divide (exptime l) (mexptime l) ;;
        let scale := float_to_double q in
        operator_mul_assign (masterChunkMaskedImage l) scale
   else ret tt) ;;;
  if double_to_bool (darkScale l)
  then operator_mul_assign (masterChunkMaskedImage l) (darkScale l) ;;;
       operator_sub_assign (chunkMaskedImage l) (masterChunkMaskedImage l)
  else operator_sub_assign (chunkMaskedImage l) (masterChunkMaskedImage l).

(** Lines 192-197: record the provenance in the image metadata. *)
Definition recordProvenance (l : locals) : Cxx unit :=
  addProperty (chunkMetadata l) "ISR_DARKCOR" ;;;
  darkCorProp <- findUnique (chunkMetadata l) "ISR_DARKCOR" ;;
  (match darkCorProp with
   | Some i => setValue (chunkMetadata l) i (AnyString "Completed Successfully")
   | None => throw NullDereference
   end) ;;;
  setMetadata (chunkMaskedImage l) (chunkMetadata l).

Definition darkCurrentCorrectChunkExposure
           (chunkExposure masterChunkExposure : Exposure)
           (isrPolicy datasetPolicy : Policy) : Cxx unit :=
  l <- validate chunkExposure masterChunkExposure isrPolicy datasetPolicy ;;
  scaleAndSubtract l ;;;
  recordProvenance l.

(** *** Observations on a store *)

(** The store with [evs] added to the log. *)
Definition logged (evs : list event) (st : St) : St :=
  mkState (images st) (properties st) (log st ++ evs).

(** The store with one image cell, or one metadata node, replaced. *)
Definition with_image (h : loc) (d : Cell) (st : St) : St :=
  mkState (<[h := d]> (images st)) (properties st) (log st).

Definition with_properties (m : loc) (dp : DataProperty) (st : St) : St :=
  mkState (images st) (<[m := dp]> (properties st)) (log st).

(** The metadata of an exposure, and the value stored under a key. *)
Definition metadata_of (st : St) (e : Exposure) : option DataProperty :=
  match images st !! getMaskedImage e with
  | Some d => properties st !! mi_metadata d
  | None => None
  end.

Definition lookup_property (st : St) (e : Exposure) (key : string) : option any :=
  match metadata_of st e with
  | Some dp => assoc key dp
  | None => None
  end.

(** The pixel plane of an exposure. *)
Definition pixels_of (st : St) (e : Exposure) : option (list ImageT) :=
  mi_image <$> images st !! getMaskedImage e.

(** The dimensions of an exposure, as the function compares them. *)
Definition dimensions_of (st : St) (e : Exposure) : option (Z * Z) :=
  (fun d => (static_cast_int (mi_cols d), static_cast_int (mi_rows d)))
    <$> images st !! getMaskedImage e.

End Correction.

(** ** The instantiation of the template at [double] *)

(** Modelled from the spec: on the samples of an image of [double]s,
    [operator*=] multiplies the pixel by the factor and the variance by its
    square, [operator-=] subtracts the pixels, adds the variances and ORs
    the mask bits ("mask planes are combined (logical OR of per-pixel
    flags) and variance planes combined additively scaled by the applied
    factor squared"). *)
#[export] Instance double_ops : ImageOps cdouble Z := {|
  pixel_scale p s := double_mul p s;
  variance_scale v s := double_mul v (double_mul s s);
  pixel_sub := double_sub;
  variance_add := double_add;
  mask_or := Z.lor
|}.

(** ** Sample data *)

Module Sample.

Definition policy (chunkType : string) (darkScale : list (string * cdouble)) : Policy :=
  mkPolicy [] [] [("darkPolicy", mkPolicy [("chunkType", chunkType)] darkScale [])].

Definition d (n : Z) : cdouble := double_of_Z n.
Definition f (n : Z) : cfloat := float_of_Z n.

(** A 2 x 2 chunk (cell 1, metadata 11), its master dark (cell 2,
    metadata 12) and a second chunk (cell 3, metadata 13). *)
Definition chunk : Exposure := mkExposure 1%positive.
Definition master : Exposure := mkExposure 2%positive.
Definition chunk' : Exposure := mkExposure 3%positive.

Definition chunk_cell : MaskedImageData cdouble Z :=
  mkMaskedImageData 2 2 [d 100; d 200; d 300; d 400] [0; 1; 0; 0]
                    [d 10; d 10; d 10; d 10] 11%positive.
Definition master_cell : MaskedImageData cdouble Z :=
  mkMaskedImageData 2 2 [d 1; d 2; d 3; d 4] [0; 0; 2; 0]
                    [d 1; d 1; d 1; d 1] 12%positive.
Definition chunk'_cell : MaskedImageData cdouble Z :=
  mkMaskedImageData 2 2 [d 50; d 60; d 70; d 80] [0; 0; 0; 0]
                    [d 5; d 5; d 5; d 5] 13%positive.

Definition store (chunk_md master_md : DataProperty) : state cdouble Z :=
  mkState (<[1%positive := chunk_cell]> (<[2%positive := master_cell]>
             (<[3%positive := chunk'_cell]> ∅)))
          (<[11%positive := chunk_md]> (<[12%positive := master_md]>
             (<[13%positive := chunk_md]> ∅)))
          [].

(** The metadata of an exposure of [exptime] seconds from amplifier
    [ampid]. *)
Definition md (ampid : Z) (exptime : Z) : DataProperty :=
  [("AMPID", AnyInt ampid); ("EXPTIME", AnyFloat (f exptime))].

(** Chunks exposed for 30 s, master dark for 15 s, all from amplifier 3. *)
Definition st_30_15 : state cdouble Z := store (md 3 30) (md 3 15).

(** Amplifier chunks, a scale that is configured but zero. *)
Definition isr_amp_0 : Policy := policy "amp" [("darkScale", d 0)].

Definition noPolicy : Policy := mkPolicy [] [] [].

(** The store after the correction of [chunk] by [master]. *)
Definition st_corrected : state cdouble Z :=
  fst (darkCurrentCorrectChunkExposure chunk master isr_amp_0 noPolicy st_30_15).

(** The same chunk with a master dark from amplifier 7. *)
Definition st_amp_3_7 : state cdouble Z := store (md 3 30) (md 7 15).

(** A 100 x 100 chunk and a 100 x 99 master dark. *)
Definition cell_of_size (cols rows : Z) (metadata : loc) : MaskedImageData cdouble Z :=
  mkMaskedImageData cols rows
                    (replicate (Z.to_nat (cols * rows)) (d 0))
                    (replicate (Z.to_nat (cols * rows)) 0)
                    (replicate (Z.to_nat (cols * rows)) (d 0))
                    metadata.

Definition st_100_99 : state cdouble Z :=
  mkState (<[1%positive := cell_of_size 100 100 11]>
             (<[2%positive := cell_of_size 100 99 12]> ∅))
          (<[11%positive := md 3 30]> (<[12%positive := md 3 15]> ∅))
          [].

(** Chunks of an unknown type, and a configuration without [darkScale]. *)
Definition isr_raft_0 : Policy := policy "raft" [("darkScale", d 0)].
Definition isr_amp_unscaled : Policy := policy "amp" [].

(** A master dark whose exposure time is zero. *)
Definition st_30_0 : state cdouble Z := store (md 3 30) (md 3 0).

(** A chunk whose [EXPTIME] was stored as a [double], and one whose
    [AMPID] was stored as a string. *)
Definition st_double_exptime : state cdouble Z :=
  store [("AMPID", AnyInt 3); ("EXPTIME", AnyDouble (d 30))] (md 3 15).

Definition st_string_ampid : state cdouble Z :=
  store [("AMPID", AnyString "3"); ("EXPTIME", AnyFloat (f 30))] (md 3 15).

End Sample.

(** ** The vocabulary of the specification *)

(** The five error kinds of the specification's error handling design. *)
Inductive ErrorKind : Type :=
| AlreadyCorrected
| DimensionMismatch
| IdentityMismatch
| MissingMetadata
| MissingConfiguration.

(** The kind under which the specification files an exception of the code,
    after the function's [\throw] documentation; the two others are no kind
    of it. *)
Definition error_kind (e : exn) : option ErrorKind :=
  match e with
  | Runtime _ => Some AlreadyCorrected
  | LengthError _ => Some DimensionMismatch
  | RangeError _ => Some IdentityMismatch
  | NotFound _ => Some MissingMetadata
  | PolicyNameNotFound _ => Some MissingConfiguration
  | BadAnyCast => None
  | NullDereference => None
  end.

(** [needle] occurs in [hay]. *)
Fixpoint is_infix (needle hay : string) : bool :=
  String.prefix needle hay ||
  match hay with
  | EmptyString => false
  | String _ rest => is_infix needle rest
  end.

(** The decimal rendering of an integer. *)
Definition decimal (n : Z) : string := NilZero.string_of_int (Z.to_int n).

(** A report names the size [cols] x [rows] when both numbers occur in it. *)
Definition reports_size (msg : string) (cols rows : Z) : bool :=
  is_infix (decimal cols) msg && is_infix (decimal rows) msg.

Section Scaling.
Context {ImageT MaskT : Type} {ops : ImageOps ImageT MaskT}.

(** [timeScale = chunkExptime / referenceExptime], as a [double]. *)
Definition timeScale (exptime mexptime : cfloat) : cdouble :=
  float_to_double (float_div exptime mexptime).

(** The reference sample the chunk sample is decreased by: the scalings
    that apply, one after the other. *)
Definition scaled_reference (exptime mexptime : cfloat) (darkScale : cdouble)
           (p : ImageT) : ImageT :=
  let p1 := if float_ne exptime mexptime
            then pixel_scale p (timeScale exptime mexptime) else p in
  if double_to_bool darkScale then pixel_scale p1 darkScale else p1.

(** The effective multiplier of the specification. *)
Definition effective_multiplier (exptime mexptime : cfloat) (darkScale : cdouble) : cdouble :=
  match float_ne exptime mexptime, double_to_bool darkScale with
  | true, true => double_mul (timeScale exptime mexptime) darkScale
  | true, false => timeScale exptime mexptime
  | false, true => darkScale
  | false, false => double_of_Z 1
  end.

(** On the sample [p] the scalings that apply compose without rounding:
    carried out one after the other they give [p] times the effective
    multiplier. *)
Definition scales_exactly (exptime mexptime : cfloat) (darkScale : cdouble)
           (p : ImageT) : Prop :=
  scaled_reference exptime mexptime darkScale p
  = pixel_scale p (effective_multiplier exptime mexptime darkScale).

(** The master cell once the scalings that apply have been carried out. *)
Definition scaled_master (exptime mexptime : cfloat) (darkScale : cdouble)
           (md : MaskedImageData ImageT MaskT) : MaskedImageData ImageT MaskT :=
  let md1 := if float_ne exptime mexptime
             then scale_data (timeScale exptime mexptime) md else md in
  if double_to_bool darkScale then scale_data darkScale md1 else md1.

(** The calls of lines 174-189, in order. *)
Definition scaling_log (l : locals) : list event :=
  (if float_ne (exptime l) (mexptime l)
   then [EvDivide (exptime l) (mexptime l);
         EvScale (masterChunkMaskedImage l) (timeScale (exptime l) (mexptime l))]
   else [])
  ++ (if double_to_bool (darkScale l)
      then [EvScale (masterChunkMaskedImage l) (darkScale l)] else [])
  ++ [EvSubtract (chunkMaskedImage l) (masterChunkMaskedImage l)].

End Scaling.

(** The two exposures differ in the number of columns or of rows, as
    line 95 compares them. *)
Definition sizes_differ {ImageT MaskT} (cd md : MaskedImageData ImageT MaskT) : bool :=
  negb (static_cast_int (mi_cols cd) =? static_cast_int (mi_cols md))
  || negb (static_cast_int (mi_rows cd) =? static_cast_int (mi_rows md)).

(** The counts of columns and of rows are unsigned 32-bit integers. *)
Definition unsigned_size {ImageT MaskT} (d : MaskedImageData ImageT MaskT) : Prop :=
  (0 <= mi_cols d < 4294967296) /\ (0 <= mi_rows d < 4294967296).

(** The identifier a chunk type is compared by, if any. *)
Definition identity_key (chunkType : string) : option string :=
  if String.eqb chunkType "amp" then Some "AMPID"
  else if String.eqb chunkType "ccd" then Some "CCDID"
  else None.

(** Both sides hold the same integer under the identifier of the chunk
    type. *)
Definition identity_matches (chunkType : string) (cdp mdp : DataProperty) : Prop :=
  match identity_key chunkType with
  | Some key => exists a, assoc key cdp = Some (AnyInt a) /\ assoc key mdp = Some (AnyInt a)
  | None => True
  end.

(** The metadata reads of a passing identity check. *)
Definition identity_reads (chunkType : string) (cm mm : loc) : list event :=
  match identity_key chunkType with
  | Some key => [EvFindUnique cm key; EvFindUnique mm key]
  | None => []
  end.

(** The calls of a passing validation. *)
Definition validation_log (chunkType : string) (cm mm : loc) : list event :=
  [EvFindUnique cm "ISR_DARKCOR"; EvGetPolicy "darkPolicy"; EvGetString "chunkType"]
  ++ identity_reads chunkType cm mm
  ++ [EvFindUnique cm "EXPTIME"; EvFindUnique mm "EXPTIME"; EvGetDouble "darkScale"].

(** The value of the provenance entry, and the calls of lines 192-197. *)
Definition success_marker : any := AnyString "Completed Successfully".

Definition provenance_log (c cm : loc) (index : nat) : list event :=
  [EvAddProperty cm "ISR_DARKCOR"; EvFindUnique cm "ISR_DARKCOR";
   EvSetValue cm index success_marker; EvSetMetadata c cm].

(** The configured [darkPolicy.darkScale]. *)
Definition configured_darkScale (isrPolicy : Policy) : option cdouble :=
  match assoc "darkPolicy" (policy_policies isrPolicy) with
  | Some darkPolicy => assoc "darkScale" (policy_doubles darkPolicy)
  | None => None
  end.

(** A call that is neither the division of the exposure times nor a
    scaling by another factor than [scale]. *)
Definition no_time_scaling (scale : cdouble) (e : event) : Prop :=
  match e with
  | EvDivide _ _ => False
  | EvScale _ s => s = scale /\ double_to_bool scale = true
  | _ => True
  end.

(** A chunk that has been corrected already: its metadata holds the
    provenance key, as it does in the store a correction of it returned
    to. *)
Inductive already_corrected {ImageT MaskT} {ops : ImageOps ImageT MaskT}
          (st : state ImageT MaskT) (chunkExposure : Exposure) : Prop :=
| marked v :
    lookup_property st chunkExposure "ISR_DARKCOR" = Some v ->
    already_corrected st chunkExposure
| just_corrected st0 masterChunkExposure isrPolicy datasetPolicy :
    darkCurrentCorrectChunkExposure chunkExposure masterChunkExposure
                                    isrPolicy datasetPolicy st0 = (st, Ok tt) ->
    already_corrected st chunkExposure.

(** A call that looks something up and writes nothing. *)
Definition is_read (e : event) : Prop :=
  match e with
  | EvFindUnique _ _ | EvGetPolicy _ | EvGetString _ | EvGetDouble _ => True
  | _ => False
  end.

(** A computation that only reads: whatever its outcome, it leaves the
    store as it found it, the log longer by some reads. *)
Definition reads {ImageT MaskT A : Type} (c : M (state ImageT MaskT) A) : Prop :=
  forall st, exists evs, fst (c st) = logged evs st /\ Forall is_read evs.

(** *** How far a store and a configuration carry the function *)

Section Stages.
Context {ImageT MaskT : Type}.
Variables (st : state ImageT MaskT) (chunkExposure masterChunkExposure : Exposure).
Variable isrPolicy : Policy.

(** Both exposures point at objects, the chunk carries no provenance
    marker, the sizes agree and the chunk type is configured: the function
    reaches the identity check of line 105. *)
Record reaches_identity (cd md : MaskedImageData ImageT MaskT) (cdp : DataProperty)
       (darkPolicy : Policy) (chunkType : string) : Prop := {
  ri_chunk : images st !! getMaskedImage chunkExposure = Some cd;
  ri_master : images st !! getMaskedImage masterChunkExposure = Some md;
  ri_chunk_metadata : properties st !! mi_metadata cd = Some cdp;
  ri_gate : assoc "ISR_DARKCOR" cdp = None;
  ri_size : sizes_differ cd md = false;
  ri_policy : assoc "darkPolicy" (policy_policies isrPolicy) = Some darkPolicy;
  ri_type : assoc "chunkType" (policy_strings darkPolicy) = Some chunkType
}.

(** Moreover the identifiers agree: the function reaches line 150. *)
Record reaches_scaling (cd md : MaskedImageData ImageT MaskT) (cdp mdp : DataProperty)
       (darkPolicy : Policy) (chunkType : string) : Prop := {
  rs_identity : reaches_identity cd md cdp darkPolicy chunkType;
  rs_master_metadata : properties st !! mi_metadata md = Some mdp;
  rs_matches : identity_matches chunkType cdp mdp
}.

(** Moreover both exposure times are [float]s and the scale is
    configured: the validation passes, with the local variables [l]. *)
Record passes (cd md : MaskedImageData ImageT MaskT) (cdp mdp : DataProperty)
       (darkPolicy : Policy) (chunkType : string) (l : locals) : Prop := {
  passes_scaling : reaches_scaling cd md cdp mdp darkPolicy chunkType;
  passes_exptime : assoc "EXPTIME" cdp = Some (AnyFloat (exptime l));
  passes_mexptime : assoc "EXPTIME" mdp = Some (AnyFloat (mexptime l));
  passes_darkScale : assoc "darkScale" (policy_doubles darkPolicy) = Some (darkScale l);
  passes_locals : l = mkLocals (getMaskedImage chunkExposure) (mi_metadata cd)
                               (getMaskedImage masterChunkExposure) (mi_metadata md)
                               (exptime l) (mexptime l) (darkScale l)
}.

End Stages.

(** The store a passing correction ends in: the master scaled in place, the
    chunk decreased by it, the chunk metadata one entry longer.  When the
    two exposures are one object, the chunk that is decreased is the scaled
    one. *)
Definition corrected_store {ImageT MaskT} {ops : ImageOps ImageT MaskT}
           (st : state ImageT MaskT) (l : locals)
           (cd md : MaskedImageData ImageT MaskT) (cdp : DataProperty)
           (chunkType : string) : state ImageT MaskT :=
  let md' := scaled_master (exptime l) (mexptime l) (darkScale l) md in
  let cd' := if decide (chunkMaskedImage l = masterChunkMaskedImage l) then md' else cd in
  mkState (<[chunkMaskedImage l := subtract_data cd' md']>
             (<[masterChunkMaskedImage l := md']> (images st)))
          (<[chunkMetadata l := cdp ++ [("ISR_DARKCOR", success_marker)]]> (properties st))
          (log st ++ validation_log chunkType (chunkMetadata l) (masterChunkMetadata l)
               ++ scaling_log l
               ++ provenance_log (chunkMaskedImage l) (chunkMetadata l) (length cdp)).

(** The exceptions the function can raise in a store where both exposures
    and their metadata exist, each with its text: those of its [\throw]
    documentation, the policy's for the three keys it asks for, and
    [bad_any_cast]. *)
Definition is_raised_by_function (e : exn) : bool :=
  match e with
  | Runtime msg => String.eqb msg previously_performed
  | LengthError msg => String.eqb msg not_same_size
  | RangeError msg => String.eqb msg not_same_pixels
  | NotFound msg =>
      existsb (String.eqb msg)
              [could_not_get "AMPID" "the Chunk";
               could_not_get "AMPID" "the Master Dark Current Chunk";
               could_not_get "CCDID" "the Chunk";
               could_not_get "CCDID" "the Master Dark Current Chunk";
               could_not_get "EXPTIME" "Chunk";
               could_not_get "EXPTIME" "Master Dark Current Chunk"]
  | PolicyNameNotFound key =>
      existsb (String.eqb key) ["darkPolicy"; "chunkType"; "darkScale"]
  | BadAnyCast => true
  | NullDereference => false
  end.

(** ** Two chunks and two master darks *)

Module Pairs.

(** A second master dark (cell 4, metadata 14), exposed for 10 s, beside
    the cells of [Sample]; the second chunk has its own metadata. *)
Definition master' : Exposure := mkExposure 4%positive.

Definition master'_cell : MaskedImageData cdouble Z :=
  mkMaskedImageData 2 2 [Sample.d 5; Sample.d 6; Sample.d 7; Sample.d 8] [0; 0; 0; 4]
                    [Sample.d 2; Sample.d 2; Sample.d 2; Sample.d 2] 14%positive.

Definition st : state cdouble Z :=
  mkState (<[1%positive := Sample.chunk_cell]> (<[2%positive := Sample.master_cell]>
             (<[3%positive := Sample.chunk'_cell]> (<[4%positive := master'_cell]> ∅))))
          (<[11%positive := Sample.md 3 30]> (<[12%positive := Sample.md 3 15]>
             (<[13%positive := Sample.md 3 30]> (<[14%positive := Sample.md 3 10]> ∅))))
          [].

(** The local variables of the correction of the chunk in cell [c] by the
    master in cell [m], with the exposure times above and no [darkScale]. *)
Definition l (c m : positive) (mexptime : Z) : locals :=
  mkLocals c (c + 10)%positive m (m + 10)%positive
           (Sample.f 30) (Sample.f mexptime) (Sample.d 0).

End Pairs.

(** ** A correction with both scalings *)

Module Rounding.

(** The [double] nearest to 0.3, as the literal [0.3] of a policy file
    reads. *)
Definition three_tenths : cdouble :=
  SFdiv double_prec double_emax (Sample.d 3) (Sample.d 10).

(** A 1 x 1 chunk of pixel 0 exposed for 10 s (cell 1, metadata 11) and a
    1 x 1 master dark of pixel 3 exposed for 30 s (cell 2, metadata 12). *)
Definition chunk_cell : MaskedImageData cdouble Z :=
  mkMaskedImageData 1 1 [Sample.d 0] [0] [Sample.d 1] 11%positive.
Definition master_cell : MaskedImageData cdouble Z :=
  mkMaskedImageData 1 1 [Sample.d 3] [0] [Sample.d 1] 12%positive.

Definition st : state cdouble Z :=
  mkState (<[1%positive := chunk_cell]> (<[2%positive := master_cell]> ∅))
          (<[11%positive := Sample.md 3 10]> (<[12%positive := Sample.md 3 30]> ∅))
          [].

Definition isr : Policy := Sample.policy "amp" [("darkScale", three_tenths)].

Definition l : locals :=
  mkLocals 1%positive 11%positive 2%positive 12%positive
           (Sample.f 10) (Sample.f 30) three_tenths.

End Rounding.

(** * Properties *)

(** ** The monad and the collaborators' operations *)

Lemma bind_ok {S A B} (c : M S A) (k : A -> M S B) st st' a :
  c st = (st', Ok a) -> bind c k st = k a st'.
Proof. unfold bind. now intros ->. Qed.

Lemma bind_throw {S A B} (c : M S A) (k : A -> M S B) st st' e :
  c st = (st', Throw e) -> bind c k st = (st', Throw e).
Proof. unfold bind. now intros ->. Qed.

(** One call of known outcome, at the head of a sequence. *)
Ltac step H :=
  first [ rewrite (bind_ok _ _ _ _ _ H) | rewrite (bind_throw _ _ _ _ _ H) ];
  cbv beta.

Section Operations.
Context {ImageT MaskT : Type} {ops : ImageOps ImageT MaskT}.

Local Abbreviation St := (state ImageT MaskT).
Local Abbreviation Cxx := (M St).

Lemma logged_nil (st : St) : logged [] st = st.
Proof. destruct st. unfold logged. simpl. now rewrite app_nil_r. Qed.

Lemma logged_logged evs evs' (st : St) :
  logged evs' (logged evs st) = logged (evs ++ evs') st.
Proof. unfold logged. simpl. now rewrite app_assoc. Qed.

Lemma emit_run e (st : St) : emit e st = (logged [e] st, Ok tt).
Proof. reflexivity. Qed.

Lemma deref_image_run h d (st : St) :
  images st !! h = Some d -> deref_image h st = (st, Ok d).
Proof. unfold deref_image. now intros ->. Qed.

Lemma deref_properties_run m dp (st : St) :
  properties st !! m = Some dp -> deref_properties m st = (st, Ok dp).
Proof. unfold deref_properties. now intros ->. Qed.

Lemma deref_properties_null m (st : St) :
  properties st !! m = None ->
  deref_properties (ImageT:=ImageT) m st = (st, Throw NullDereference).
Proof. unfold deref_properties. now intros ->. Qed.

Lemma getMetadata_run h d (st : St) :
  images st !! h = Some d -> getMetadata h st = (st, Ok (mi_metadata d)).
Proof. intros H. unfold getMetadata. now step (deref_image_run _ _ _ H). Qed.

Lemma getCols_run h d (st : St) :
  images st !! h = Some d -> getCols h st = (st, Ok (mi_cols d)).
Proof. intros H. unfold getCols. now step (deref_image_run _ _ _ H). Qed.

Lemma getRows_run h d (st : St) :
  images st !! h = Some d -> getRows h st = (st, Ok (mi_rows d)).
Proof. intros H. unfold getRows. now step (deref_image_run _ _ _ H). Qed.

Lemma findUnique_run m key dp (st : St) :
  properties st !! m = Some dp ->
  findUnique m key st = (logged [EvFindUnique m key] st, Ok (find_index key dp)).
Proof.
  intros H. unfold findUnique.
  step (emit_run (EvFindUnique m key) st).
  now step (deref_properties_run m dp (logged [EvFindUnique m key] st) H).
Qed.

Lemma findUnique_null m key (st : St) :
  properties st !! m = None ->
  findUnique m key st = (logged [EvFindUnique m key] st, Throw NullDereference).
Proof.
  intros H. unfold findUnique.
  step (emit_run (EvFindUnique m key) st).
  now step (deref_properties_null m (logged [EvFindUnique m key] st) H).
Qed.

Lemma getValue_run m i k v dp (st : St) :
  properties st !! m = Some dp -> dp !! i = Some (k, v) ->
  getValue m i st = (st, Ok v).
Proof.
  intros H Hi. unfold getValue.
  step (deref_properties_run m dp st H). now rewrite Hi.
Qed.

Lemma addProperty_run m key dp (st : St) :
  properties st !! m = Some dp ->
  addProperty m key st
  = (with_properties m (dp ++ [(key, AnyEmpty)]) (logged [EvAddProperty m key] st), Ok tt).
Proof.
  intros H. unfold addProperty.
  step (emit_run (EvAddProperty m key) st).
  now step (deref_properties_run m dp (logged [EvAddProperty m key] st) H).
Qed.

Lemma setValue_run m i k v0 v dp (st : St) :
  properties st !! m = Some dp -> dp !! i = Some (k, v0) ->
  setValue m i v st
  = (with_properties m (<[i := (k, v)]> dp) (logged [EvSetValue m i v] st), Ok tt).
Proof.
  intros H Hi. unfold setValue.
  step (emit_run (EvSetValue m i v) st).
  step (deref_properties_run m dp (logged [EvSetValue m i v] st) H).
  now rewrite Hi.
Qed.

Lemma setMetadata_run h m d (st : St) :
  images st !! h = Some d ->
  setMetadata h m st
  = (with_image h (with_metadata m d) (logged [EvSetMetadata h m] st), Ok tt).
Proof.
  intros H. unfold setMetadata.
  step (emit_run (EvSetMetadata h m) st).
  now step (deref_image_run h d (logged [EvSetMetadata h m] st) H).
Qed.

Lemma operator_mul_assign_run h s d (st : St) :
  images st !! h = Some d ->
  operator_mul_assign h s st
  = (with_image h (scale_data s d) (logged [EvScale h s] st), Ok tt).
Proof.
  intros H. unfold operator_mul_assign.
  step (emit_run (EvScale h s) st).
  now step (deref_image_run h d (logged [EvScale h s] st) H).
Qed.

Lemma operator_sub_assign_run h g d r (st : St) :
  images st !! h = Some d -> images st !! g = Some r ->
  operator_sub_assign h g st
  = (with_image h (subtract_data d r) (logged [EvSubtract h g] st), Ok tt).
Proof.
  intros H G. unfold operator_sub_assign.
  step (emit_run (EvSubtract h g) st).
  step (deref_image_run h d (logged [EvSubtract h g] st) H).
  now step (deref_image_run g r (logged [EvSubtract h g] st) G).
Qed.

Lemma getPolicy_run p key (st : St) :
  getPolicy p key st
  = (logged [EvGetPolicy key] st,
     match assoc key (policy_policies p) with
     | Some q => Ok q
     | None => Throw (PolicyNameNotFound key)
     end).
Proof.
  unfold getPolicy. step (emit_run (EvGetPolicy key) st).
  now destruct (assoc key (policy_policies p)).
Qed.

Lemma getString_run p key (st : St) :
  getString p key st
  = (logged [EvGetString key] st,
     match assoc key (policy_strings p) with
     | Some q => Ok q
     | None => Throw (PolicyNameNotFound key)
     end).
Proof.
  unfold getString. step (emit_run (EvGetString key) st).
  now destruct (assoc key (policy_strings p)).
Qed.

Lemma getDouble_run p key (st : St) :
  getDouble p key st
  = (logged [EvGetDouble key] st,
     match assoc key (policy_doubles p) with
     | Some q => Ok q
     | None => Throw (PolicyNameNotFound key)
     end).
Proof.
  unfold getDouble. step (emit_run (EvGetDouble key) st).
  now destruct (assoc key (policy_doubles p)).
Qed.

Lemma divide_run a b (st : St) :
  divide a b st = (logged [EvDivide a b] st, Ok (float_div a b)).
Proof. reflexivity. Qed.

(** [findUnique] and the ordered mapping agree. *)
Lemma find_index_Some key (dp : DataProperty) i :
  find_index key dp = Some i ->
  exists v, dp !! i = Some (key, v) /\ assoc key dp = Some v.
Proof.
  revert i. induction dp as [|[k v] dp IH]; intros i; simpl; [discriminate|].
  destruct (String.eqb k key) eqn:E.
  - intros [= <-]. apply String.eqb_eq in E as ->. now exists v.
  - destruct (find_index key dp) as [j|]; simpl; [|discriminate].
    intros [= <-]. destruct (IH j eq_refl) as (w & ? & ?). now exists w.
Qed.

Lemma find_index_None key (dp : DataProperty) :
  find_index key dp = None <-> assoc key dp = None.
Proof.
  induction dp as [|[k v] dp IH]; simpl; [easy|].
  destruct (String.eqb k key); [easy|].
  destruct (find_index key dp); simpl; [|tauto].
  split; [discriminate|]. intros H. apply IH in H. discriminate.
Qed.

Lemma find_index_assoc key (dp : DataProperty) v :
  assoc key dp = Some v ->
  exists i, find_index key dp = Some i /\ dp !! i = Some (key, v).
Proof.
  intros H. destruct (find_index key dp) as [i|] eqn:E.
  - destruct (find_index_Some _ _ _ E) as (w & Hi & Hw).
    exists i. split; [easy|]. congruence.
  - apply find_index_None in E. congruence.
Qed.

End Operations.

(** ** The blocks of the function *)

Section Blocks.
Context {ImageT MaskT : Type} {ops : ImageOps ImageT MaskT}.

Local Abbreviation St := (state ImageT MaskT).

Lemma checkNotRunPreviously_run cm dp (st : St) :
  properties st !! cm = Some dp ->
  checkNotRunPreviously cm st
  = (logged [EvFindUnique cm "ISR_DARKCOR"] st,
     match assoc "ISR_DARKCOR" dp with
     | Some _ => Throw (Runtime previously_performed)
     | None => Ok tt
     end).
Proof.
  intros H. unfold checkNotRunPreviously.
  step (findUnique_run cm "ISR_DARKCOR" dp st H).
  destruct (find_index "ISR_DARKCOR" dp) as [i|] eqn:E.
  - destruct (find_index_Some _ _ _ E) as (v & _ & ->). reflexivity.
  - apply find_index_None in E as ->. reflexivity.
Qed.

Lemma checkSameSize_run c m cd md (st : St) :
  images st !! c = Some cd -> images st !! m = Some md ->
  checkSameSize c m st
  = (st, if sizes_differ cd md then Throw (LengthError not_same_size) else Ok tt).
Proof.
  intros Hc Hm. unfold checkSameSize, sizes_differ.
  step (getCols_run c cd st Hc). step (getRows_run c cd st Hc).
  step (getCols_run m md st Hm). step (getRows_run m md st Hm).
  now destruct (_ || _).
Qed.

Lemma getField_run {A} m key (cast : any -> exn + A) side dp (st : St) :
  properties st !! m = Some dp ->
  getField m key cast side st
  = (logged [EvFindUnique m key] st,
     match assoc key dp with
     | None => Throw (NotFound (could_not_get key side))
     | Some v => match cast v with inl e => Throw e | inr a => Ok a end
     end).
Proof.
  intros H. unfold getField.
  step (findUnique_run m key dp st H).
  destruct (assoc key dp) as [v|] eqn:E.
  - destruct (find_index_assoc _ _ _ E) as (i & -> & Hi).
    assert (G : getValue m i (logged [EvFindUnique m key] st)
                = (logged [EvFindUnique m key] st, Ok v))
      by now apply (getValue_run m i key v dp).
    step G. now destruct (cast v).
  - apply find_index_None in E. now rewrite E.
Qed.

Lemma getField_ok {A} m key (cast : any -> exn + A) side dp v a (st : St) :
  properties st !! m = Some dp -> assoc key dp = Some v -> cast v = inr a ->
  getField m key cast side st = (logged [EvFindUnique m key] st, Ok a).
Proof. intros H E C. rewrite (getField_run _ _ _ _ dp) by easy. now rewrite E, C. Qed.

Lemma getField_missing {A} m key (cast : any -> exn + A) side dp (st : St) :
  properties st !! m = Some dp -> assoc key dp = None ->
  getField m key cast side st
  = (logged [EvFindUnique m key] st, Throw (NotFound (could_not_get key side))).
Proof. intros H E. rewrite (getField_run _ _ _ _ dp) by easy. now rewrite E. Qed.

Lemma getField_bad_cast {A} m key (cast : any -> exn + A) side dp v e (st : St) :
  properties st !! m = Some dp -> assoc key dp = Some v -> cast v = inl e ->
  getField m key cast side st = (logged [EvFindUnique m key] st, Throw e).
Proof. intros H E C. rewrite (getField_run _ _ _ _ dp) by easy. now rewrite E, C. Qed.

(** The identity block: its five outcomes. *)
Lemma checkSameId_chunk_missing key cm mm cdp (st : St) :
  properties st !! cm = Some cdp -> assoc key cdp = None ->
  checkSameId key cm mm st
  = (logged [EvFindUnique cm key] st, Throw (NotFound (could_not_get key "the Chunk"))).
Proof.
  intros H E. unfold checkSameId.
  now step (getField_missing cm key any_cast_int "the Chunk" cdp st H E).
Qed.

Lemma checkSameId_chunk_bad_cast key cm mm cdp v e (st : St) :
  properties st !! cm = Some cdp -> assoc key cdp = Some v ->
  any_cast_int v = inl e ->
  checkSameId key cm mm st = (logged [EvFindUnique cm key] st, Throw e).
Proof.
  intros H E C. unfold checkSameId.
  now step (getField_bad_cast cm key any_cast_int "the Chunk" cdp v e st H E C).
Qed.

Lemma checkSameId_master_missing key cm mm cdp mdp a (st : St) :
  properties st !! cm = Some cdp -> properties st !! mm = Some mdp ->
  assoc key cdp = Some (AnyInt a) -> assoc key mdp = None ->
  checkSameId key cm mm st
  = (logged [EvFindUnique cm key; EvFindUnique mm key] st,
     Throw (NotFound (could_not_get key "the Master Dark Current Chunk"))).
Proof.
  intros H H' E E'. unfold checkSameId.
  step (getField_ok cm key any_cast_int "the Chunk" cdp _ a st H E eq_refl).
  step (getField_missing mm key any_cast_int "the Master Dark Current Chunk" mdp
                         (logged [EvFindUnique cm key] st) H' E').
  now rewrite logged_logged.
Qed.

Lemma checkSameId_master_bad_cast key cm mm cdp mdp a w e (st : St) :
  properties st !! cm = Some cdp -> properties st !! mm = Some mdp ->
  assoc key cdp = Some (AnyInt a) -> assoc key mdp = Some w ->
  any_cast_int w = inl e ->
  checkSameId key cm mm st
  = (logged [EvFindUnique cm key; EvFindUnique mm key] st, Throw e).
Proof.
  intros H H' E E' C. unfold checkSameId.
  step (getField_ok cm key any_cast_int "the Chunk" cdp _ a st H E eq_refl).
  step (getField_bad_cast mm key any_cast_int "the Master Dark Current Chunk" mdp w e
                          (logged [EvFindUnique cm key] st) H' E' C).
  now rewrite logged_logged.
Qed.

Lemma checkSameId_both key cm mm cdp mdp a b (st : St) :
  properties st !! cm = Some cdp -> properties st !! mm = Some mdp ->
  assoc key cdp = Some (AnyInt a) -> assoc key mdp = Some (AnyInt b) ->
  checkSameId key cm mm st
  = (logged [EvFindUnique cm key; EvFindUnique mm key] st,
     if negb (a =? b) then Throw (RangeError not_same_pixels) else Ok tt).
Proof.
  intros H H' E E'. unfold checkSameId.
  step (getField_ok cm key any_cast_int "the Chunk" cdp _ a st H E eq_refl).
  step (getField_ok mm key any_cast_int "the Master Dark Current Chunk" mdp _ b
                    (logged [EvFindUnique cm key] st) H' E' eq_refl).
  rewrite logged_logged. now destruct (negb _).
Qed.

End Blocks.

(** ** Reading a successful run backwards *)

Lemma bind_inv_ok {S A B} (c : M S A) (k : A -> M S B) st st2 b :
  bind c k st = (st2, Ok b) ->
  exists st1 a, c st = (st1, Ok a) /\ k a st1 = (st2, Ok b).
Proof.
  unfold bind. destruct (c st) as [st1 [a|e]]; [|discriminate].
  intros H. now exists st1, a.
Qed.

Section Inversion.
Context {ImageT MaskT : Type} {ops : ImageOps ImageT MaskT}.

Local Abbreviation St := (state ImageT MaskT).

Lemma deref_image_inv h (st st1 : St) d :
  deref_image h st = (st1, Ok d) -> images st !! h = Some d /\ st1 = st.
Proof.
  unfold deref_image. destruct (images st !! h); [|discriminate].
  now intros [= <- <-].
Qed.

Lemma deref_properties_inv m (st st1 : St) dp :
  deref_properties m st = (st1, Ok dp) -> properties st !! m = Some dp /\ st1 = st.
Proof.
  unfold deref_properties. destruct (properties st !! m); [|discriminate].
  now intros [= <- <-].
Qed.

Lemma getMetadata_inv h (st st1 : St) cm :
  getMetadata h st = (st1, Ok cm) ->
  exists d, images st !! h = Some d /\ cm = mi_metadata d /\ st1 = st.
Proof.
  unfold getMetadata. intros H.
  apply bind_inv_ok in H as (st' & d & H & R).
  apply deref_image_inv in H as [H ->]. injection R as <- <-. now exists d.
Qed.

Lemma findUnique_inv m key (st st1 : St) r :
  findUnique m key st = (st1, Ok r) ->
  exists dp, properties st !! m = Some dp /\ r = find_index key dp
             /\ st1 = logged [EvFindUnique m key] st.
Proof.
  unfold findUnique. intros H.
  apply bind_inv_ok in H as (st' & [] & H & R). injection H as <-.
  apply bind_inv_ok in R as (st'' & dp & H & R).
  apply deref_properties_inv in H as [H ->]. injection R as <- <-.
  now exists dp.
Qed.

Lemma getValue_inv m i (st st1 : St) v :
  getValue m i st = (st1, Ok v) ->
  exists dp k, properties st !! m = Some dp /\ dp !! i = Some (k, v) /\ st1 = st.
Proof.
  unfold getValue. intros H.
  apply bind_inv_ok in H as (st' & dp & H & R).
  apply deref_properties_inv in H as [H ->].
  destruct (dp !! i) as [[k w]|] eqn:E; [|discriminate].
  injection R as <- <-. now exists dp, k.
Qed.

Lemma checkNotRunPreviously_inv cm (st st1 : St) u :
  checkNotRunPreviously cm st = (st1, Ok u) ->
  exists dp, properties st !! cm = Some dp /\ assoc "ISR_DARKCOR" dp = None
             /\ st1 = logged [EvFindUnique cm "ISR_DARKCOR"] st.
Proof.
  unfold checkNotRunPreviously. intros H.
  apply bind_inv_ok in H as (st' & r & H & R).
  apply findUnique_inv in H as (dp & H & -> & ->).
  destruct (find_index "ISR_DARKCOR" dp) eqn:E; [discriminate|].
  injection R as <-. exists dp. now rewrite <- find_index_None.
Qed.

Lemma getField_inv {A} m key (cast : any -> exn + A) side (st st1 : St) (a : A) :
  getField m key cast side st = (st1, Ok a) ->
  exists dp v, properties st !! m = Some dp /\ assoc key dp = Some v
               /\ cast v = inr a /\ st1 = logged [EvFindUnique m key] st.
Proof.
  intros R. destruct (properties st !! m) as [dp|] eqn:H.
  - rewrite (getField_run m key cast side dp st H) in R.
    destruct (assoc key dp) as [v|] eqn:E; [|discriminate].
    destruct (cast v) as [e|x] eqn:C; [discriminate|].
    injection R as <- <-. now exists dp, v.
  - unfold getField in R.
    now rewrite (bind_throw _ _ _ _ _ (findUnique_null m key st H)) in R.
Qed.

Lemma getExptime_inv m side (st st1 : St) x :
  getExptime m side st = (st1, Ok x) ->
  exists dp, properties st !! m = Some dp /\ assoc "EXPTIME" dp = Some (AnyFloat x)
             /\ st1 = logged [EvFindUnique m "EXPTIME"] st.
Proof.
  unfold getExptime. intros H.
  apply getField_inv in H as (dp & v & H & E & C & ->).
  exists dp. destruct v; try discriminate. now injection C as ->.
Qed.

Lemma checkSameId_inv key cm mm (st st1 : St) u :
  checkSameId key cm mm st = (st1, Ok u) ->
  exists cdp mdp a,
    properties st !! cm = Some cdp /\ properties st !! mm = Some mdp
    /\ assoc key cdp = Some (AnyInt a) /\ assoc key mdp = Some (AnyInt a)
    /\ st1 = logged [EvFindUnique cm key; EvFindUnique mm key] st.
Proof.
  unfold checkSameId. intros H.
  apply bind_inv_ok in H as (st' & a & H & R).
  apply getField_inv in H as (cdp & v & H & E & C & ->).
  apply bind_inv_ok in R as (st' & b & H' & R).
  apply getField_inv in H' as (mdp & w & H' & E' & C' & ->).
  destruct v; try discriminate. injection C as ->.
  destruct w; try discriminate. injection C' as ->.
  destruct (a =? b) eqn:Eab; [|discriminate].
  apply Z.eqb_eq in Eab as ->. injection R as <-.
  exists cdp, mdp, b. now rewrite logged_logged.
Qed.

End Inversion.

(** ** The validation, lines 64-170 *)

Section Validation.
Context {ImageT MaskT : Type} {ops : ImageOps ImageT MaskT}.

Local Abbreviation St := (state ImageT MaskT).

Variables (st : St) (chunkExposure masterChunkExposure : Exposure).
Variables (isrPolicy datasetPolicy : Policy).
Variables (cd md : MaskedImageData ImageT MaskT) (cdp : DataProperty).

Hypothesis Hcd : images st !! getMaskedImage chunkExposure = Some cd.
Hypothesis Hmd : images st !! getMaskedImage masterChunkExposure = Some md.
Hypothesis Hcdp : properties st !! mi_metadata cd = Some cdp.

Local Abbreviation c := (getMaskedImage chunkExposure).
Local Abbreviation m := (getMaskedImage masterChunkExposure).
Local Abbreviation cm := (mi_metadata cd).
Local Abbreviation mm := (mi_metadata md).
Local Abbreviation gate := (EvFindUnique (mi_metadata cd) "ISR_DARKCOR").

Lemma validate_already_run v :
  assoc "ISR_DARKCOR" cdp = Some v ->
  validate chunkExposure masterChunkExposure isrPolicy datasetPolicy st
  = (logged [gate] st, Throw (Runtime previously_performed)).
Proof.
  intros E. unfold validate.
  step (getMetadata_run c cd st Hcd). step (getMetadata_run m md st Hmd).
  pose proof (checkNotRunPreviously_run cm cdp st Hcdp) as R. rewrite E in R.
  now step R.
Qed.

Hypothesis Hgate : assoc "ISR_DARKCOR" cdp = None.

Lemma validate_size_mismatch :
  sizes_differ cd md = true ->
  validate chunkExposure masterChunkExposure isrPolicy datasetPolicy st
  = (logged [gate] st, Throw (LengthError not_same_size)).
Proof.
  intros E. unfold validate.
  step (getMetadata_run c cd st Hcd). step (getMetadata_run m md st Hmd).
  pose proof (checkNotRunPreviously_run cm cdp st Hcdp) as R. rewrite Hgate in R.
  step R.
  pose proof (checkSameSize_run c m cd md (logged [gate] st) Hcd Hmd) as R'.
  rewrite E in R'. now step R'.
Qed.

Hypothesis Hsize : sizes_differ cd md = false.

Lemma validate_no_darkPolicy :
  assoc "darkPolicy" (policy_policies isrPolicy) = None ->
  validate chunkExposure masterChunkExposure isrPolicy datasetPolicy st
  = (logged [gate; EvGetPolicy "darkPolicy"] st, Throw (PolicyNameNotFound "darkPolicy")).
Proof.
  intros E. unfold validate.
  step (getMetadata_run c cd st Hcd). step (getMetadata_run m md st Hmd).
  pose proof (checkNotRunPreviously_run cm cdp st Hcdp) as R. rewrite Hgate in R.
  step R.
  pose proof (checkSameSize_run c m cd md (logged [gate] st) Hcd Hmd) as R'.
  rewrite Hsize in R'. step R'.
  pose proof (getPolicy_run isrPolicy "darkPolicy" (logged [gate] st)) as P.
  rewrite E, logged_logged in P. now step P.
Qed.

Variables (darkPolicy : Policy) (chunkType : string).
Hypothesis Hpolicy : assoc "darkPolicy" (policy_policies isrPolicy) = Some darkPolicy.
Hypothesis Htype : assoc "chunkType" (policy_strings darkPolicy) = Some chunkType.

(** Past the two gates and the reading of the chunk type, the validation
    is the identity check followed by the reading of the scaling data. *)
Lemma validate_to_identity :
  validate chunkExposure masterChunkExposure isrPolicy datasetPolicy st
  = (checkSamePixels chunkType cm mm ;;;
     getScalingInformation darkPolicy c cm m mm)%cxx
      (logged [gate; EvGetPolicy "darkPolicy"; EvGetString "chunkType"] st).
Proof.
  unfold validate.
  step (getMetadata_run c cd st Hcd). step (getMetadata_run m md st Hmd).
  pose proof (checkNotRunPreviously_run cm cdp st Hcdp) as R. rewrite Hgate in R.
  step R.
  pose proof (checkSameSize_run c m cd md (logged [gate] st) Hcd Hmd) as R'.
  rewrite Hsize in R'. step R'.
  pose proof (getPolicy_run isrPolicy "darkPolicy" (logged [gate] st)) as P.
  rewrite Hpolicy, logged_logged in P. step P.
  pose proof (getString_run darkPolicy "chunkType"
                (logged ([gate] ++ [EvGetPolicy "darkPolicy"]) st)) as S.
  rewrite Htype, logged_logged in S. now step S.
Qed.

End Validation.

Section ValidationPasses.
Context {ImageT MaskT : Type} {ops : ImageOps ImageT MaskT}.

Local Abbreviation St := (state ImageT MaskT).

Lemma checkSamePixels_key chunkType cm mm :
  checkSamePixels (ImageT:=ImageT) (MaskT:=MaskT) chunkType cm mm
  = match identity_key chunkType with
    | Some key => checkSameId key cm mm
    | None => ret tt
    end.
Proof.
  unfold checkSamePixels, identity_key.
  destruct (String.eqb chunkType "amp"); [easy|].
  now destruct (String.eqb chunkType "ccd").
Qed.

Lemma checkSamePixels_pass chunkType cm mm cdp mdp (st : St) :
  properties st !! cm = Some cdp -> properties st !! mm = Some mdp ->
  identity_matches chunkType cdp mdp ->
  checkSamePixels chunkType cm mm st = (logged (identity_reads chunkType cm mm) st, Ok tt).
Proof.
  intros H H' I. rewrite checkSamePixels_key.
  unfold identity_matches, identity_reads in *.
  destruct (identity_key chunkType) as [key|].
  - destruct I as (a & E & E').
    rewrite (checkSameId_both key cm mm cdp mdp a a st H H' E E').
    now rewrite Z.eqb_refl.
  - now rewrite logged_nil.
Qed.

Lemma checkSamePixels_inv chunkType cm mm cdp mdp (st st1 : St) u :
  properties st !! cm = Some cdp -> properties st !! mm = Some mdp ->
  checkSamePixels chunkType cm mm st = (st1, Ok u) ->
  identity_matches chunkType cdp mdp /\ st1 = logged (identity_reads chunkType cm mm) st.
Proof.
  intros H H'. rewrite checkSamePixels_key.
  unfold identity_matches, identity_reads.
  destruct (identity_key chunkType) as [key|].
  - intros R. apply checkSameId_inv in R as (cdp' & mdp' & a & G & G' & E & E' & ->).
    rewrite H in G. rewrite H' in G'. injection G as <-. injection G' as <-.
    split; [now exists a|easy].
  - intros [= <-]. now rewrite logged_nil.
Qed.

Variables (st : St) (chunkExposure masterChunkExposure : Exposure).
Variables (isrPolicy datasetPolicy : Policy).

Local Abbreviation c := (getMaskedImage chunkExposure).
Local Abbreviation m := (getMaskedImage masterChunkExposure).

Lemma validate_ok cd md cdp mdp darkPolicy chunkType l :
  passes st chunkExposure masterChunkExposure isrPolicy cd md cdp mdp darkPolicy
         chunkType l ->
  validate chunkExposure masterChunkExposure isrPolicy datasetPolicy st
  = (logged (validation_log chunkType (mi_metadata cd) (mi_metadata md)) st, Ok l).
Proof.
  intros [[[Hcd Hmd Hcdp Hgate Hsize Hpol Htype] Hmdp Hid] He Hme Hds Hl].
  rewrite (validate_to_identity st chunkExposure masterChunkExposure isrPolicy
             datasetPolicy cd md cdp Hcd Hmd Hcdp Hgate Hsize darkPolicy chunkType
             Hpol Htype).
  set (st1 := logged _ st).
  step (checkSamePixels_pass chunkType (mi_metadata cd) (mi_metadata md) cdp mdp st1
          Hcdp Hmdp Hid).
  set (st2 := logged _ st1).
  unfold getScalingInformation, getExptime.
  step (getField_ok (mi_metadata cd) "EXPTIME" any_cast_float "Chunk" cdp _ _ st2
          Hcdp He eq_refl).
  set (st3 := logged _ st2).
  step (getField_ok (mi_metadata md) "EXPTIME" any_cast_float
          "Master Dark Current Chunk" mdp _ _ st3 Hmdp Hme eq_refl).
  set (st4 := logged _ st3).
  pose proof (getDouble_run darkPolicy "darkScale" st4) as D. rewrite Hds in D.
  step D. unfold ret. rewrite <- Hl. f_equal.
  subst st4 st3 st2 st1. rewrite !logged_logged. unfold validation_log.
  now rewrite <- ?app_assoc.
Qed.

Lemma validate_inv st1 l :
  validate chunkExposure masterChunkExposure isrPolicy datasetPolicy st = (st1, Ok l) ->
  exists cd md cdp mdp darkPolicy chunkType,
    passes st chunkExposure masterChunkExposure isrPolicy cd md cdp mdp darkPolicy
           chunkType l
    /\ st1 = logged (validation_log chunkType (mi_metadata cd) (mi_metadata md)) st.
Proof.
  intros V. pose proof V as V0. unfold validate in V.
  apply bind_inv_ok in V as (s & cm & G & V).
  apply getMetadata_inv in G as (cd & Hcd & -> & ->).
  apply bind_inv_ok in V as (s & mm & G & V).
  apply getMetadata_inv in G as (md & Hmd & -> & ->).
  apply bind_inv_ok in V as (s & u & G & V).
  apply checkNotRunPreviously_inv in G as (cdp & Hcdp & Hgate & ->).
  apply bind_inv_ok in V as (s & u' & G & V).
  match type of G with
  | checkSameSize _ _ ?s = _ => rewrite (checkSameSize_run c m cd md s Hcd Hmd) in G
  end.
  destruct (sizes_differ cd md) eqn:Hsize; [discriminate|]. injection G as <-.
  apply bind_inv_ok in V as (s & darkPolicy & G & V).
  rewrite getPolicy_run in G.
  destruct (assoc "darkPolicy" (policy_policies isrPolicy)) as [dp|] eqn:Hpol;
    [|discriminate].
  injection G as <- <-.
  apply bind_inv_ok in V as (s & chunkType & G & V).
  rewrite getString_run in G.
  destruct (assoc "chunkType" (policy_strings dp)) as [ct|] eqn:Htype; [|discriminate].
  injection G as <- <-.
  apply bind_inv_ok in V as (s & u'' & G & V).
  unfold getScalingInformation in V.
  apply bind_inv_ok in V as (s' & e & G' & V).
  apply getExptime_inv in G' as (cdp' & Hcdp' & He & ->).
  apply bind_inv_ok in V as (s' & me & G' & V).
  apply getExptime_inv in G' as (mdp & Hmdp & Hme & ->).
  assert (Hmdp0 : properties st !! mi_metadata md = Some mdp).
  { clear - G Hmdp. rewrite checkSamePixels_key in G.
    destruct (identity_key ct).
    - apply checkSameId_inv in G as (? & ? & ? & _ & _ & _ & _ & ->). exact Hmdp.
    - injection G as <-. exact Hmdp. }
  apply (checkSamePixels_inv ct _ _ cdp mdp) in G as [Hid ->]; [|exact Hcdp|exact Hmdp0].
  apply bind_inv_ok in V as (s' & ds & G' & V).
  rewrite getDouble_run in G'.
  destruct (assoc "darkScale" (policy_doubles dp)) as [d|] eqn:Hds; [|discriminate].
  injection G' as <- <-. injection V as <- <-.
  exists cd, md, cdp, mdp, dp, ct.
  assert (P : passes st chunkExposure masterChunkExposure isrPolicy cd md cdp mdp dp ct
                (mkLocals c (mi_metadata cd) m (mi_metadata md) e me d)).
  { repeat split; try easy.
    simpl in Hcdp'. rewrite Hcdp in Hcdp'. now injection Hcdp' as <-. }
  split; [exact P|].
  rewrite !logged_logged. unfold validation_log. now rewrite <- ?app_assoc.
Qed.

End ValidationPasses.

(** ** Scaling, subtraction and provenance, lines 172-197 *)

Section Mutation.
Context {ImageT MaskT : Type} {ops : ImageOps ImageT MaskT}.

Local Abbreviation St := (state ImageT MaskT).
Local Abbreviation Cell := (MaskedImageData ImageT MaskT).

Lemma scaled_master_image e me ds (md : Cell) :
  mi_image (scaled_master e me ds md) = map (scaled_reference e me ds) (mi_image md).
Proof.
  unfold scaled_master, scaled_reference.
  destruct (float_ne e me), (double_to_bool ds); simpl;
    rewrite ?map_map, ?map_id; reflexivity.
Qed.

Lemma scaled_master_metadata e me ds (md : Cell) :
  mi_metadata (scaled_master e me ds md) = mi_metadata md.
Proof. unfold scaled_master. now destruct (float_ne e me), (double_to_bool ds). Qed.

Lemma scaled_master_size e me ds (md : Cell) :
  mi_cols (scaled_master e me ds md) = mi_cols md
  /\ mi_rows (scaled_master e me ds md) = mi_rows md.
Proof. unfold scaled_master. now destruct (float_ne e me), (double_to_bool ds). Qed.

(** Lines 174-177: the time scaling of the master, when it applies. *)
Lemma time_scaling_run (l : locals) (md : Cell) (st : St) :
  images st !! masterChunkMaskedImage l = Some md ->
  (if float_ne (exptime l) (mexptime l)
   then q <- divide (exptime l) (mexptime l) ;;
        let scale := float_to_double q in
        operator_mul_assign (masterChunkMaskedImage l) scale
   else ret tt)%cxx st
  = (mkState (<[masterChunkMaskedImage l :=
                 if float_ne (exptime l) (mexptime l)
                 then scale_data (timeScale (exptime l) (mexptime l)) md else md]>
                (images st))
             (properties st)
             (log st ++ if float_ne (exptime l) (mexptime l)
                        then [EvDivide (exptime l) (mexptime l);
                              EvScale (masterChunkMaskedImage l)
                                      (timeScale (exptime l) (mexptime l))]
                        else []),
     Ok tt).
Proof.
  intros Hmd. destruct (float_ne (exptime l) (mexptime l)).
  - step (divide_run (exptime l) (mexptime l) st).
    rewrite (operator_mul_assign_run _ _ md) by exact Hmd.
    unfold with_image, logged, timeScale. simpl. now rewrite <- app_assoc.
  - unfold ret. rewrite insert_id by exact Hmd. rewrite app_nil_r. now destruct st.
Qed.

(** Lines 174-189.  When the two exposures are one object the chunk that
    is decreased is the scaled one. *)
Lemma scaleAndSubtract_run (l : locals) (cd md : Cell) (st : St) :
  images st !! chunkMaskedImage l = Some cd ->
  images st !! masterChunkMaskedImage l = Some md ->
  let md' := scaled_master (exptime l) (mexptime l) (darkScale l) md in
  let cd' := if decide (chunkMaskedImage l = masterChunkMaskedImage l) then md' else cd in
  scaleAndSubtract l st
  = (mkState (<[chunkMaskedImage l := subtract_data cd' md']>
                (<[masterChunkMaskedImage l := md']> (images st)))
             (properties st) (log st ++ scaling_log l),
     Ok tt).
Proof.
  intros Hcd Hmd md' cd'. unfold scaleAndSubtract.
  step (time_scaling_run l md st Hmd).
  set (md1 := if float_ne (exptime l) (mexptime l)
              then scale_data (timeScale (exptime l) (mexptime l)) md else md).
  set (st1 := mkState _ _ _).
  assert (H1 : images st1 !! masterChunkMaskedImage l = Some md1)
    by apply lookup_insert_eq.
  assert (Hmd' : md' = if double_to_bool (darkScale l)
                       then scale_data (darkScale l) md1 else md1) by reflexivity.
  assert (Hc : forall imgs : gmap loc Cell,
             imgs !! chunkMaskedImage l = Some cd ->
             <[masterChunkMaskedImage l := md']> imgs !! chunkMaskedImage l = Some cd').
  { intros imgs Hi. subst cd'. destruct (decide _) as [->|Hne].
    - apply lookup_insert_eq.
    - now rewrite lookup_insert_ne. }
  unfold scaling_log. destruct (double_to_bool (darkScale l)).
  - step (operator_mul_assign_run (masterChunkMaskedImage l) (darkScale l) md1 st1 H1).
    rewrite (operator_sub_assign_run _ _ cd' md').
    + unfold with_image, logged, st1. simpl. rewrite insert_insert_eq, <- Hmd'.
      now rewrite <- ?app_assoc.
    + unfold with_image, logged, st1. simpl. rewrite insert_insert_eq, <- Hmd'.
      now apply Hc.
    + unfold with_image, logged. simpl. rewrite <- Hmd'. apply lookup_insert_eq.
  - rewrite (operator_sub_assign_run _ _ cd' md').
    + unfold with_image, logged, st1. simpl. rewrite <- Hmd'.
      now rewrite <- ?app_assoc.
    + unfold st1. simpl. rewrite <- Hmd'. now apply Hc.
    + now rewrite Hmd'.
Qed.

Lemma find_index_new key (dp : DataProperty) v :
  assoc key dp = None -> find_index key (dp ++ [(key, v)]) = Some (length dp).
Proof.
  induction dp as [|[k w] dp IH]; simpl.
  - now rewrite String.eqb_refl.
  - destruct (String.eqb k key); [discriminate|].
    intros H. now rewrite (IH H).
Qed.

Lemma insert_last {A} (xs : list A) (x y : A) :
  <[length xs := y]> (xs ++ [x]) = xs ++ [y].
Proof.
  rewrite insert_app_r_alt by lia. now rewrite Nat.sub_diag.
Qed.

(** Lines 192-197. *)
Lemma recordProvenance_run (l : locals) (cd : Cell) (cdp : DataProperty) (st : St) :
  images st !! chunkMaskedImage l = Some cd ->
  properties st !! chunkMetadata l = Some cdp ->
  assoc "ISR_DARKCOR" cdp = None ->
  recordProvenance l st
  = (mkState (<[chunkMaskedImage l := with_metadata (chunkMetadata l) cd]> (images st))
             (<[chunkMetadata l := cdp ++ [("ISR_DARKCOR", success_marker)]]>
                (properties st))
             (log st ++ provenance_log (chunkMaskedImage l) (chunkMetadata l) (length cdp)),
     Ok tt).
Proof.
  intros Hcd Hcdp Hgate. unfold recordProvenance.
  step (addProperty_run (chunkMetadata l) "ISR_DARKCOR" cdp st Hcdp).
  set (st1 := with_properties _ _ _).
  assert (H1 : properties st1 !! chunkMetadata l = Some (cdp ++ [("ISR_DARKCOR", AnyEmpty)]))
    by apply lookup_insert_eq.
  step (findUnique_run (chunkMetadata l) "ISR_DARKCOR" _ st1 H1).
  rewrite (find_index_new _ _ _ Hgate).
  set (st2 := logged _ st1).
  assert (S : setValue (chunkMetadata l) (length cdp) success_marker st2
              = (with_properties (chunkMetadata l)
                   (<[length cdp := ("ISR_DARKCOR", success_marker)]>
                      (cdp ++ [("ISR_DARKCOR", AnyEmpty)]))
                   (logged [EvSetValue (chunkMetadata l) (length cdp) success_marker] st2),
                 Ok tt)).
  { apply (setValue_run _ _ "ISR_DARKCOR" AnyEmpty); [exact H1|].
    apply list_lookup_middle. reflexivity. }
  step S.
  rewrite (setMetadata_run _ _ cd) by exact Hcd.
  unfold with_image, with_properties, logged, st2, st1, provenance_log. simpl.
  rewrite insert_insert_eq, insert_last. now rewrite <- ?app_assoc.
Qed.

End Mutation.

(** ** The validation only reads *)

Section ReadOnly.
Context {ImageT MaskT : Type} {ops : ImageOps ImageT MaskT}.

Local Abbreviation St := (state ImageT MaskT).
Local Abbreviation Cxx := (M St).

Lemma reads_ret {A} (a : A) : reads (ret a : Cxx A).
Proof. intros st. exists []. now rewrite logged_nil. Qed.

Lemma reads_throw {A} e : reads (throw e : Cxx A).
Proof. intros st. exists []. now rewrite logged_nil. Qed.

Lemma reads_lift {A} (r : exn + A) : reads (lift r : Cxx A).
Proof. destruct r; [apply reads_throw|apply reads_ret]. Qed.

Lemma reads_emit e : is_read e -> reads (emit e : Cxx unit).
Proof. intros H st. exists [e]. split; [reflexivity|]. now constructor. Qed.

Lemma reads_bind {A B} (c : Cxx A) (k : A -> Cxx B) :
  reads c -> (forall a, reads (k a)) -> reads (bind c k).
Proof.
  intros Hc Hk st. destruct (Hc st) as (evs & E & F). unfold bind.
  destruct (c st) as [st1 [a|e]]; simpl in E; subst st1.
  - destruct (Hk a (logged evs st)) as (evs' & E' & F').
    exists (evs ++ evs'). rewrite E', logged_logged. split; [easy|].
    now apply Forall_app.
  - now exists evs.
Qed.

Lemma reads_deref_image h : reads (deref_image h : Cxx _).
Proof.
  intros st. exists []. rewrite logged_nil. unfold deref_image.
  now destruct (images st !! h).
Qed.

Lemma reads_deref_properties m : reads (deref_properties m : Cxx _).
Proof.
  intros st. exists []. rewrite logged_nil. unfold deref_properties.
  now destruct (properties st !! m).
Qed.

Create HintDb reads discriminated.
#[local] Hint Resolve reads_ret reads_throw reads_lift reads_deref_image
     reads_deref_properties : reads.

Ltac reads_auto :=
  repeat first
    [ solve [auto with reads]
    | progress cbv zeta
    | apply reads_emit; exact I
    | apply reads_bind; [|intros ?]
    | match goal with |- reads (match ?x with _ => _ end) => destruct x end
    | match goal with |- reads (if ?x then _ else _) => destruct x end ].

Lemma reads_getMetadata h : reads (getMetadata h : Cxx _).
Proof. unfold getMetadata. reads_auto. Qed.

Lemma reads_getCols h : reads (getCols h : Cxx _).
Proof. unfold getCols. reads_auto. Qed.

Lemma reads_getRows h : reads (getRows h : Cxx _).
Proof. unfold getRows. reads_auto. Qed.

Lemma reads_findUnique m key : reads (findUnique m key : Cxx _).
Proof. unfold findUnique. reads_auto. Qed.

Lemma reads_getValue m i : reads (getValue m i : Cxx _).
Proof. unfold getValue. reads_auto. Qed.

#[local] Hint Resolve reads_getMetadata reads_getCols reads_getRows reads_findUnique
     reads_getValue : reads.

Lemma reads_getField {A} m key (cast : any -> exn + A) side :
  reads (getField m key cast side : Cxx _).
Proof. unfold getField. reads_auto. Qed.

Lemma reads_getPolicy p key : reads (getPolicy p key : Cxx _).
Proof. unfold getPolicy. reads_auto. Qed.

Lemma reads_getString p key : reads (getString p key : Cxx _).
Proof. unfold getString. reads_auto. Qed.

Lemma reads_getDouble p key : reads (getDouble p key : Cxx _).
Proof. unfold getDouble. reads_auto. Qed.

#[local] Hint Resolve reads_getField reads_getPolicy reads_getString reads_getDouble : reads.

Lemma reads_checkNotRunPreviously cm : reads (checkNotRunPreviously cm : Cxx _).
Proof. unfold checkNotRunPreviously. reads_auto. Qed.

Lemma reads_checkSameSize c m : reads (checkSameSize c m : Cxx _).
Proof. unfold checkSameSize. cbv zeta. reads_auto. Qed.

Lemma reads_checkSameId key cm mm : reads (checkSameId key cm mm : Cxx _).
Proof. unfold checkSameId. reads_auto. Qed.

#[local] Hint Resolve reads_checkNotRunPreviously reads_checkSameSize reads_checkSameId : reads.

Lemma reads_checkSamePixels chunkType cm mm :
  reads (checkSamePixels chunkType cm mm : Cxx _).
Proof. unfold checkSamePixels. reads_auto. Qed.

Lemma reads_getExptime m side : reads (getExptime m side : Cxx _).
Proof. unfold getExptime. reads_auto. Qed.

#[local] Hint Resolve reads_checkSamePixels reads_getExptime : reads.

Lemma reads_validate chunkExposure masterChunkExposure isrPolicy datasetPolicy :
  reads (validate chunkExposure masterChunkExposure isrPolicy datasetPolicy : Cxx _).
Proof. unfold validate. cbv zeta. reads_auto. Qed.

End ReadOnly.

(** ** The whole function *)

Section Whole.
Context {ImageT MaskT : Type} {ops : ImageOps ImageT MaskT}.

Local Abbreviation St := (state ImageT MaskT).
Local Abbreviation Cell := (MaskedImageData ImageT MaskT).

Variables (st : St) (chunkExposure masterChunkExposure : Exposure).
Variables (isrPolicy datasetPolicy : Policy).

Local Abbreviation run :=
  (darkCurrentCorrectChunkExposure chunkExposure masterChunkExposure
                                   isrPolicy datasetPolicy st).

Lemma with_metadata_id (d : Cell) : with_metadata (mi_metadata d) d = d.
Proof. now destruct d. Qed.

(** A store and a configuration that pass the validation are corrected. *)
Lemma correct_run cd md cdp mdp darkPolicy chunkType l :
  passes st chunkExposure masterChunkExposure isrPolicy cd md cdp mdp darkPolicy
         chunkType l ->
  run = (corrected_store st l cd md cdp chunkType, Ok tt).
Proof.
  intros P. pose proof (validate_ok st _ _ _ datasetPolicy _ _ _ _ _ _ _ P) as V.
  destruct P as [[[Hcd Hmd Hcdp Hgate Hsize Hpol Htype] Hmdp Hid] He Hme Hds Hl].
  unfold darkCurrentCorrectChunkExposure. step V.
  assert (Lc : chunkMaskedImage l = getMaskedImage chunkExposure) by now rewrite Hl.
  assert (Lm : masterChunkMaskedImage l = getMaskedImage masterChunkExposure)
    by now rewrite Hl.
  assert (Lcm : chunkMetadata l = mi_metadata cd) by now rewrite Hl.
  assert (Lmm : masterChunkMetadata l = mi_metadata md) by now rewrite Hl.
  set (st1 := logged _ st).
  assert (Hcd1 : images st1 !! chunkMaskedImage l = Some cd) by now rewrite Lc.
  assert (Hmd1 : images st1 !! masterChunkMaskedImage l = Some md) by now rewrite Lm.
  step (scaleAndSubtract_run l cd md st1 Hcd1 Hmd1).
  set (md' := scaled_master _ _ _ md).
  set (cd' := if decide _ then md' else cd).
  set (st2 := mkState _ _ _).
  assert (Hmeta : mi_metadata cd' = chunkMetadata l).
  { subst cd'. destruct (decide _) as [E|_]; [|easy].
    rewrite E, Hmd1 in Hcd1. injection Hcd1 as <-.
    subst md'. now rewrite scaled_master_metadata. }
  assert (Hcd2 : images st2 !! chunkMaskedImage l = Some (subtract_data cd' md'))
    by apply lookup_insert_eq.
  assert (Hcdp2 : properties st2 !! chunkMetadata l = Some cdp)
    by (rewrite Lcm; exact Hcdp).
  rewrite (recordProvenance_run l _ cdp st2 Hcd2 Hcdp2 Hgate).
  unfold corrected_store. fold md'. fold cd'. f_equal.
  unfold st2, st1, logged. simpl. rewrite insert_insert_eq.
  replace (with_metadata (chunkMetadata l) (subtract_data cd' md'))
    with (subtract_data cd' md')
    by (rewrite <- Hmeta; symmetry; apply (with_metadata_id (subtract_data cd' md'))).
  rewrite Lcm, Lmm. f_equal. unfold validation_log.
  repeat (rewrite <- ?app_assoc; simpl). reflexivity.
Qed.

(** Every run either passes the validation and ends corrected, or throws
    out of the validation and has only read. *)
Lemma correct_cases :
  (exists cd md cdp mdp darkPolicy chunkType l,
      passes st chunkExposure masterChunkExposure isrPolicy cd md cdp mdp darkPolicy
             chunkType l
      /\ run = (corrected_store st l cd md cdp chunkType, Ok tt))
  \/ (exists evs e,
         run = (logged evs st, Throw e) /\ Forall is_read evs
         /\ validate chunkExposure masterChunkExposure isrPolicy datasetPolicy st
            = (logged evs st, Throw e)).
Proof.
  destruct (reads_validate chunkExposure masterChunkExposure isrPolicy datasetPolicy st)
    as (evs & E & F).
  destruct (validate chunkExposure masterChunkExposure isrPolicy datasetPolicy st)
    as [st1 [l|e]] eqn:V; simpl in E; subst st1.
  - left. apply validate_inv in V as (cd & md & cdp & mdp & dp & ct & P & _).
    exists cd, md, cdp, mdp, dp, ct, l. split; [exact P|]. now apply (correct_run _ _ _ mdp dp).
  - right. exists evs, e. split; [|easy].
    unfold darkCurrentCorrectChunkExposure. now step V.
Qed.

Lemma correct_inv st' u :
  run = (st', Ok u) ->
  exists cd md cdp mdp darkPolicy chunkType l,
    passes st chunkExposure masterChunkExposure isrPolicy cd md cdp mdp darkPolicy
           chunkType l
    /\ st' = corrected_store st l cd md cdp chunkType.
Proof.
  intros R. destruct correct_cases as [(cd & md & cdp & mdp & dp & ct & l & P & R')
                                      |(evs & e & R' & _)];
    rewrite R in R'; [|discriminate].
  injection R' as ->. now exists cd, md, cdp, mdp, dp, ct, l.
Qed.

(** A run that throws has written nothing. *)
Lemma failure_reads st' e :
  run = (st', Throw e) -> exists evs, st' = logged evs st /\ Forall is_read evs.
Proof.
  intros R. destruct correct_cases as [(cd & md & cdp & mdp & dp & ct & l & P & R')
                                      |(evs & e' & R' & F & _)];
    rewrite R in R'; [discriminate|].
  injection R' as -> ->. now exists evs.
Qed.

End Whole.

(** ** Past the two gates *)

Lemma bind_assoc {S A B C} (c : M S A) (k : A -> M S B) (k' : B -> M S C) st :
  bind (bind c k) k' st = bind c (fun a => bind (k a) k') st.
Proof. unfold bind. now destruct (c st) as [st1 [a|e]]. Qed.

Section PastTheGates.
Context {ImageT MaskT : Type} {ops : ImageOps ImageT MaskT}.

Local Abbreviation St := (state ImageT MaskT).
Local Abbreviation Cell := (MaskedImageData ImageT MaskT).

(** The exposure times and the scale, lines 150-170: every outcome. *)
Lemma getScalingInformation_run darkPolicy c cm m mm cdp mdp (st : St) :
  properties st !! cm = Some cdp -> properties st !! mm = Some mdp ->
  getScalingInformation darkPolicy c cm m mm st
  = match assoc "EXPTIME" cdp with
    | None => (logged [EvFindUnique cm "EXPTIME"] st,
               Throw (NotFound (could_not_get "EXPTIME" "Chunk")))
    | Some v =>
        match any_cast_float v with
        | inl e => (logged [EvFindUnique cm "EXPTIME"] st, Throw e)
        | inr exptime =>
            match assoc "EXPTIME" mdp with
            | None => (logged [EvFindUnique cm "EXPTIME"; EvFindUnique mm "EXPTIME"] st,
                       Throw (NotFound (could_not_get "EXPTIME"
                                                      "Master Dark Current Chunk")))
            | Some w =>
                match any_cast_float w with
                | inl e => (logged [EvFindUnique cm "EXPTIME"; EvFindUnique mm "EXPTIME"] st,
                            Throw e)
                | inr mexptime =>
                    (logged [EvFindUnique cm "EXPTIME"; EvFindUnique mm "EXPTIME";
                             EvGetDouble "darkScale"] st,
                     match assoc "darkScale" (policy_doubles darkPolicy) with
                     | None => Throw (PolicyNameNotFound "darkScale")
                     | Some darkScale =>
                         Ok (mkLocals c cm m mm exptime mexptime darkScale)
                     end)
                end
            end
        end
    end.
Proof.
  intros H H'. unfold getScalingInformation, getExptime.
  pose proof (getField_run cm "EXPTIME" any_cast_float "Chunk" cdp st H) as G.
  destruct (assoc "EXPTIME" cdp) as [v|]; [|now step G].
  destruct (any_cast_float v) as [e|x]; [now step G|]. step G.
  pose proof (getField_run mm "EXPTIME" any_cast_float "Master Dark Current Chunk" mdp
                (logged [EvFindUnique cm "EXPTIME"] st) H') as G'.
  rewrite logged_logged in G'. simpl in G'.
  destruct (assoc "EXPTIME" mdp) as [w|]; [|now step G'].
  destruct (any_cast_float w) as [e|y]; [now step G'|]. step G'.
  pose proof (getDouble_run darkPolicy "darkScale"
                (logged [EvFindUnique cm "EXPTIME"; EvFindUnique mm "EXPTIME"] st)) as D.
  rewrite logged_logged in D. simpl in D.
  destruct (assoc "darkScale" (policy_doubles darkPolicy)); now step D.
Qed.

(** The identity block, lines 106-124 and 126-144: every outcome. *)
Lemma checkSameId_run key cm mm cdp mdp (st : St) :
  properties st !! cm = Some cdp -> properties st !! mm = Some mdp ->
  checkSameId key cm mm st
  = match assoc key cdp with
    | None => (logged [EvFindUnique cm key] st,
               Throw (NotFound (could_not_get key "the Chunk")))
    | Some v =>
        match any_cast_int v with
        | inl e => (logged [EvFindUnique cm key] st, Throw e)
        | inr id =>
            (logged [EvFindUnique cm key; EvFindUnique mm key] st,
             match assoc key mdp with
             | None => Throw (NotFound (could_not_get key "the Master Dark Current Chunk"))
             | Some w =>
                 match any_cast_int w with
                 | inl e => Throw e
                 | inr mid => if negb (id =? mid) then Throw (RangeError not_same_pixels)
                              else Ok tt
                 end
             end)
        end
    end.
Proof.
  intros H H'.
  destruct (assoc key cdp) as [v|] eqn:E;
    [|now apply (checkSameId_chunk_missing key cm mm cdp)].
  destruct v; try (now apply (checkSameId_chunk_bad_cast key cm mm cdp _ _ st H E)).
  simpl. destruct (assoc key mdp) as [w|] eqn:E';
    [|exact (checkSameId_master_missing key cm mm cdp mdp i st H H' E E')].
  destruct w;
    try (now apply (checkSameId_master_bad_cast key cm mm cdp mdp i _ _ st H H' E E')).
  simpl. exact (checkSameId_both key cm mm cdp mdp i i0 st H H' E E').
Qed.

Variables (st : St) (chunkExposure masterChunkExposure : Exposure).
Variables (isrPolicy datasetPolicy : Policy).
Variables (cd md : Cell) (cdp : DataProperty) (darkPolicy : Policy) (chunkType : string).

Hypothesis R : reaches_identity st chunkExposure masterChunkExposure isrPolicy
                                cd md cdp darkPolicy chunkType.

Local Abbreviation c := (getMaskedImage chunkExposure).
Local Abbreviation m := (getMaskedImage masterChunkExposure).
Local Abbreviation cm := (mi_metadata cd).
Local Abbreviation mm := (mi_metadata md).

(** From line 105 on, the function is the identity check, the reading of
    the scaling data and the two blocks that write, run in a store that
    differs from the initial one by three entries of the log. *)
Lemma run_from_identity :
  darkCurrentCorrectChunkExposure chunkExposure masterChunkExposure
                                  isrPolicy datasetPolicy st
  = (checkSamePixels chunkType cm mm ;;;
     l <- getScalingInformation darkPolicy c cm m mm ;;
     scaleAndSubtract l ;;;
     recordProvenance l)%cxx
      (logged [EvFindUnique cm "ISR_DARKCOR"; EvGetPolicy "darkPolicy";
               EvGetString "chunkType"] st).
Proof.
  destruct R as [Hcd Hmd Hcdp Hgate Hsize Hpol Htype].
  unfold darkCurrentCorrectChunkExposure.
  rewrite <- bind_assoc. unfold bind at 1 3.
  now rewrite (validate_to_identity st chunkExposure masterChunkExposure isrPolicy
                 datasetPolicy cd md cdp Hcd Hmd Hcdp Hgate Hsize darkPolicy chunkType
                 Hpol Htype).
Qed.

(** From line 150 on, once the identity check has passed. *)
Lemma run_from_scaling mdp :
  properties st !! mm = Some mdp ->
  identity_matches chunkType cdp mdp ->
  darkCurrentCorrectChunkExposure chunkExposure masterChunkExposure
                                  isrPolicy datasetPolicy st
  = (l <- getScalingInformation darkPolicy c cm m mm ;;
     scaleAndSubtract l ;;;
     recordProvenance l)%cxx
      (logged ([EvFindUnique cm "ISR_DARKCOR"; EvGetPolicy "darkPolicy";
                EvGetString "chunkType"] ++ identity_reads chunkType cm mm) st).
Proof.
  intros Hmdp Hid. rewrite run_from_identity.
  destruct R as [Hcd Hmd Hcdp Hgate Hsize Hpol Htype].
  set (st1 := logged _ st).
  step (checkSamePixels_pass chunkType cm mm cdp mdp st1 Hcdp Hmdp Hid).
  subst st1. now rewrite logged_logged.
Qed.

End PastTheGates.

(** ** The corrected store *)

Section Corrected.
Context {ImageT MaskT : Type} {ops : ImageOps ImageT MaskT}.

Local Abbreviation St := (state ImageT MaskT).
Local Abbreviation Cell := (MaskedImageData ImageT MaskT).

Variables (st : St) (chunkExposure masterChunkExposure : Exposure).
Variables (isrPolicy : Policy).
Variables (cd md : Cell) (cdp mdp : DataProperty) (darkPolicy : Policy).
Variables (chunkType : string) (l : locals).

Hypothesis P : passes st chunkExposure masterChunkExposure isrPolicy cd md cdp mdp
                      darkPolicy chunkType l.

Local Abbreviation st' := (corrected_store st l cd md cdp chunkType).
Local Abbreviation md' := (scaled_master (exptime l) (mexptime l) (darkScale l) md).

Lemma passes_handles :
  chunkMaskedImage l = getMaskedImage chunkExposure
  /\ masterChunkMaskedImage l = getMaskedImage masterChunkExposure
  /\ chunkMetadata l = mi_metadata cd
  /\ masterChunkMetadata l = mi_metadata md.
Proof. destruct P as [_ _ _ _ ->]. now simpl. Qed.

Lemma corrected_chunk :
  exists cd', images st' !! getMaskedImage chunkExposure = Some cd'
              /\ mi_metadata cd' = mi_metadata cd
              /\ mi_cols cd' = mi_cols cd /\ mi_rows cd' = mi_rows cd
              /\ (getMaskedImage chunkExposure <> getMaskedImage masterChunkExposure ->
                  cd' = subtract_data cd md').
Proof.
  destruct passes_handles as (Lc & Lm & Lcm & Lmm).
  destruct P as [[[Hcd Hmd _ _ _ _ _] _ _] _ _ _ _].
  unfold corrected_store. rewrite Lc, Lm. simpl.
  eexists. split; [apply lookup_insert_eq|].
  destruct (decide _) as [E|N]; simpl.
  - rewrite E, Hmd in Hcd. injection Hcd as <-.
    rewrite scaled_master_metadata.
    destruct (scaled_master_size (exptime l) (mexptime l) (darkScale l) md) as [-> ->].
    repeat split. intros N. now destruct N.
  - now repeat split.
Qed.

Lemma corrected_properties :
  properties st' = <[mi_metadata cd := cdp ++ [("ISR_DARKCOR", success_marker)]]>
                     (properties st).
Proof.
  destruct passes_handles as (_ & _ & Lcm & _). unfold corrected_store. simpl.
  now rewrite Lcm.
Qed.

Lemma corrected_metadata :
  metadata_of st' chunkExposure = Some (cdp ++ [("ISR_DARKCOR", success_marker)]).
Proof.
  destruct corrected_chunk as (cd' & H & M & _). unfold metadata_of.
  rewrite H, M, corrected_properties. apply lookup_insert_eq.
Qed.

Lemma assoc_app_new {V} key (xs : list (string * V)) v :
  assoc key xs = None -> assoc key (xs ++ [(key, v)]) = Some v.
Proof.
  induction xs as [|[k w] xs IH]; simpl.
  - now rewrite String.eqb_refl.
  - now destruct (String.eqb k key).
Qed.

Lemma corrected_marker :
  lookup_property st' chunkExposure "ISR_DARKCOR" = Some success_marker.
Proof.
  unfold lookup_property. rewrite corrected_metadata.
  apply assoc_app_new. now destruct P as [[[_ _ _ ? _ _ _] _ _] _ _ _ _].
Qed.

Lemma corrected_master :
  getMaskedImage chunkExposure <> getMaskedImage masterChunkExposure ->
  images st' !! getMaskedImage masterChunkExposure = Some md'.
Proof.
  intros N. destruct passes_handles as (Lc & Lm & _).
  unfold corrected_store. rewrite Lc, Lm. simpl.
  rewrite lookup_insert_ne by exact N. apply lookup_insert_eq.
Qed.

Lemma corrected_others h :
  h <> getMaskedImage chunkExposure -> h <> getMaskedImage masterChunkExposure ->
  images st' !! h = images st !! h.
Proof.
  intros N N'. destruct passes_handles as (Lc & Lm & _).
  unfold corrected_store. rewrite Lc, Lm. simpl.
  rewrite lookup_insert_ne by congruence. now rewrite lookup_insert_ne by congruence.
Qed.

Lemma corrected_log :
  log st' = log st ++ validation_log chunkType (mi_metadata cd) (mi_metadata md)
                ++ scaling_log l
                ++ provenance_log (getMaskedImage chunkExposure) (mi_metadata cd)
                                  (length cdp).
Proof.
  destruct passes_handles as (Lc & Lm & Lcm & Lmm). unfold corrected_store. simpl.
  now rewrite Lc, Lcm, Lmm.
Qed.

End Corrected.

(** * The claims of the specification *)

(** ** Idempotency gate *)

Lemma already_corrected_marker {ImageT MaskT : Type} {ops : ImageOps ImageT MaskT}
      (st : state ImageT MaskT) (chunkExposure : Exposure) :
  already_corrected st chunkExposure ->
  exists v, lookup_property st chunkExposure "ISR_DARKCOR" = Some v.
Proof.
  intros [v H|st0 master isr ds R]; [now exists v|].
  apply correct_inv in R as (cd & md & cdp & mdp & dp & ct & l & P & ->).
  exists success_marker. exact (corrected_marker _ _ master isr _ _ _ mdp dp ct l P).
Qed.

(** C2: a chunk whose metadata already holds [ISR_DARKCOR] is rejected at
    once with the [Runtime] exception (the AlreadyCorrected kind): the only
    call made is the look-up of the key, and the images and the metadata of
    the store, the pixels of the chunk among them, are left as they were.
    A chunk that has just been corrected is such a chunk, so that a second
    correction of it is rejected and leaves its pixels as the first one left
    them. *)
Theorem already_corrected_is_rejected
        {ImageT MaskT : Type} {ops : ImageOps ImageT MaskT}
        (st : state ImageT MaskT) (chunkExposure masterChunkExposure : Exposure)
        (isrPolicy datasetPolicy : Policy) (md : MaskedImageData ImageT MaskT) :
  already_corrected st chunkExposure ->
  images st !! getMaskedImage masterChunkExposure = Some md ->
  exists st',
    darkCurrentCorrectChunkExposure chunkExposure masterChunkExposure
                                    isrPolicy datasetPolicy st
    = (st', Throw (Runtime previously_performed))
    /\ error_kind (Runtime previously_performed) = Some AlreadyCorrected
    /\ images st' = images st /\ properties st' = properties st
    /\ pixels_of st' chunkExposure = pixels_of st chunkExposure
    /\ exists cm, log st' = log st ++ [EvFindUnique cm "ISR_DARKCOR"].
Proof.
  intros A Hmd. apply already_corrected_marker in A as (v & L).
  unfold lookup_property, metadata_of in L.
  destruct (images st !! getMaskedImage chunkExposure) as [cd|] eqn:Hcd; [|discriminate].
  destruct (properties st !! mi_metadata cd) as [cdp|] eqn:Hcdp; [|discriminate].
  exists (logged [EvFindUnique (mi_metadata cd) "ISR_DARKCOR"] st).
  split.
  - unfold darkCurrentCorrectChunkExposure.
    now step (validate_already_run st chunkExposure masterChunkExposure isrPolicy
                datasetPolicy cd md cdp Hcd Hmd Hcdp v L).
  - repeat split. now exists (mi_metadata cd).
Qed.

Lemma already_corrected_is_rejected_witness :
  exists st',
    darkCurrentCorrectChunkExposure Sample.chunk Sample.master
                                    Sample.isr_amp_0 Sample.noPolicy Sample.st_corrected
    = (st', Throw (Runtime previously_performed))
    /\ error_kind (Runtime previously_performed) = Some AlreadyCorrected
    /\ images st' = images Sample.st_corrected
    /\ properties st' = properties Sample.st_corrected
    /\ pixels_of st' Sample.chunk = pixels_of Sample.st_corrected Sample.chunk
    /\ exists cm, log st' = log Sample.st_corrected ++ [EvFindUnique cm "ISR_DARKCOR"].
Proof.
  eapply already_corrected_is_rejected.
  - apply (just_corrected _ _ Sample.st_30_15 Sample.master Sample.isr_amp_0 Sample.noPolicy).
    vm_compute. reflexivity.
  - vm_compute. reflexivity.
Defined.

(** ** Provenance *)

(** C8: a correction that returns has added exactly one entry to the
    metadata of the chunk, [ISR_DARKCOR] with the value "Completed
    Successfully", after the entries that were there, and has left every
    other metadata node alone; [findUnique] on the chunk metadata then finds
    that entry and its value is the marker.  The calls that write are, in
    order, the scalings of the master and the subtraction, then those of
    the provenance block (lines 192-197), which come last. *)
Theorem success_records_provenance
        {ImageT MaskT : Type} {ops : ImageOps ImageT MaskT}
        (st st' : state ImageT MaskT) (chunkExposure masterChunkExposure : Exposure)
        (isrPolicy datasetPolicy : Policy) :
  darkCurrentCorrectChunkExposure chunkExposure masterChunkExposure
                                  isrPolicy datasetPolicy st = (st', Ok tt) ->
  exists cd cdp,
    images st !! getMaskedImage chunkExposure = Some cd
    /\ metadata_of st chunkExposure = Some cdp
    /\ assoc "ISR_DARKCOR" cdp = None
    /\ metadata_of st' chunkExposure
       = Some (cdp ++ [("ISR_DARKCOR", AnyString "Completed Successfully")])
    /\ properties st'
       = <[mi_metadata cd := cdp ++ [("ISR_DARKCOR", AnyString "Completed Successfully")]]>
           (properties st)
    /\ lookup_property st' chunkExposure "ISR_DARKCOR"
       = Some (AnyString "Completed Successfully")
    /\ (exists i, findUnique (mi_metadata cd) "ISR_DARKCOR" st'
                  = (logged [EvFindUnique (mi_metadata cd) "ISR_DARKCOR"] st', Ok (Some i))
                  /\ getValue (mi_metadata cd) i st'
                     = (st', Ok (AnyString "Completed Successfully")))
    /\ exists reads scalings,
        log st' = log st ++ reads ++ scalings
                      ++ provenance_log (getMaskedImage chunkExposure) (mi_metadata cd)
                                        (length cdp)
        /\ Forall (fun e => is_mutation e = false) reads
        /\ Forall (fun e => is_pixel_mutation e = true \/ is_mutation e = false) scalings.
Proof.
  intros R. apply correct_inv in R as (cd & md & cdp & mdp & dp & ct & l & P & ->).
  pose proof P as [[[Hcd Hmd Hcdp Hgate Hsize Hpol Htype] Hmdp Hid] He Hme Hds Hl].
  pose proof (corrected_metadata _ _ _ _ _ _ _ _ _ _ _ P) as M.
  pose proof (corrected_properties _ _ _ _ _ _ _ _ _ _ _ P) as Pr.
  exists cd, cdp. split; [exact Hcd|]. split; [unfold metadata_of; now rewrite Hcd|].
  split; [exact Hgate|]. split; [exact M|]. split; [exact Pr|].
  split; [exact (corrected_marker _ _ _ _ _ _ _ _ _ _ _ P)|].
  assert (Hp : properties (corrected_store st l cd md cdp ct) !! mi_metadata cd
               = Some (cdp ++ [("ISR_DARKCOR", success_marker)]))
    by (rewrite Pr; apply lookup_insert_eq).
  split.
  - exists (length cdp). split.
    + rewrite (findUnique_run _ _ _ _ Hp). now rewrite (find_index_new _ _ _ Hgate).
    + apply (getValue_run _ _ "ISR_DARKCOR" _ _ _ Hp). now apply list_lookup_middle.
  - exists (validation_log ct (mi_metadata cd) (mi_metadata md)), (scaling_log l).
    split; [exact (corrected_log _ _ _ _ _ _ _ _ _ _ _ P)|]. split.
    + unfold validation_log, identity_reads.
      destruct (identity_key ct); repeat constructor.
    + unfold scaling_log.
      destruct (float_ne _ _), (double_to_bool _); repeat constructor; now left.
Qed.

Lemma success_records_provenance_witness :
  darkCurrentCorrectChunkExposure Sample.chunk Sample.master Sample.isr_amp_0
                                  Sample.noPolicy Sample.st_30_15
  = (Sample.st_corrected, Ok tt)
  /\ lookup_property Sample.st_corrected Sample.chunk "ISR_DARKCOR"
     = Some (AnyString "Completed Successfully").
Proof.
  assert (R : darkCurrentCorrectChunkExposure Sample.chunk Sample.master Sample.isr_amp_0
                Sample.noPolicy Sample.st_30_15 = (Sample.st_corrected, Ok tt))
    by (vm_compute; reflexivity).
  split; [exact R|].
  destruct (success_records_provenance _ _ _ _ _ _ R) as (cd & cdp & _ & _ & _ & _ & _ & L & _).
  exact L.
Defined.

(** ** Scaling and subtraction *)

Section SingleFactor.
Context {ImageT MaskT : Type} {ops : ImageOps ImageT MaskT}.

(** With one factor only there is nothing to compose. *)
Lemma scales_exactly_one_factor e me scale (p : ImageT) :
  float_ne e me <> double_to_bool scale -> scales_exactly e me scale p.
Proof.
  unfold scales_exactly, scaled_reference, effective_multiplier.
  now destruct (float_ne e me), (double_to_bool scale).
Qed.

End SingleFactor.

(** C1, as the code has it: a chunk and a distinct reference that pass the
    validation are corrected, and the pixel plane of the chunk is then,
    sample by sample, the former sample minus the reference sample brought
    to scale by the scalings that apply, one after the other: multiplied by
    [timeScale = exptime / mexptime] when the two exposure times differ, and
    the product by [darkScale] when it is not zero.  When exactly one of
    the two applies this is the reference sample times the effective
    multiplier, [timeScale] or [darkScale]; when none applies it is the
    reference sample itself; when both apply it is the sample times
    [timeScale], rounded, times [darkScale].  With equal exposure times the
    run logs no division and no scaling by another factor than
    [darkScale]. *)
Theorem corrected_pixels
        {ImageT MaskT : Type} {ops : ImageOps ImageT MaskT}
        (st : state ImageT MaskT) (chunkExposure masterChunkExposure : Exposure)
        (isrPolicy datasetPolicy : Policy)
        (cd md : MaskedImageData ImageT MaskT) (cdp mdp : DataProperty)
        (darkPolicy : Policy) (chunkType : string) (l : locals) :
  passes st chunkExposure masterChunkExposure isrPolicy cd md cdp mdp
         darkPolicy chunkType l ->
  getMaskedImage chunkExposure <> getMaskedImage masterChunkExposure ->
  let e := exptime l in
  let me := mexptime l in
  let scale := darkScale l in
  exists st' r,
    darkCurrentCorrectChunkExposure chunkExposure masterChunkExposure
                                    isrPolicy datasetPolicy st = (st', Ok tt)
    /\ pixels_of st' chunkExposure = Some r
    /\ r = zip_with pixel_sub (mi_image cd) (map (scaled_reference e me scale) (mi_image md))
    /\ (forall i c p,
           mi_image cd !! i = Some c -> mi_image md !! i = Some p ->
           r !! i = Some (pixel_sub c (scaled_reference e me scale p)))
    /\ (float_ne e me <> double_to_bool scale ->
        r = zip_with pixel_sub (mi_image cd)
              (map (fun p => pixel_scale p (effective_multiplier e me scale)) (mi_image md)))
    /\ (float_ne e me = false -> double_to_bool scale = false ->
        r = zip_with pixel_sub (mi_image cd) (mi_image md))
    /\ (float_ne e me = true -> double_to_bool scale = true ->
        r = zip_with pixel_sub (mi_image cd)
              (map (fun p => pixel_scale (pixel_scale p (timeScale e me)) scale)
                   (mi_image md)))
    /\ (float_ne e me = false ->
        exists evs, log st' = log st ++ evs /\ Forall (no_time_scaling scale) evs).
Proof.
  intros P N e me scale.
  exists (corrected_store st l cd md cdp chunkType).
  exists (zip_with pixel_sub (mi_image cd) (map (scaled_reference e me scale) (mi_image md))).
  split; [exact (correct_run st _ _ _ datasetPolicy _ _ _ _ _ _ _ P)|].
  destruct (corrected_chunk _ _ _ _ _ _ _ _ _ _ _ P) as (cd' & H' & _ & _ & _ & Hsub).
  specialize (Hsub N). subst cd'.
  split; [|split; [reflexivity|split; [|split; [|split; [|split]]]]].
  - unfold pixels_of. rewrite H'. simpl. now rewrite scaled_master_image.
  - intros i c p Hi Hj.
    rewrite lookup_zip_with, Hi. simpl. rewrite list_lookup_fmap, Hj. reflexivity.
  - intros One. f_equal. apply Forall_fmap_ext_1, Forall_forall.
    intros p _. exact (scales_exactly_one_factor e me scale p One).
  - intros T D. f_equal. unfold scaled_reference. rewrite T, D. apply map_id.
  - intros T D. f_equal. unfold scaled_reference. now rewrite T, D.
  - intros D.
    exists (validation_log chunkType (mi_metadata cd) (mi_metadata md) ++ scaling_log l
            ++ provenance_log (getMaskedImage chunkExposure) (mi_metadata cd) (length cdp)).
    split; [exact (corrected_log _ _ _ _ _ _ _ _ _ _ _ P)|].
    unfold validation_log, identity_reads, scaling_log, provenance_log.
    fold e me scale. rewrite D.
    destruct (identity_key chunkType), (double_to_bool scale) eqn:B;
      repeat first [ apply Forall_app; split | apply Forall_cons; split
                   | apply Forall_nil | exact I | split | reflexivity | assumption ].
Qed.

Lemma corrected_pixels_witness :
  effective_multiplier (Sample.f 30) (Sample.f 15) (Sample.d 0) = Sample.d 2
  /\ darkCurrentCorrectChunkExposure Sample.chunk Sample.master Sample.isr_amp_0
                                     Sample.noPolicy Sample.st_30_15
     = (Sample.st_corrected, Ok tt)
  /\ pixels_of Sample.st_corrected Sample.chunk
     = Some (zip_with double_sub
               [Sample.d 100; Sample.d 200; Sample.d 300; Sample.d 400]
               (map (fun p => double_mul p (effective_multiplier (Sample.f 30) (Sample.f 15)
                                                                 (Sample.d 0)))
                    [Sample.d 1; Sample.d 2; Sample.d 3; Sample.d 4])).
Proof.
  assert (P : passes Sample.st_30_15 Sample.chunk Sample.master Sample.isr_amp_0
                Sample.chunk_cell Sample.master_cell (Sample.md 3 30) (Sample.md 3 15)
                (mkPolicy [("chunkType", "amp")] [("darkScale", Sample.d 0)] []) "amp"
                (mkLocals 1%positive 11%positive 2%positive 12%positive
                          (Sample.f 30) (Sample.f 15) (Sample.d 0))).
  { split; [split; [split; reflexivity|reflexivity|]|reflexivity..].
    exists 3. split; reflexivity. }
  assert (N : getMaskedImage Sample.chunk <> getMaskedImage Sample.master) by discriminate.
  destruct (corrected_pixels _ _ _ _ Sample.noPolicy _ _ _ _ _ _ _ P N)
    as (st' & r & Run & Pix & _ & _ & M & _).
  split; [vm_compute; reflexivity|].
  assert (E : st' = Sample.st_corrected) by (unfold Sample.st_corrected; now rewrite Run).
  rewrite <- E. split; [exact Run|]. rewrite Pix. f_equal. apply M.
  vm_compute. discriminate.
Defined.

(** C1, as the specification states it, fails when both scalings apply:
    the code multiplies the reference by [timeScale] and the rounded product
    by [darkScale], which is not the reference times the one multiplier
    [timeScale * darkScale].  A chunk of pixel 0 exposed for 10 s and a
    reference of pixel 3 exposed for 30 s, with [darkScale] 0.3, pass the
    validation and are corrected; the chunk pixel is then
    -5404319713905869 / 2^54, and with the effective multiplier it would be
    -5404319713905868 / 2^54. *)
Lemma two_scalings_are_rounded_twice :
  exists st',
    passes Rounding.st Sample.chunk Sample.master Rounding.isr
           Rounding.chunk_cell Rounding.master_cell (Sample.md 3 10) (Sample.md 3 30)
           (mkPolicy [("chunkType", "amp")] [("darkScale", Rounding.three_tenths)] [])
           "amp" Rounding.l
    /\ float_ne (Sample.f 10) (Sample.f 30) = true
    /\ double_to_bool Rounding.three_tenths = true
    /\ darkCurrentCorrectChunkExposure Sample.chunk Sample.master Rounding.isr
                                       Sample.noPolicy Rounding.st = (st', Ok tt)
    /\ pixels_of st' Sample.chunk = Some [S754_finite true 5404319713905869 (-54)]
    /\ zip_with pixel_sub (mi_image Rounding.chunk_cell)
         (map (fun p => pixel_scale
                          p (effective_multiplier (Sample.f 10) (Sample.f 30)
                                                  Rounding.three_tenths))
              (mi_image Rounding.master_cell))
       = [S754_finite true 5404319713905868 (-54)]
    /\ pixels_of st' Sample.chunk
       <> Some (zip_with pixel_sub (mi_image Rounding.chunk_cell)
                  (map (fun p => pixel_scale
                                   p (effective_multiplier (Sample.f 10) (Sample.f 30)
                                                           Rounding.three_tenths))
                       (mi_image Rounding.master_cell))).
Proof.
  eexists. split; [|split; [|split; [|split; [|split; [|split]]]]].
  - split; [split; [split; reflexivity|reflexivity|]|reflexivity..].
    exists 3. split; reflexivity.
  - vm_compute. reflexivity.
  - vm_compute. reflexivity.
  - vm_compute. reflexivity.
  - vm_compute. reflexivity.
  - vm_compute. reflexivity.
  - vm_compute. discriminate.
Qed.

(** The scaling examples of the specification, on 2 x 2 images of
    [double]s with the pixels 100, 200, 300, 400 and 1, 2, 3, 4: exposure
    times 30 and 15 without [darkScale], 30 and 30 with [darkScale] 1.5,
    and, besides, both factors and none. *)
Example scaling_30_15_0 :
  pixels_of Sample.st_corrected Sample.chunk
  = Some [Sample.d 98; Sample.d 196; Sample.d 294; Sample.d 392].
Proof. vm_compute. reflexivity. Qed.

Example scaling_30_30_three_halves :
  let isr := Sample.policy "amp" [("darkScale", double_dyadic 3 1)] in
  let st := Sample.store (Sample.md 3 30) (Sample.md 3 30) in
  effective_multiplier (Sample.f 30) (Sample.f 30) (double_dyadic 3 1) = double_dyadic 3 1
  /\ pixels_of (fst (darkCurrentCorrectChunkExposure Sample.chunk Sample.master isr
                       Sample.noPolicy st)) Sample.chunk
     = Some [double_dyadic 197 1; Sample.d 197; double_dyadic 591 1; Sample.d 394].
Proof. vm_compute. split; reflexivity. Qed.

Example scaling_30_15_three_halves :
  let isr := Sample.policy "amp" [("darkScale", double_dyadic 3 1)] in
  effective_multiplier (Sample.f 30) (Sample.f 15) (double_dyadic 3 1) = Sample.d 3
  /\ pixels_of (fst (darkCurrentCorrectChunkExposure Sample.chunk Sample.master isr
                       Sample.noPolicy Sample.st_30_15)) Sample.chunk
     = Some [Sample.d 97; Sample.d 194; Sample.d 291; Sample.d 388].
Proof. vm_compute. split; reflexivity. Qed.

Example scaling_30_30_0 :
  let st := Sample.store (Sample.md 3 30) (Sample.md 3 30) in
  effective_multiplier (Sample.f 30) (Sample.f 30) (Sample.d 0) = Sample.d 1
  /\ Forall (scales_exactly (Sample.f 30) (Sample.f 30) (Sample.d 0))
            [Sample.d 1; Sample.d 2; Sample.d 3; Sample.d 4]
  /\ pixels_of (fst (darkCurrentCorrectChunkExposure Sample.chunk Sample.master
                       Sample.isr_amp_0 Sample.noPolicy st)) Sample.chunk
     = Some [Sample.d 99; Sample.d 198; Sample.d 297; Sample.d 396].
Proof.
  split; [vm_compute; reflexivity|]. split; [|vm_compute; reflexivity].
  repeat constructor.
Qed.

(** ** The master exposure *)

Section Master.
Context {ImageT MaskT : Type} {ops : ImageOps ImageT MaskT}.

(** What the correction leaves in the master: its samples brought to
    scale, in the shared object itself. *)
Lemma master_after_correction
      (st st' : state ImageT MaskT) (chunkExposure masterChunkExposure : Exposure)
      (isrPolicy datasetPolicy : Policy) (mpix : list ImageT) (e me : cfloat)
      (scale : cdouble) :
  darkCurrentCorrectChunkExposure chunkExposure masterChunkExposure
                                  isrPolicy datasetPolicy st = (st', Ok tt) ->
  getMaskedImage chunkExposure <> getMaskedImage masterChunkExposure ->
  pixels_of st masterChunkExposure = Some mpix ->
  lookup_property st chunkExposure "EXPTIME" = Some (AnyFloat e) ->
  lookup_property st masterChunkExposure "EXPTIME" = Some (AnyFloat me) ->
  configured_darkScale isrPolicy = Some scale ->
  pixels_of st' masterChunkExposure = Some (map (scaled_reference e me scale) mpix).
Proof.
  intros R N Hm He Hme Hs.
  apply correct_inv in R as (cd & md & cdp & mdp & dp & ct & l & P & ->).
  pose proof P as [[[Hcd Hmd Hcdp Hgate Hsize Hpol Htype] Hmdp Hid] He' Hme' Hds Hl].
  unfold pixels_of in Hm. rewrite Hmd in Hm. injection Hm as <-.
  unfold lookup_property, metadata_of in He, Hme.
  rewrite Hcd, Hcdp, He' in He. rewrite Hmd, Hmdp, Hme' in Hme.
  injection He as E1. injection Hme as E2.
  unfold configured_darkScale in Hs. rewrite Hpol, Hds in Hs. injection Hs as E3.
  unfold pixels_of. rewrite (corrected_master _ _ _ _ _ _ _ _ _ _ _ P N). simpl.
  now rewrite scaled_master_image, E1, E2, E3.
Qed.

End Master.

(** C3: the master is not left as it was.  On the 2 x 2 sample, a chunk
    exposed for 30 s corrected by a master exposed for 15 s leaves the
    master's pixels 1, 2, 3, 4 doubled, in the object that the caller
    shares; a second chunk of 30 s corrected by the same master doubles
    them again and is decreased by four times the reference, not by
    twice. *)
Theorem reference_is_scaled_in_place :
  let first := darkCurrentCorrectChunkExposure Sample.chunk Sample.master
                 Sample.isr_amp_0 Sample.noPolicy Sample.st_30_15 in
  let second := darkCurrentCorrectChunkExposure Sample.chunk' Sample.master
                  Sample.isr_amp_0 Sample.noPolicy (fst first) in
  pixels_of Sample.st_30_15 Sample.master
  = Some [Sample.d 1; Sample.d 2; Sample.d 3; Sample.d 4]
  /\ snd first = Ok tt
  /\ pixels_of (fst first) Sample.master
     = Some [Sample.d 2; Sample.d 4; Sample.d 6; Sample.d 8]
  /\ snd second = Ok tt
  /\ pixels_of (fst second) Sample.master
     = Some [Sample.d 4; Sample.d 8; Sample.d 12; Sample.d 16]
  /\ pixels_of (fst first) Sample.chunk'
     = Some [Sample.d 50; Sample.d 60; Sample.d 70; Sample.d 80]
  /\ pixels_of (fst second) Sample.chunk'
     = Some [Sample.d 46; Sample.d 52; Sample.d 58; Sample.d 64].
Proof. vm_compute. repeat split; reflexivity. Qed.

(** ** Geometry *)

Lemma static_cast_int_inj (a b : Z) :
  0 <= a < 4294967296 -> 0 <= b < 4294967296 ->
  static_cast_int a = static_cast_int b -> a = b.
Proof.
  unfold static_cast_int. intros Ha Hb H.
  assert (E : (a + 2147483648) mod 4294967296 = (b + 2147483648) mod 4294967296) by lia.
  destruct (Z_lt_le_dec a 2147483648), (Z_lt_le_dec b 2147483648).
  - rewrite !Z.mod_small in E by lia. lia.
  - rewrite (Z.mod_small (a + _)) in E by lia.
    replace (b + 2147483648) with ((b - 2147483648) + 1 * 4294967296) in E by lia.
    rewrite Z.mod_add, Z.mod_small in E by lia. lia.
  - rewrite (Z.mod_small (b + _)) in E by lia.
    replace (a + 2147483648) with ((a - 2147483648) + 1 * 4294967296) in E by lia.
    rewrite Z.mod_add, Z.mod_small in E by lia. lia.
  - replace (a + 2147483648) with ((a - 2147483648) + 1 * 4294967296) in E by lia.
    replace (b + 2147483648) with ((b - 2147483648) + 1 * 4294967296) in E by lia.
    rewrite !Z.mod_add, !Z.mod_small in E by lia. lia.
Qed.

Lemma sizes_differ_true {ImageT MaskT} (cd md : MaskedImageData ImageT MaskT) :
  unsigned_size cd -> unsigned_size md ->
  mi_cols cd <> mi_cols md \/ mi_rows cd <> mi_rows md ->
  sizes_differ cd md = true.
Proof.
  intros [Hc Hr] [Hc' Hr'] D. unfold sizes_differ.
  apply orb_true_iff. destruct D as [D|D]; [left|right];
    apply negb_true_iff, Z.eqb_neq; intros E; apply D;
    now apply static_cast_int_inj.
Qed.

(** C4, as the code has it: a chunk that passes the idempotency gate and a
    reference whose count of columns or of rows is another are rejected
    with the [LengthError] exception (the DimensionMismatch kind) before
    anything is written: images, metadata and so the pixels of both
    exposures are as they were, and nothing is corrected on an overlap.
    The report is one fixed text for all sizes; it names none. *)
Theorem size_mismatch_is_rejected
        {ImageT MaskT : Type} {ops : ImageOps ImageT MaskT}
        (st : state ImageT MaskT) (chunkExposure masterChunkExposure : Exposure)
        (isrPolicy datasetPolicy : Policy)
        (cd md : MaskedImageData ImageT MaskT) (cdp : DataProperty) :
  images st !! getMaskedImage chunkExposure = Some cd ->
  images st !! getMaskedImage masterChunkExposure = Some md ->
  properties st !! mi_metadata cd = Some cdp ->
  assoc "ISR_DARKCOR" cdp = None ->
  unsigned_size cd -> unsigned_size md ->
  mi_cols cd <> mi_cols md \/ mi_rows cd <> mi_rows md ->
  exists st',
    darkCurrentCorrectChunkExposure chunkExposure masterChunkExposure
                                    isrPolicy datasetPolicy st
    = (st', Throw (LengthError not_same_size))
    /\ error_kind (LengthError not_same_size) = Some DimensionMismatch
    /\ images st' = images st /\ properties st' = properties st
    /\ pixels_of st' chunkExposure = pixels_of st chunkExposure
    /\ pixels_of st' masterChunkExposure = pixels_of st masterChunkExposure
    /\ log st' = log st ++ [EvFindUnique (mi_metadata cd) "ISR_DARKCOR"].
Proof.
  intros Hcd Hmd Hcdp Hgate Uc Um D.
  exists (logged [EvFindUnique (mi_metadata cd) "ISR_DARKCOR"] st). split.
  - unfold darkCurrentCorrectChunkExposure.
    now step (validate_size_mismatch st chunkExposure masterChunkExposure isrPolicy
                datasetPolicy cd md cdp Hcd Hmd Hcdp Hgate (sizes_differ_true cd md Uc Um D)).
  - now repeat split.
Qed.

Lemma size_mismatch_is_rejected_witness :
  exists st',
    darkCurrentCorrectChunkExposure Sample.chunk Sample.master Sample.isr_amp_0
                                    Sample.noPolicy Sample.st_100_99
    = (st', Throw (LengthError not_same_size))
    /\ error_kind (LengthError not_same_size) = Some DimensionMismatch
    /\ images st' = images Sample.st_100_99 /\ properties st' = properties Sample.st_100_99
    /\ pixels_of st' Sample.chunk = pixels_of Sample.st_100_99 Sample.chunk
    /\ pixels_of st' Sample.master = pixels_of Sample.st_100_99 Sample.master
    /\ log st' = log Sample.st_100_99 ++ [EvFindUnique 11%positive "ISR_DARKCOR"].
Proof.
  apply (size_mismatch_is_rejected Sample.st_100_99 Sample.chunk Sample.master
           Sample.isr_amp_0 Sample.noPolicy (Sample.cell_of_size 100 100 11)
           (Sample.cell_of_size 100 99 12) (Sample.md 3 30)).
  - reflexivity.
  - reflexivity.
  - reflexivity.
  - reflexivity.
  - unfold unsigned_size. simpl. lia.
  - unfold unsigned_size. simpl. lia.
  - right. simpl. lia.
Defined.

(** A text that names both sizes, for comparison. *)
Example a_report_with_sizes :
  reports_size "chunk is 100 x 100, master is 100 x 99" 100 100 = true
  /\ reports_size "chunk is 100 x 100, master is 100 x 99" 100 99 = true
  /\ reports_size "chunk is 100 x 100, master is 100 x 98" 100 99 = false.
Proof. vm_compute. repeat split; reflexivity. Qed.

(** C4, as the specification states it, fails on the report: for a
    100 x 100 chunk and a 100 x 99 reference the exception is raised, and
    its text names neither the size of the chunk nor that of the
    reference. *)
Lemma size_report_names_no_size :
  exists msg,
    snd (darkCurrentCorrectChunkExposure Sample.chunk Sample.master Sample.isr_amp_0
                                         Sample.noPolicy Sample.st_100_99)
    = Throw (LengthError msg)
    /\ dimensions_of Sample.st_100_99 Sample.chunk = Some (100, 100)
    /\ dimensions_of Sample.st_100_99 Sample.master = Some (100, 99)
    /\ reports_size msg 100 100 = false
    /\ reports_size msg 100 99 = false.
Proof. exists not_same_size. vm_compute. repeat split; reflexivity. Qed.

(** ** Identity *)

(** C5: with the chunk type "amp" the identifier is [AMPID], with "ccd" it
    is [CCDID].  Once the two gates are passed: when the chunk has no such
    key the function throws [NotFound] (the MissingMetadata kind) with a
    text that names the key and the chunk metadata; when the chunk holds an
    integer and the master has no such key, [NotFound] with a text that
    names the key and the master metadata; when both hold integers that
    differ, [RangeError] (the IdentityMismatch kind); when both hold the
    same integer, the function goes on with lines 150-197, having written
    nothing. *)
Theorem identity_check
        {ImageT MaskT : Type} {ops : ImageOps ImageT MaskT}
        (st : state ImageT MaskT) (chunkExposure masterChunkExposure : Exposure)
        (isrPolicy datasetPolicy : Policy)
        (cd md : MaskedImageData ImageT MaskT) (cdp mdp : DataProperty)
        (darkPolicy : Policy) (chunkType key : string) :
  reaches_identity st chunkExposure masterChunkExposure isrPolicy cd md cdp
                   darkPolicy chunkType ->
  properties st !! mi_metadata md = Some mdp ->
  (chunkType = "amp" /\ key = "AMPID") \/ (chunkType = "ccd" /\ key = "CCDID") ->
  let run := darkCurrentCorrectChunkExposure chunkExposure masterChunkExposure
               isrPolicy datasetPolicy st in
  let st1 := logged [EvFindUnique (mi_metadata cd) "ISR_DARKCOR";
                     EvGetPolicy "darkPolicy"; EvGetString "chunkType"] st in
  let asked := [EvFindUnique (mi_metadata cd) key; EvFindUnique (mi_metadata md) key] in
  match assoc key cdp with
  | None =>
      run = (logged [EvFindUnique (mi_metadata cd) key] st1,
             Throw (NotFound (could_not_get key "the Chunk")))
  | Some (AnyInt id) =>
      match assoc key mdp with
      | None =>
          run = (logged asked st1,
                 Throw (NotFound (could_not_get key "the Master Dark Current Chunk")))
      | Some (AnyInt mid) =>
          if id =? mid
          then run = (l <- getScalingInformation darkPolicy
                             (getMaskedImage chunkExposure) (mi_metadata cd)
                             (getMaskedImage masterChunkExposure) (mi_metadata md) ;;
                      scaleAndSubtract l ;;;
                      recordProvenance l)%cxx (logged asked st1)
          else run = (logged asked st1, Throw (RangeError not_same_pixels))
      | Some _ => True
      end
  | Some _ => True
  end
  /\ (forall side, error_kind (NotFound (could_not_get key side)) = Some MissingMetadata)
  /\ error_kind (RangeError not_same_pixels) = Some IdentityMismatch
  /\ is_infix key (could_not_get key "the Chunk") = true
  /\ is_infix "from the Chunk Metadata" (could_not_get key "the Chunk") = true
  /\ is_infix key (could_not_get key "the Master Dark Current Chunk") = true
  /\ is_infix "from the Master Dark Current Chunk Metadata"
              (could_not_get key "the Master Dark Current Chunk") = true.
Proof.
  intros R Hmdp K run st1 asked.
  assert (Hkey : identity_key chunkType = Some key)
    by (destruct K as [[-> ->]|[-> ->]]; reflexivity).
  split; [|destruct K as [[-> ->]|[-> ->]]; repeat split; reflexivity].
  subst run. rewrite (run_from_identity st _ _ _ datasetPolicy _ _ _ _ _ R).
  fold st1. rewrite checkSamePixels_key, Hkey.
  pose proof R as [Hcd Hmd Hcdp Hgate Hsize Hpol Htype].
  pose proof (checkSameId_run key (mi_metadata cd) (mi_metadata md) cdp mdp st1 Hcdp Hmdp)
    as C.
  destruct (assoc key cdp) as [v|]; [|now step C].
  destruct v; try exact I. simpl in C.
  destruct (assoc key mdp) as [w|]; [|now step C].
  destruct w; try exact I. simpl in C.
  destruct (i =? i0); simpl in C; now step C.
Qed.

Lemma identity_check_witness :
  darkCurrentCorrectChunkExposure Sample.chunk Sample.master Sample.isr_amp_0
                                  Sample.noPolicy Sample.st_amp_3_7
  = (logged [EvFindUnique 11%positive "AMPID"; EvFindUnique 12%positive "AMPID"]
            (logged [EvFindUnique 11%positive "ISR_DARKCOR"; EvGetPolicy "darkPolicy";
                     EvGetString "chunkType"] Sample.st_amp_3_7),
     Throw (RangeError not_same_pixels))
  /\ error_kind (RangeError not_same_pixels) = Some IdentityMismatch.
Proof.
  assert (R : reaches_identity Sample.st_amp_3_7 Sample.chunk Sample.master Sample.isr_amp_0
                Sample.chunk_cell Sample.master_cell (Sample.md 3 30)
                (mkPolicy [("chunkType", "amp")] [("darkScale", Sample.d 0)] []) "amp")
    by (split; reflexivity).
  destruct (identity_check Sample.st_amp_3_7 Sample.chunk Sample.master Sample.isr_amp_0
              Sample.noPolicy Sample.chunk_cell Sample.master_cell (Sample.md 3 30)
              (Sample.md 7 15) _ "amp" "AMPID" R eq_refl (or_introl (conj eq_refl eq_refl)))
    as (H & _ & K & _).
  split; [exact H|exact K].
Defined.

(** C6: with any other chunk type the identity branch is empty.  Once the
    two gates are passed, the identity check returns at once in the store
    it was called in, log included: it looks up no identifier and throws
    nothing, whatever identifiers the two sides hold, and the function goes
    on with lines 150-197. *)
Theorem other_chunkType_skips_identity
        {ImageT MaskT : Type} {ops : ImageOps ImageT MaskT}
        (st : state ImageT MaskT) (chunkExposure masterChunkExposure : Exposure)
        (isrPolicy datasetPolicy : Policy)
        (cd md : MaskedImageData ImageT MaskT) (cdp : DataProperty)
        (darkPolicy : Policy) (chunkType : string) :
  reaches_identity st chunkExposure masterChunkExposure isrPolicy cd md cdp
                   darkPolicy chunkType ->
  chunkType <> "amp" -> chunkType <> "ccd" ->
  (forall cm mm (s : state ImageT MaskT), checkSamePixels chunkType cm mm s = (s, Ok tt))
  /\ darkCurrentCorrectChunkExposure chunkExposure masterChunkExposure
                                     isrPolicy datasetPolicy st
     = (l <- getScalingInformation darkPolicy
               (getMaskedImage chunkExposure) (mi_metadata cd)
               (getMaskedImage masterChunkExposure) (mi_metadata md) ;;
        scaleAndSubtract l ;;;
        recordProvenance l)%cxx
         (logged [EvFindUnique (mi_metadata cd) "ISR_DARKCOR";
                  EvGetPolicy "darkPolicy"; EvGetString "chunkType"] st)
  /\ (forall cm mm, identity_reads chunkType cm mm = [])
  /\ (forall cdp' mdp', identity_matches chunkType cdp' mdp').
Proof.
  intros R Na Nc.
  assert (Hkey : identity_key chunkType = None).
  { unfold identity_key.
    destruct (String.eqb_spec chunkType "amp"); [contradiction|].
    now destruct (String.eqb_spec chunkType "ccd"). }
  assert (S : forall cm mm (s : state ImageT MaskT),
             checkSamePixels chunkType cm mm s = (s, Ok tt))
    by (intros cm mm s; now rewrite checkSamePixels_key, Hkey).
  split; [exact S|]. split; [|split].
  - rewrite (run_from_identity st _ _ _ datasetPolicy _ _ _ _ _ R).
    now step (S (mi_metadata cd) (mi_metadata md)
                (logged [EvFindUnique (mi_metadata cd) "ISR_DARKCOR";
                         EvGetPolicy "darkPolicy"; EvGetString "chunkType"] st)).
  - intros cm mm. unfold identity_reads. now rewrite Hkey.
  - intros cdp' mdp'. unfold identity_matches. now rewrite Hkey.
Qed.

Lemma other_chunkType_skips_identity_witness :
  lookup_property Sample.st_amp_3_7 Sample.chunk "AMPID" = Some (AnyInt 3)
  /\ lookup_property Sample.st_amp_3_7 Sample.master "AMPID" = Some (AnyInt 7)
  /\ snd (darkCurrentCorrectChunkExposure Sample.chunk Sample.master Sample.isr_raft_0
                                          Sample.noPolicy Sample.st_amp_3_7) = Ok tt.
Proof.
  assert (R : reaches_identity Sample.st_amp_3_7 Sample.chunk Sample.master Sample.isr_raft_0
                Sample.chunk_cell Sample.master_cell (Sample.md 3 30)
                (mkPolicy [("chunkType", "raft")] [("darkScale", Sample.d 0)] []) "raft")
    by (split; reflexivity).
  split; [reflexivity|]. split; [reflexivity|].
  destruct (other_chunkType_skips_identity Sample.st_amp_3_7 Sample.chunk Sample.master
              Sample.isr_raft_0 Sample.noPolicy Sample.chunk_cell Sample.master_cell
              (Sample.md 3 30) _ "raft" R) as (_ & H & _).
  - discriminate.
  - discriminate.
  - rewrite H. vm_compute. reflexivity.
Defined.

(** ** The configured scale *)

(** C7, as the code has it.  Once the identity check is passed and both
    exposure times are [float]s: a configured [darkScale] of zero is not
    applied, the correction returns and the only scaling of the master, if
    any, is the time scaling; a configured [darkScale] that is not zero is
    applied to the master after the time scaling, by one more call of
    [operator*=]; when no [darkScale] is configured the function throws
    the policy's exception (the MissingConfiguration kind) out of
    [getDouble], having written nothing. *)
Theorem darkScale_is_applied_unless_zero
        {ImageT MaskT : Type} {ops : ImageOps ImageT MaskT}
        (st : state ImageT MaskT) (chunkExposure masterChunkExposure : Exposure)
        (isrPolicy datasetPolicy : Policy)
        (cd md : MaskedImageData ImageT MaskT) (cdp mdp : DataProperty)
        (darkPolicy : Policy) (chunkType : string) (e me : cfloat) :
  reaches_scaling st chunkExposure masterChunkExposure isrPolicy cd md cdp mdp
                  darkPolicy chunkType ->
  assoc "EXPTIME" cdp = Some (AnyFloat e) ->
  assoc "EXPTIME" mdp = Some (AnyFloat me) ->
  let run := darkCurrentCorrectChunkExposure chunkExposure masterChunkExposure
               isrPolicy datasetPolicy st in
  let c := getMaskedImage chunkExposure in
  let m := getMaskedImage masterChunkExposure in
  let reads := validation_log chunkType (mi_metadata cd) (mi_metadata md) in
  match assoc "darkScale" (policy_doubles darkPolicy) with
  | None =>
      run = (logged reads st, Throw (PolicyNameNotFound "darkScale"))
      /\ error_kind (PolicyNameNotFound "darkScale") = Some MissingConfiguration
  | Some scale =>
      exists st',
        run = (st', Ok tt)
        /\ log st' = log st ++ reads
                         ++ (if float_ne e me
                             then [EvDivide e me; EvScale m (timeScale e me)] else [])
                         ++ (if double_to_bool scale then [EvScale m scale] else [])
                         ++ [EvSubtract c m]
                         ++ provenance_log c (mi_metadata cd) (length cdp)
        /\ (c <> m ->
            pixels_of st' masterChunkExposure
            = Some (map (fun p =>
                           let p1 := if float_ne e me
                                     then pixel_scale p (timeScale e me) else p in
                           if double_to_bool scale then pixel_scale p1 scale else p1)
                        (mi_image md))
            /\ pixels_of st' chunkExposure
               = Some (zip_with pixel_sub (mi_image cd)
                         (map (fun p =>
                                 let p1 := if float_ne e me
                                           then pixel_scale p (timeScale e me) else p in
                                 if double_to_bool scale then pixel_scale p1 scale else p1)
                              (mi_image md))))
        /\ (is_zero scale = true -> double_to_bool scale = false)
  end.
Proof.
  intros R He Hme run c m reads.
  pose proof R as [Ri Hmdp Hid]. pose proof Ri as [Hcd Hmd Hcdp Hgate Hsize Hpol Htype].
  destruct (assoc "darkScale" (policy_doubles darkPolicy)) as [scale|] eqn:Hds.
  - set (l := mkLocals c (mi_metadata cd) m (mi_metadata md) e me scale).
    assert (P : passes st chunkExposure masterChunkExposure isrPolicy cd md cdp mdp
                       darkPolicy chunkType l) by now split.
    exists (corrected_store st l cd md cdp chunkType).
    split; [exact (correct_run st _ _ _ datasetPolicy _ _ _ _ _ _ _ P)|].
    split; [|split].
    + rewrite (corrected_log _ _ _ _ _ _ _ _ _ _ _ P). unfold scaling_log. simpl.
      now rewrite <- ?app_assoc.
    + intros N. split.
      * unfold pixels_of. rewrite (corrected_master _ _ _ _ _ _ _ _ _ _ _ P N). simpl.
        now rewrite scaled_master_image.
      * destruct (corrected_chunk _ _ _ _ _ _ _ _ _ _ _ P) as (cd' & H' & _ & _ & _ & Hs).
        unfold pixels_of. rewrite H', (Hs N). simpl. now rewrite scaled_master_image.
    + now destruct scale.
  - split; [|reflexivity]. subst run.
    rewrite (run_from_scaling st _ _ _ datasetPolicy _ _ _ _ _ Ri mdp Hmdp Hid).
    set (st1 := logged _ st).
    pose proof (getScalingInformation_run darkPolicy c (mi_metadata cd) m (mi_metadata md)
                  cdp mdp st1 Hcdp Hmdp) as G.
    rewrite He, Hme, Hds in G. simpl in G. step G.
    subst st1. rewrite logged_logged. unfold reads, validation_log.
    now rewrite <- ?app_assoc.
Qed.

Lemma darkScale_is_applied_unless_zero_witness :
  configured_darkScale Sample.isr_amp_0 = Some (S754_zero false)
  /\ snd (darkCurrentCorrectChunkExposure Sample.chunk Sample.master Sample.isr_amp_0
                                          Sample.noPolicy Sample.st_30_15) = Ok tt
  /\ pixels_of Sample.st_corrected Sample.master
     = Some (map (fun p => double_mul p (timeScale (Sample.f 30) (Sample.f 15)))
                 [Sample.d 1; Sample.d 2; Sample.d 3; Sample.d 4]).
Proof.
  assert (R : reaches_scaling Sample.st_30_15 Sample.chunk Sample.master Sample.isr_amp_0
                Sample.chunk_cell Sample.master_cell (Sample.md 3 30) (Sample.md 3 15)
                (mkPolicy [("chunkType", "amp")] [("darkScale", Sample.d 0)] []) "amp").
  { split; [split; reflexivity|reflexivity|]. exists 3. split; reflexivity. }
  destruct (darkScale_is_applied_unless_zero Sample.st_30_15 Sample.chunk Sample.master
              Sample.isr_amp_0 Sample.noPolicy Sample.chunk_cell Sample.master_cell
              (Sample.md 3 30) (Sample.md 3 15) _ "amp" (Sample.f 30) (Sample.f 15)
              R eq_refl eq_refl) as (st' & H & _ & P & _).
  split; [reflexivity|]. split; [now rewrite H|].
  assert (E : st' = Sample.st_corrected) by (unfold Sample.st_corrected; now rewrite H).
  rewrite <- E. apply P. discriminate.
Defined.

(** C7, as the specification states it, fails on an absent [darkScale]:
    without the key the correction does not complete, it throws the
    policy's exception. *)
Lemma absent_darkScale_is_rejected :
  configured_darkScale Sample.isr_amp_unscaled = None
  /\ snd (darkCurrentCorrectChunkExposure Sample.chunk Sample.master Sample.isr_amp_unscaled
                                          Sample.noPolicy Sample.st_30_15)
     = Throw (PolicyNameNotFound "darkScale")
  /\ snd (darkCurrentCorrectChunkExposure Sample.chunk Sample.master Sample.isr_amp_unscaled
                                          Sample.noPolicy Sample.st_30_15)
     <> Ok tt.
Proof.
  split; [reflexivity|]. split; [vm_compute; reflexivity|].
  vm_compute. discriminate.
Qed.

(** ** The division of the exposure times *)

Lemma float_div_by_zero (e me : cfloat) :
  is_zero me = true -> float_ne e me = true ->
  is_inf_or_nan (float_div e me) = true
  /\ is_inf_or_nan (timeScale e me) = true.
Proof.
  unfold timeScale, float_div, float_ne.
  destruct me; try discriminate. intros _.
  destruct e; simpl; try discriminate; now intros _.
Qed.

Lemma float_zeros_are_equal (e me : cfloat) :
  is_zero e = true -> is_zero me = true -> float_ne e me = false.
Proof. now destruct e, me. Qed.

Lemma is_read_not_division (evs : list event) a b :
  Forall is_read evs -> EvDivide a b ∉ evs.
Proof.
  intros F H. rewrite Forall_forall in F. exact (F _ H).
Qed.

(** C9: whatever the outcome of a run, a division it has made is the
    division of the exposure time of the chunk by that of the master, both
    [float]s of the metadata, and these two differ; so equal exposure times,
    two zeros among them, are never divided.  The divisor is not looked at:
    an input that passes the validation is corrected whatever the exposure
    time of the master, and when that is a zero which the exposure time of
    the chunk differs from, the quotient the master is scaled by is an
    infinity or a NaN. *)
Theorem division_only_when_exptimes_differ
        {ImageT MaskT : Type} {ops : ImageOps ImageT MaskT}
        (st st' : state ImageT MaskT) (chunkExposure masterChunkExposure : Exposure)
        (isrPolicy datasetPolicy : Policy) (r : result unit) :
  darkCurrentCorrectChunkExposure chunkExposure masterChunkExposure
                                  isrPolicy datasetPolicy st = (st', r) ->
  exists evs,
    log st' = log st ++ evs
    /\ (forall a b,
           EvDivide a b ∈ evs ->
           float_ne a b = true
           /\ lookup_property st chunkExposure "EXPTIME" = Some (AnyFloat a)
           /\ lookup_property st masterChunkExposure "EXPTIME" = Some (AnyFloat b))
    /\ (forall cd md cdp mdp darkPolicy chunkType l,
           passes st chunkExposure masterChunkExposure isrPolicy cd md cdp mdp
                  darkPolicy chunkType l ->
           r = Ok tt
           /\ (float_ne (exptime l) (mexptime l) = true ->
               EvDivide (exptime l) (mexptime l) ∈ evs
               /\ EvScale (getMaskedImage masterChunkExposure)
                          (timeScale (exptime l) (mexptime l)) ∈ evs)
           /\ (float_ne (exptime l) (mexptime l) = false ->
               forall a b, EvDivide a b ∉ evs)
           /\ (is_zero (mexptime l) = true ->
               float_ne (exptime l) (mexptime l) = true ->
               is_inf_or_nan (float_div (exptime l) (mexptime l)) = true
               /\ is_inf_or_nan (timeScale (exptime l) (mexptime l)) = true)
           /\ (is_zero (exptime l) = true -> is_zero (mexptime l) = true ->
               float_ne (exptime l) (mexptime l) = false)).
Proof.
  intros Run.
  destruct (correct_cases st chunkExposure masterChunkExposure isrPolicy datasetPolicy)
    as [(cd & md & cdp & mdp & dp & ct & l & P & Run')|(evs & e & Run' & F & _)];
    rewrite Run in Run'; injection Run' as -> ->.
  - pose proof P as [[[Hcd Hmd Hcdp Hgate Hsize Hpol Htype] Hmdp Hid] He Hme Hds Hl].
    destruct (passes_handles _ _ _ _ _ _ _ _ _ _ _ P) as (Lc & Lm & Lcm & Lmm).
    exists (validation_log ct (mi_metadata cd) (mi_metadata md) ++ scaling_log l
            ++ provenance_log (getMaskedImage chunkExposure) (mi_metadata cd) (length cdp)).
    split; [exact (corrected_log _ _ _ _ _ _ _ _ _ _ _ P)|].
    assert (D : forall a b,
               EvDivide a b ∈ validation_log ct (mi_metadata cd) (mi_metadata md)
                              ++ scaling_log l
                              ++ provenance_log (getMaskedImage chunkExposure)
                                                (mi_metadata cd) (length cdp) ->
               float_ne (exptime l) (mexptime l) = true
               /\ a = exptime l /\ b = mexptime l).
    { intros a b. unfold validation_log, identity_reads, scaling_log, provenance_log.
      destruct (identity_key ct), (float_ne (exptime l) (mexptime l)),
        (double_to_bool (darkScale l));
        rewrite ?elem_of_app, ?elem_of_cons, ?elem_of_nil;
        intros H; repeat (destruct H as [H|H]); try discriminate; try contradiction;
        now injection H as -> ->. }
    split.
    + intros a b H. apply D in H as (N & -> & ->). split; [exact N|].
      unfold lookup_property, metadata_of. now rewrite Hcd, Hcdp, Hmd, Hmdp.
    + intros cd0 md0 cdp0 mdp0 dp0 ct0 l0 P0.
      assert (El : exptime l0 = exptime l /\ mexptime l0 = mexptime l).
      { destruct P0 as [[[Hcd0 Hmd0 Hcdp0 _ _ _ _] Hmdp0 _] He0 Hme0 _ _].
        rewrite Hcd in Hcd0. injection Hcd0 as <-. rewrite Hmd in Hmd0. injection Hmd0 as <-.
        rewrite Hcdp in Hcdp0. injection Hcdp0 as <-.
        rewrite Hmdp in Hmdp0. injection Hmdp0 as <-.
        rewrite He in He0. rewrite Hme in Hme0. split; congruence. }
      destruct El as [-> ->]. split; [reflexivity|]. split; [|split; [|split]].
      * intros N. unfold scaling_log. rewrite N, Lm.
        rewrite !elem_of_app, !elem_of_cons. split; right; left; tauto.
      * intros N a b H. apply D in H as (N' & _). congruence.
      * apply float_div_by_zero.
      * apply float_zeros_are_equal.
  - exists evs. split; [reflexivity|]. split.
    + intros a b H. now apply (is_read_not_division evs a b F) in H.
    + intros cd md cdp mdp dp ct l P.
      pose proof (correct_run st _ _ _ datasetPolicy _ _ _ _ _ _ _ P) as Run'.
      rewrite Run in Run'. discriminate.
Qed.

Lemma division_only_when_exptimes_differ_witness :
  lookup_property Sample.st_30_0 Sample.master "EXPTIME" = Some (AnyFloat (S754_zero false))
  /\ snd (darkCurrentCorrectChunkExposure Sample.chunk Sample.master Sample.isr_amp_0
                                          Sample.noPolicy Sample.st_30_0) = Ok tt
  /\ is_inf_or_nan (timeScale (Sample.f 30) (Sample.f 0)) = true.
Proof.
  destruct (darkCurrentCorrectChunkExposure Sample.chunk Sample.master Sample.isr_amp_0
              Sample.noPolicy Sample.st_30_0) as [st' r] eqn:Run.
  destruct (division_only_when_exptimes_differ _ _ _ _ _ _ _ Run) as (evs & _ & _ & H).
  assert (P : passes Sample.st_30_0 Sample.chunk Sample.master Sample.isr_amp_0
                Sample.chunk_cell Sample.master_cell (Sample.md 3 30) (Sample.md 3 0)
                (mkPolicy [("chunkType", "amp")] [("darkScale", Sample.d 0)] []) "amp"
                (mkLocals 1%positive 11%positive 2%positive 12%positive
                          (Sample.f 30) (Sample.f 0) (Sample.d 0))).
  { split; [split; [split; reflexivity|reflexivity|]|reflexivity..].
    exists 3. split; reflexivity. }
  destruct (H _ _ _ _ _ _ _ P) as (Hr & _ & _ & Z & _).
  split; [reflexivity|]. split; [exact Hr|].
  exact (proj2 (Z eq_refl eq_refl)).
Defined.

(** ** Typed metadata *)

(** C10: the value under a key is taken with a cast to exactly one type,
    [int] for the identifiers and [float] for the exposure times.  Reading
    a field throws [NotFound] (the MissingMetadata kind) exactly when the
    key is absent, returns the value when it was stored with the type asked
    for, and throws [bad_any_cast] when it was stored with any other type.
    Past the two gates, an identifier or an exposure time stored with
    another type makes the whole function throw [bad_any_cast], which is
    none of the five kinds of the specification. *)
Theorem metadata_casts_are_exact
        {ImageT MaskT : Type} {ops : ImageOps ImageT MaskT}
        (st : state ImageT MaskT) (chunkExposure masterChunkExposure : Exposure)
        (isrPolicy datasetPolicy : Policy)
        (cd md : MaskedImageData ImageT MaskT) (cdp mdp : DataProperty)
        (darkPolicy : Policy) (chunkType : string) :
  reaches_identity st chunkExposure masterChunkExposure isrPolicy cd md cdp
                   darkPolicy chunkType ->
  properties st !! mi_metadata md = Some mdp ->
  let run := darkCurrentCorrectChunkExposure chunkExposure masterChunkExposure
               isrPolicy datasetPolicy st in
  (forall m dp key side (s : state ImageT MaskT),
      properties s !! m = Some dp ->
      snd (getField m key any_cast_int side s)
      = match assoc key dp with
        | None => Throw (NotFound (could_not_get key side))
        | Some (AnyInt i) => Ok i
        | Some _ => Throw BadAnyCast
        end
      /\ snd (getField m key any_cast_float side s)
         = match assoc key dp with
           | None => Throw (NotFound (could_not_get key side))
           | Some (AnyFloat x) => Ok x
           | Some _ => Throw BadAnyCast
           end)
  /\ (forall key v,
         identity_key chunkType = Some key ->
         assoc key cdp = Some v -> (forall i, v <> AnyInt i) ->
         snd run = Throw BadAnyCast)
  /\ (forall key i w,
         identity_key chunkType = Some key ->
         assoc key cdp = Some (AnyInt i) ->
         assoc key mdp = Some w -> (forall j, w <> AnyInt j) ->
         snd run = Throw BadAnyCast)
  /\ (forall v,
         identity_matches chunkType cdp mdp ->
         assoc "EXPTIME" cdp = Some v -> (forall x, v <> AnyFloat x) ->
         snd run = Throw BadAnyCast)
  /\ (forall x w,
         identity_matches chunkType cdp mdp ->
         assoc "EXPTIME" cdp = Some (AnyFloat x) ->
         assoc "EXPTIME" mdp = Some w -> (forall y, w <> AnyFloat y) ->
         snd run = Throw BadAnyCast)
  /\ error_kind BadAnyCast = None.
Proof.
  intros R Hmdp run.
  pose proof R as [Hcd Hmd Hcdp Hgate Hsize Hpol Htype].
  set (st1 := logged [EvFindUnique (mi_metadata cd) "ISR_DARKCOR";
                      EvGetPolicy "darkPolicy"; EvGetString "chunkType"] st).
  assert (Hcdp1 : properties st1 !! mi_metadata cd = Some cdp) by exact Hcdp.
  assert (Hmdp1 : properties st1 !! mi_metadata md = Some mdp) by exact Hmdp.
  split; [|split; [|split; [|split; [|split]]]].
  - intros m dp key side s H. rewrite !(getField_run m key _ side dp s H).
    destruct (assoc key dp) as [[]|]; now split.
  - intros key v K E N. subst run.
    rewrite (run_from_identity st _ _ _ datasetPolicy _ _ _ _ _ R).
    fold st1. rewrite checkSamePixels_key, K.
    pose proof (checkSameId_run key _ _ cdp mdp st1 Hcdp1 Hmdp1) as C.
    rewrite E in C. destruct v; try (now destruct (N i)); simpl in C; now step C.
  - intros key i w K E E' N. subst run.
    rewrite (run_from_identity st _ _ _ datasetPolicy _ _ _ _ _ R).
    fold st1. rewrite checkSamePixels_key, K.
    pose proof (checkSameId_run key _ _ cdp mdp st1 Hcdp1 Hmdp1) as C.
    rewrite E, E' in C. simpl in C.
    destruct w; try (now destruct (N i0)); simpl in C; now step C.
  - intros v I E N. subst run.
    rewrite (run_from_scaling st _ _ _ datasetPolicy _ _ _ _ _ R mdp Hmdp I).
    set (st2 := logged _ st).
    pose proof (getScalingInformation_run darkPolicy (getMaskedImage chunkExposure)
                  (mi_metadata cd) (getMaskedImage masterChunkExposure) (mi_metadata md)
                  cdp mdp st2 Hcdp Hmdp) as G.
    rewrite E in G. destruct v; try (now destruct (N f)); simpl in G; now step G.
  - intros x w I E E' N. subst run.
    rewrite (run_from_scaling st _ _ _ datasetPolicy _ _ _ _ _ R mdp Hmdp I).
    set (st2 := logged _ st).
    pose proof (getScalingInformation_run darkPolicy (getMaskedImage chunkExposure)
                  (mi_metadata cd) (getMaskedImage masterChunkExposure) (mi_metadata md)
                  cdp mdp st2 Hcdp Hmdp) as G.
    rewrite E, E' in G. simpl in G.
    destruct w; try (now destruct (N f)); simpl in G; now step G.
  - reflexivity.
Qed.

Lemma metadata_casts_are_exact_witness :
  lookup_property Sample.st_double_exptime Sample.chunk "EXPTIME"
  = Some (AnyDouble (Sample.d 30))
  /\ snd (darkCurrentCorrectChunkExposure Sample.chunk Sample.master Sample.isr_amp_0
                                          Sample.noPolicy Sample.st_double_exptime)
     = Throw BadAnyCast
  /\ error_kind BadAnyCast = None.
Proof.
  assert (R : reaches_identity Sample.st_double_exptime Sample.chunk Sample.master
                Sample.isr_amp_0 Sample.chunk_cell Sample.master_cell
                [("AMPID", AnyInt 3); ("EXPTIME", AnyDouble (Sample.d 30))]
                (mkPolicy [("chunkType", "amp")] [("darkScale", Sample.d 0)] []) "amp")
    by (split; reflexivity).
  destruct (metadata_casts_are_exact Sample.st_double_exptime Sample.chunk Sample.master
              Sample.isr_amp_0 Sample.noPolicy Sample.chunk_cell Sample.master_cell
              _ (Sample.md 3 15) _ "amp" R eq_refl) as (_ & _ & _ & H & _ & K).
  split; [reflexivity|]. split; [|exact K].
  apply (H (AnyDouble (Sample.d 30))).
  - exists 3. split; reflexivity.
  - reflexivity.
  - discriminate.
Defined.

(** The other example: an [AMPID] stored as a string. *)
Example string_ampid_is_a_bad_cast :
  lookup_property Sample.st_string_ampid Sample.chunk "AMPID" = Some (AnyString "3")
  /\ snd (darkCurrentCorrectChunkExposure Sample.chunk Sample.master Sample.isr_amp_0
                                          Sample.noPolicy Sample.st_string_ampid)
     = Throw BadAnyCast.
Proof. vm_compute. split; reflexivity. Qed.

(** * Further properties of the function *)

(** ** Outcomes *)

Section Outcomes.
Context {ImageT MaskT : Type} {ops : ImageOps ImageT MaskT}.

Local Abbreviation St := (state ImageT MaskT).
Local Abbreviation Cell := (MaskedImageData ImageT MaskT).

Variables (st : St) (chunkExposure masterChunkExposure : Exposure).
Variables (isrPolicy datasetPolicy : Policy).
Variables (cd md : Cell) (cdp mdp : DataProperty).

Hypothesis Hcd : images st !! getMaskedImage chunkExposure = Some cd.
Hypothesis Hmd : images st !! getMaskedImage masterChunkExposure = Some md.
Hypothesis Hcdp : properties st !! mi_metadata cd = Some cdp.
Hypothesis Hmdp : properties st !! mi_metadata md = Some mdp.

Local Abbreviation run :=
  (darkCurrentCorrectChunkExposure chunkExposure masterChunkExposure
                                   isrPolicy datasetPolicy st).
Local Abbreviation gate := (EvFindUnique (mi_metadata cd) "ISR_DARKCOR").

Lemma validate_no_chunkType darkPolicy :
  assoc "ISR_DARKCOR" cdp = None -> sizes_differ cd md = false ->
  assoc "darkPolicy" (policy_policies isrPolicy) = Some darkPolicy ->
  assoc "chunkType" (policy_strings darkPolicy) = None ->
  validate chunkExposure masterChunkExposure isrPolicy datasetPolicy st
  = (logged [gate; EvGetPolicy "darkPolicy"; EvGetString "chunkType"] st,
     Throw (PolicyNameNotFound "chunkType")).
Proof.
  intros Hgate Hsize Hpol Htype. unfold validate.
  step (getMetadata_run _ cd st Hcd). step (getMetadata_run _ md st Hmd).
  pose proof (checkNotRunPreviously_run (mi_metadata cd) cdp st Hcdp) as R.
  rewrite Hgate in R. step R.
  pose proof (checkSameSize_run _ _ cd md (logged [gate] st) Hcd Hmd) as R'.
  rewrite Hsize in R'. step R'.
  pose proof (getPolicy_run isrPolicy "darkPolicy" (logged [gate] st)) as P.
  rewrite Hpol, logged_logged in P. step P.
  pose proof (getString_run darkPolicy "chunkType"
                (logged ([gate] ++ [EvGetPolicy "darkPolicy"]) st)) as S.
  rewrite Htype, logged_logged in S. now step S.
Qed.

Lemma run_throws evs e :
  validate chunkExposure masterChunkExposure isrPolicy datasetPolicy st
  = (logged evs st, Throw e) ->
  run = (logged evs st, Throw e).
Proof. intros V. unfold darkCurrentCorrectChunkExposure. now step V. Qed.

Local Ltac thrown G Run :=
  revert Run; step G; intros Run; injection Run as <- <-;
  try reflexivity.

(** In a store where both exposures and their metadata exist, a run that
    throws raises one of the exceptions of [is_raised_by_function]. *)
Lemma thrown_is_raised_by_function st' e :
  run = (st', Throw e) -> is_raised_by_function e = true.
Proof.
  intros Run.
  destruct (assoc "ISR_DARKCOR" cdp) as [v|] eqn:Hgate.
  { rewrite (run_throws _ _ (validate_already_run st _ _ isrPolicy datasetPolicy
                               cd md cdp Hcd Hmd Hcdp v Hgate)) in Run.
    now injection Run as <- <-. }
  destruct (sizes_differ cd md) eqn:Hsize.
  { rewrite (run_throws _ _ (validate_size_mismatch st _ _ isrPolicy datasetPolicy
                               cd md cdp Hcd Hmd Hcdp Hgate Hsize)) in Run.
    now injection Run as <- <-. }
  destruct (assoc "darkPolicy" (policy_policies isrPolicy)) as [dp|] eqn:Hpol.
  2:{ rewrite (run_throws _ _ (validate_no_darkPolicy st _ _ isrPolicy datasetPolicy
                                 cd md cdp Hcd Hmd Hcdp Hgate Hsize Hpol)) in Run.
      now injection Run as <- <-. }
  destruct (assoc "chunkType" (policy_strings dp)) as [ct|] eqn:Htype.
  2:{ rewrite (run_throws _ _ (validate_no_chunkType dp Hgate Hsize Hpol Htype)) in Run.
      now injection Run as <- <-. }
  assert (R : reaches_identity st chunkExposure masterChunkExposure isrPolicy
                               cd md cdp dp ct) by now split.
  assert (Scaling : forall evs,
             (l <- getScalingInformation dp (getMaskedImage chunkExposure) (mi_metadata cd)
                     (getMaskedImage masterChunkExposure) (mi_metadata md) ;;
              scaleAndSubtract l ;;; recordProvenance l)%cxx (logged evs st)
             = (st', Throw e) ->
             identity_matches ct cdp mdp ->
             is_raised_by_function e = true).
  { intros evs Run' Hid.
    pose proof (getScalingInformation_run dp (getMaskedImage chunkExposure) (mi_metadata cd)
                  (getMaskedImage masterChunkExposure) (mi_metadata md) cdp mdp
                  (logged evs st) Hcdp Hmdp) as G.
    destruct (assoc "EXPTIME" cdp) as [v|] eqn:He; [|now thrown G Run'].
    destruct v as [|? |x|? |?]; simpl in G; try (now thrown G Run').
    destruct (assoc "EXPTIME" mdp) as [w|] eqn:Hme; [|now thrown G Run'].
    destruct w as [|? |y|? |?]; simpl in G; try (now thrown G Run').
    destruct (assoc "darkScale" (policy_doubles dp)) as [ds|] eqn:Hds;
      [|now thrown G Run'].
    assert (P : passes st chunkExposure masterChunkExposure isrPolicy cd md cdp mdp dp ct
                  (mkLocals (getMaskedImage chunkExposure) (mi_metadata cd)
                            (getMaskedImage masterChunkExposure) (mi_metadata md) x y ds))
      by now repeat split.
    pose proof (correct_run st _ _ _ datasetPolicy _ _ _ _ _ _ _ P) as Ok'.
    rewrite Run in Ok'. discriminate. }
  rewrite (run_from_identity st _ _ _ datasetPolicy _ _ _ _ _ R) in Run.
  set (st1 := logged _ st) in Run.
  rewrite checkSamePixels_key in Run.
  destruct (identity_key ct) as [key|] eqn:Hkey.
  - assert (K : key = "AMPID" \/ key = "CCDID").
    { unfold identity_key in Hkey.
      destruct (String.eqb ct "amp"); [injection Hkey as <-; now left|].
      destruct (String.eqb ct "ccd"); [injection Hkey as <-; now right|discriminate]. }
    pose proof (checkSameId_run key (mi_metadata cd) (mi_metadata md) cdp mdp st1
                  Hcdp Hmdp) as C.
    destruct (assoc key cdp) as [v|] eqn:Ek.
    2:{ revert Run. step C. intros Run. injection Run as <- <-.
        destruct K as [-> | ->]; reflexivity. }
    destruct v as [|i|? |? |?]; simpl in C; try (now thrown C Run).
    destruct (assoc key mdp) as [w|] eqn:Ek'.
    2:{ revert Run. step C. intros Run. injection Run as <- <-.
        destruct K as [-> | ->]; reflexivity. }
    destruct w as [|j|? |? |?]; simpl in C; try (now thrown C Run).
    destruct (i =? j) eqn:Eq; simpl in C; [|now thrown C Run].
    revert Run. step C. intros Run.
    apply Z.eqb_eq in Eq as <-. subst st1. rewrite logged_logged in Run.
    apply (Scaling _ Run). unfold identity_matches. rewrite Hkey. now exists i.
  - unfold bind at 1 in Run. unfold ret in Run.
    apply (Scaling _ Run). unfold identity_matches. now rewrite Hkey.
Qed.

End Outcomes.

(** ** One correction after another *)

Section Transfer.
Context {ImageT MaskT : Type} {ops : ImageOps ImageT MaskT}.

Local Abbreviation St := (state ImageT MaskT).
Local Abbreviation Cell := (MaskedImageData ImageT MaskT).

(** What the validation looks at: a store with the same chunk cell and
    metadata, and a master cell of the same size and metadata, passes
    too. *)
Lemma passes_transfer (st st1 : St) chunkExposure masterChunkExposure isrPolicy
      (cd md md' : Cell) cdp mdp darkPolicy chunkType l :
  passes st chunkExposure masterChunkExposure isrPolicy cd md cdp mdp darkPolicy
         chunkType l ->
  images st1 !! getMaskedImage chunkExposure = Some cd ->
  images st1 !! getMaskedImage masterChunkExposure = Some md' ->
  mi_metadata md' = mi_metadata md ->
  mi_cols md' = mi_cols md -> mi_rows md' = mi_rows md ->
  properties st1 !! mi_metadata cd = Some cdp ->
  properties st1 !! mi_metadata md = Some mdp ->
  passes st1 chunkExposure masterChunkExposure isrPolicy cd md' cdp mdp darkPolicy
         chunkType l.
Proof.
  intros [[[Hcd Hmd Hcdp Hgate Hsize Hpol Htype] Hmdp Hid] He Hme Hds Hl]
         Hcd1 Hmd1 Hm Hc Hr Hcdp1 Hmdp1.
  split; [split; [split|..]|..]; try assumption.
  - unfold sizes_differ in *. now rewrite Hc, Hr.
  - now rewrite Hm.
  - now rewrite Hm.
Qed.

Variables (st : St) (chunk1 master1 chunk2 master2 : Exposure).
Variables (isr1 isr2 : Policy).
Variables (cd1 md1 cd2 md2 : Cell) (cdp1 mdp1 cdp2 mdp2 : DataProperty).
Variables (dp1 dp2 : Policy) (ct1 ct2 : string) (l1 l2 : locals).

Hypothesis P1 : passes st chunk1 master1 isr1 cd1 md1 cdp1 mdp1 dp1 ct1 l1.
Hypothesis P2 : passes st chunk2 master2 isr2 cd2 md2 cdp2 mdp2 dp2 ct2 l2.

Hypothesis chunk2_fresh : getMaskedImage chunk2 <> getMaskedImage chunk1
                          /\ getMaskedImage chunk2 <> getMaskedImage master1.
Hypothesis chunk1_fresh : getMaskedImage master2 <> getMaskedImage chunk1.
Hypothesis metadata_fresh : mi_metadata cd2 <> mi_metadata cd1
                            /\ mi_metadata md2 <> mi_metadata cd1.

Local Abbreviation st1 := (corrected_store st l1 cd1 md1 cdp1 ct1).

Lemma after_properties n :
  n <> mi_metadata cd1 -> properties st1 !! n = properties st !! n.
Proof.
  intros N. rewrite (corrected_properties _ _ _ _ _ _ _ _ _ _ _ P1).
  now apply lookup_insert_ne.
Qed.

(** The second pair has another master: it passes after the first
    correction as it did before. *)
Lemma passes_after_other :
  getMaskedImage master2 <> getMaskedImage master1 ->
  passes st1 chunk2 master2 isr2 cd2 md2 cdp2 mdp2 dp2 ct2 l2.
Proof.
  intros N. destruct chunk2_fresh as [Nc Nm], metadata_fresh as [Ncm Nmm].
  pose proof P2 as [[[Hcd Hmd Hcdp _ _ _ _] Hmdp _] _ _ _ _].
  apply (passes_transfer st st1 _ _ _ cd2 md2 md2 _ _ _ _ _ P2); try reflexivity.
  - now rewrite (corrected_others _ _ _ _ _ _ _ _ _ _ _ P1 _ Nc Nm).
  - now rewrite (corrected_others _ _ _ _ _ _ _ _ _ _ _ P1 _ chunk1_fresh N).
  - now rewrite after_properties.
  - now rewrite after_properties.
Qed.

(** The second pair has the master of the first: it passes with the master
    as the first correction left it. *)
Lemma passes_after_shared :
  getMaskedImage master2 = getMaskedImage master1 ->
  md2 = md1
  /\ passes st1 chunk2 master2 isr2 cd2
            (scaled_master (exptime l1) (mexptime l1) (darkScale l1) md1)
            cdp2 mdp2 dp2 ct2 l2.
Proof.
  intros E. destruct chunk2_fresh as [Nc Nm], metadata_fresh as [Ncm Nmm].
  pose proof P2 as [[[Hcd Hmd Hcdp _ _ _ _] Hmdp _] _ _ _ _].
  pose proof P1 as [[[_ Hmd1 _ _ _ _ _] _ _] _ _ _ _].
  assert (M : md2 = md1) by (rewrite E, Hmd1 in Hmd; now injection Hmd).
  split; [exact M|].
  assert (N1 : getMaskedImage chunk1 <> getMaskedImage master1) by congruence.
  apply (passes_transfer st st1 _ _ _ cd2 md2 _ _ _ _ _ _ P2).
  - now rewrite (corrected_others _ _ _ _ _ _ _ _ _ _ _ P1 _ Nc Nm).
  - rewrite E. exact (corrected_master _ _ _ _ _ _ _ _ _ _ _ P1 N1).
  - rewrite M. apply scaled_master_metadata.
  - rewrite M. apply scaled_master_size.
  - rewrite M. apply scaled_master_size.
  - now rewrite after_properties.
  - now rewrite after_properties.
Qed.

End Transfer.

(** ** When the function returns, and what it leaves when it does not *)

(** X1: the function returns exactly when the validation of lines 64-170
    passes: both exposures and their metadata exist, the chunk metadata has
    no [ISR_DARKCOR], the sizes agree, [darkPolicy] and its [chunkType] are
    configured, the identifiers the chunk type asks for are equal integers,
    both [EXPTIME]s are [float]s and [darkScale] is configured.  Nothing
    after line 170 can fail, and the store it returns to is
    [corrected_store]. *)
Theorem returns_iff_validation_passes
        {ImageT MaskT : Type} {ops : ImageOps ImageT MaskT}
        (st st' : state ImageT MaskT) (chunkExposure masterChunkExposure : Exposure)
        (isrPolicy datasetPolicy : Policy) :
  darkCurrentCorrectChunkExposure chunkExposure masterChunkExposure
                                  isrPolicy datasetPolicy st = (st', Ok tt)
  <-> exists cd md cdp mdp darkPolicy chunkType l,
      passes st chunkExposure masterChunkExposure isrPolicy cd md cdp mdp
             darkPolicy chunkType l
      /\ st' = corrected_store st l cd md cdp chunkType.
Proof.
  split.
  - apply correct_inv.
  - intros (cd & md & cdp & mdp & dp & ct & l & P & ->).
    exact (correct_run st _ _ _ datasetPolicy _ _ _ _ _ _ _ P).
Qed.

(** X2: a run that throws has written nothing: every image and every
    metadata node is as before, and the calls it made are lookups in the
    metadata and the policy.  Every [throw] of the function comes before
    its first write (line 176). *)
Theorem throwing_run_writes_nothing
        {ImageT MaskT : Type} {ops : ImageOps ImageT MaskT}
        (st st' : state ImageT MaskT) (chunkExposure masterChunkExposure : Exposure)
        (isrPolicy datasetPolicy : Policy) (e : exn) :
  darkCurrentCorrectChunkExposure chunkExposure masterChunkExposure
                                  isrPolicy datasetPolicy st = (st', Throw e) ->
  images st' = images st
  /\ properties st' = properties st
  /\ exists evs, log st' = log st ++ evs
                 /\ Forall (fun ev => is_mutation ev = false) evs.
Proof.
  intros Run. apply failure_reads in Run as (evs & -> & F).
  split; [reflexivity|split; [reflexivity|]]. exists evs. split; [reflexivity|].
  eapply Forall_impl; [exact F|]. intros [] H; solve [reflexivity | destruct H].
Qed.

Lemma throwing_run_writes_nothing_witness :
  exists st' e,
    darkCurrentCorrectChunkExposure Sample.chunk Sample.master Sample.isr_amp_0
                                    Sample.noPolicy Sample.st_amp_3_7 = (st', Throw e)
    /\ e = RangeError not_same_pixels
    /\ images st' = images Sample.st_amp_3_7
    /\ properties st' = properties Sample.st_amp_3_7.
Proof.
  eexists _, _.
  assert (Run : darkCurrentCorrectChunkExposure Sample.chunk Sample.master Sample.isr_amp_0
                  Sample.noPolicy Sample.st_amp_3_7
                = (logged [EvFindUnique 11 "ISR_DARKCOR"; EvGetPolicy "darkPolicy";
                           EvGetString "chunkType"; EvFindUnique 11 "AMPID";
                           EvFindUnique 12 "AMPID"] Sample.st_amp_3_7,
                   Throw (RangeError not_same_pixels)))
    by (vm_compute; reflexivity).
  split; [exact Run|]. split; [reflexivity|].
  destruct (throwing_run_writes_nothing _ _ _ _ _ _ _ Run) as (I & Pr & _).
  split; [exact I|exact Pr].
Defined.

(** X3: on two exposures that exist with their metadata, the function
    throws nothing but the exceptions of its [\throw] documentation with the
    texts of lines 83, 96, 111-165, the policy's exception for [darkPolicy],
    [chunkType] or [darkScale], and [bad_any_cast].  In particular it never
    dereferences a null pointer: the [darkCorProp] of line 193, which
    line 195 uses unchecked, is never null. *)
Theorem thrown_exceptions
        {ImageT MaskT : Type} {ops : ImageOps ImageT MaskT}
        (st st' : state ImageT MaskT) (chunkExposure masterChunkExposure : Exposure)
        (isrPolicy datasetPolicy : Policy)
        (cd md : MaskedImageData ImageT MaskT) (cdp mdp : DataProperty) (e : exn) :
  images st !! getMaskedImage chunkExposure = Some cd ->
  images st !! getMaskedImage masterChunkExposure = Some md ->
  properties st !! mi_metadata cd = Some cdp ->
  properties st !! mi_metadata md = Some mdp ->
  darkCurrentCorrectChunkExposure chunkExposure masterChunkExposure
                                  isrPolicy datasetPolicy st = (st', Throw e) ->
  is_raised_by_function e = true /\ e <> NullDereference.
Proof.
  intros Hcd Hmd Hcdp Hmdp Run.
  pose proof (thrown_is_raised_by_function st _ _ _ datasetPolicy cd md cdp mdp
                Hcd Hmd Hcdp Hmdp st' e Run) as T.
  split; [exact T|]. intros ->. discriminate.
Qed.

Lemma thrown_exceptions_witness :
  exists st',
    darkCurrentCorrectChunkExposure Sample.chunk Sample.master Sample.isr_amp_0
                                    Sample.noPolicy Sample.st_string_ampid
    = (st', Throw BadAnyCast)
    /\ is_raised_by_function BadAnyCast = true.
Proof.
  eexists.
  assert (Run : darkCurrentCorrectChunkExposure Sample.chunk Sample.master Sample.isr_amp_0
                  Sample.noPolicy Sample.st_string_ampid
                = (logged [EvFindUnique 11 "ISR_DARKCOR"; EvGetPolicy "darkPolicy";
                           EvGetString "chunkType"; EvFindUnique 11 "AMPID"]
                          Sample.st_string_ampid,
                   Throw BadAnyCast))
    by (vm_compute; reflexivity).
  split; [exact Run|].
  apply (thrown_exceptions Sample.st_string_ampid _ Sample.chunk Sample.master
           Sample.isr_amp_0 Sample.noPolicy Sample.chunk_cell Sample.master_cell
           [("AMPID", AnyString "3"); ("EXPTIME", AnyFloat (Sample.f 30))]
           (Sample.md 3 15) BadAnyCast
           eq_refl eq_refl eq_refl eq_refl Run).
Defined.

(** ** Missing configuration and missing exposure times *)

(** X4: a chunk that passes the idempotency gate and the size check meets
    the configuration next (lines 102-103).  Without [darkPolicy] in the ISR
    policy, or without [chunkType] in [darkPolicy], the policy's exception
    for that key leaves the function, before any identifier or exposure time
    has been looked up in the metadata, and whatever the metadata hold. *)
Theorem missing_configuration_is_reported
        {ImageT MaskT : Type} {ops : ImageOps ImageT MaskT}
        (st : state ImageT MaskT) (chunkExposure masterChunkExposure : Exposure)
        (isrPolicy datasetPolicy : Policy)
        (cd md : MaskedImageData ImageT MaskT) (cdp : DataProperty) :
  images st !! getMaskedImage chunkExposure = Some cd ->
  images st !! getMaskedImage masterChunkExposure = Some md ->
  properties st !! mi_metadata cd = Some cdp ->
  assoc "ISR_DARKCOR" cdp = None ->
  sizes_differ cd md = false ->
  let run := darkCurrentCorrectChunkExposure chunkExposure masterChunkExposure
                                             isrPolicy datasetPolicy st in
  let gate := EvFindUnique (mi_metadata cd) "ISR_DARKCOR" in
  match assoc "darkPolicy" (policy_policies isrPolicy) with
  | None =>
      run = (logged [gate; EvGetPolicy "darkPolicy"] st,
             Throw (PolicyNameNotFound "darkPolicy"))
  | Some darkPolicy =>
      assoc "chunkType" (policy_strings darkPolicy) = None ->
      run = (logged [gate; EvGetPolicy "darkPolicy"; EvGetString "chunkType"] st,
             Throw (PolicyNameNotFound "chunkType"))
  end.
Proof.
  intros Hcd Hmd Hcdp Hgate Hsize run gate. subst run.
  destruct (assoc "darkPolicy" (policy_policies isrPolicy)) as [dp|] eqn:Hpol.
  - intros Htype. apply (run_throws st _ _ _ datasetPolicy).
    exact (validate_no_chunkType st _ _ _ datasetPolicy cd md cdp Hcd Hmd Hcdp dp
             Hgate Hsize Hpol Htype).
  - apply (run_throws st _ _ _ datasetPolicy).
    exact (validate_no_darkPolicy st _ _ _ datasetPolicy cd md cdp Hcd Hmd Hcdp
             Hgate Hsize Hpol).
Qed.

Lemma missing_configuration_is_reported_witness :
  darkCurrentCorrectChunkExposure Sample.chunk Sample.master Sample.noPolicy
                                  Sample.noPolicy Sample.st_30_15
  = (logged [EvFindUnique 11 "ISR_DARKCOR"; EvGetPolicy "darkPolicy"] Sample.st_30_15,
     Throw (PolicyNameNotFound "darkPolicy"))
  /\ darkCurrentCorrectChunkExposure
       Sample.chunk Sample.master
       (mkPolicy [] [] [("darkPolicy", mkPolicy [] [("darkScale", Sample.d 0)] [])])
       Sample.noPolicy Sample.st_30_15
     = (logged [EvFindUnique 11 "ISR_DARKCOR"; EvGetPolicy "darkPolicy";
                EvGetString "chunkType"] Sample.st_30_15,
        Throw (PolicyNameNotFound "chunkType")).
Proof.
  split.
  - exact (missing_configuration_is_reported
             Sample.st_30_15 Sample.chunk Sample.master Sample.noPolicy Sample.noPolicy
             Sample.chunk_cell Sample.master_cell (Sample.md 3 30)
             eq_refl eq_refl eq_refl eq_refl eq_refl).
  - exact (missing_configuration_is_reported
             Sample.st_30_15 Sample.chunk Sample.master
             (mkPolicy [] [] [("darkPolicy", mkPolicy [] [("darkScale", Sample.d 0)] [])])
             Sample.noPolicy
             Sample.chunk_cell Sample.master_cell (Sample.md 3 30)
             eq_refl eq_refl eq_refl eq_refl eq_refl eq_refl).
Defined.

(** X5: once the identity check is passed, the exposure times are looked
    up, the chunk's first (lines 152-166).  A chunk without [EXPTIME] is
    reported as [NotFound] with the text of line 157, and the master's
    metadata are not asked; a chunk with a [float] [EXPTIME] and a master
    without one is reported with the text of line 165.  In both cases
    [darkScale] has not been read: whether it is configured plays no part. *)
Theorem missing_exptime_is_reported
        {ImageT MaskT : Type} {ops : ImageOps ImageT MaskT}
        (st : state ImageT MaskT) (chunkExposure masterChunkExposure : Exposure)
        (isrPolicy datasetPolicy : Policy)
        (cd md : MaskedImageData ImageT MaskT) (cdp mdp : DataProperty)
        (darkPolicy : Policy) (chunkType : string) :
  reaches_scaling st chunkExposure masterChunkExposure isrPolicy cd md cdp mdp
                  darkPolicy chunkType ->
  let run := darkCurrentCorrectChunkExposure chunkExposure masterChunkExposure
                                             isrPolicy datasetPolicy st in
  let cm := mi_metadata cd in
  let mm := mi_metadata md in
  let checks := [EvFindUnique cm "ISR_DARKCOR"; EvGetPolicy "darkPolicy";
                 EvGetString "chunkType"] ++ identity_reads chunkType cm mm in
  match assoc "EXPTIME" cdp with
  | None =>
      run = (logged (checks ++ [EvFindUnique cm "EXPTIME"]) st,
             Throw (NotFound (could_not_get "EXPTIME" "Chunk")))
  | Some (AnyFloat _) =>
      assoc "EXPTIME" mdp = None ->
      run = (logged (checks ++ [EvFindUnique cm "EXPTIME"; EvFindUnique mm "EXPTIME"]) st,
             Throw (NotFound (could_not_get "EXPTIME" "Master Dark Current Chunk")))
  | Some _ =>
      run = (logged (checks ++ [EvFindUnique cm "EXPTIME"]) st, Throw BadAnyCast)
  end.
Proof.
  intros [R Hmdp Hid] run cm mm checks. subst run.
  pose proof R as [_ _ Hcdp _ _ _ _].
  rewrite (run_from_scaling st _ _ _ datasetPolicy _ _ _ _ _ R mdp Hmdp Hid).
  fold cm mm checks.
  pose proof (getScalingInformation_run darkPolicy (getMaskedImage chunkExposure) cm
                (getMaskedImage masterChunkExposure) mm cdp mdp
                (logged checks st) Hcdp Hmdp) as G.
  rewrite !logged_logged in G.
  destruct (assoc "EXPTIME" cdp) as [v|]; [|now step G].
  destruct v; simpl in G; try (now step G).
  intros Hme. rewrite Hme in G. now step G.
Qed.

Lemma missing_exptime_is_reported_witness :
  let st := Sample.store [("AMPID", AnyInt 3)] (Sample.md 3 15) in
  darkCurrentCorrectChunkExposure Sample.chunk Sample.master Sample.isr_amp_unscaled
                                  Sample.noPolicy st
  = (logged [EvFindUnique 11 "ISR_DARKCOR"; EvGetPolicy "darkPolicy";
             EvGetString "chunkType"; EvFindUnique 11 "AMPID"; EvFindUnique 12 "AMPID";
             EvFindUnique 11 "EXPTIME"] st,
     Throw (NotFound (could_not_get "EXPTIME" "Chunk"))).
Proof.
  intros st.
  assert (R : reaches_scaling st Sample.chunk Sample.master Sample.isr_amp_unscaled
                Sample.chunk_cell Sample.master_cell [("AMPID", AnyInt 3)] (Sample.md 3 15)
                (mkPolicy [("chunkType", "amp")] [] []) "amp").
  { split; [split; reflexivity|reflexivity|]. exists 3. split; reflexivity. }
  exact (missing_exptime_is_reported st Sample.chunk Sample.master Sample.isr_amp_unscaled
           Sample.noPolicy _ _ _ _ _ _ R).
Defined.

(** ** What a correction leaves alone *)

(** X6: a correction that returns has touched the image of the chunk, the
    image of the master and the metadata of the chunk, and nothing else:
    every other image and every other metadata node of the store are as
    before, and both exposures have the dimensions they had. *)
Theorem correction_is_local
        {ImageT MaskT : Type} {ops : ImageOps ImageT MaskT}
        (st st' : state ImageT MaskT) (chunkExposure masterChunkExposure : Exposure)
        (isrPolicy datasetPolicy : Policy) :
  darkCurrentCorrectChunkExposure chunkExposure masterChunkExposure
                                  isrPolicy datasetPolicy st = (st', Ok tt) ->
  (forall h, h <> getMaskedImage chunkExposure -> h <> getMaskedImage masterChunkExposure ->
             images st' !! h = images st !! h)
  /\ (exists cd, images st !! getMaskedImage chunkExposure = Some cd
                 /\ forall n, n <> mi_metadata cd ->
                              properties st' !! n = properties st !! n)
  /\ dimensions_of st' chunkExposure = dimensions_of st chunkExposure
  /\ dimensions_of st' masterChunkExposure = dimensions_of st masterChunkExposure.
Proof.
  intros Run. apply correct_inv in Run as (cd & md & cdp & mdp & dp & ct & l & P & ->).
  pose proof P as [[[Hcd Hmd _ _ _ _ _] _ _] _ _ _ _].
  destruct (corrected_chunk _ _ _ _ _ _ _ _ _ _ _ P) as (cd' & H' & _ & Hc & Hr & _).
  assert (Dc : dimensions_of (corrected_store st l cd md cdp ct) chunkExposure
               = dimensions_of st chunkExposure).
  { unfold dimensions_of. rewrite H', Hcd. simpl. now rewrite Hc, Hr. }
  split; [|split; [|split]].
  - intros h N N'. exact (corrected_others _ _ _ _ _ _ _ _ _ _ _ P h N N').
  - exists cd. split; [exact Hcd|]. intros n N.
    rewrite (corrected_properties _ _ _ _ _ _ _ _ _ _ _ P).
    now apply lookup_insert_ne.
  - exact Dc.
  - destruct (decide (getMaskedImage chunkExposure = getMaskedImage masterChunkExposure))
      as [E|N].
    + unfold dimensions_of in *. now rewrite <- E.
    + unfold dimensions_of.
      rewrite (corrected_master _ _ _ _ _ _ _ _ _ _ _ P N), Hmd. simpl.
      now destruct (scaled_master_size (exptime l) (mexptime l) (darkScale l) md)
        as [-> ->].
Qed.

Lemma correction_is_local_witness :
  darkCurrentCorrectChunkExposure Sample.chunk Sample.master Sample.isr_amp_0
                                  Sample.noPolicy Sample.st_30_15
  = (Sample.st_corrected, Ok tt)
  /\ images Sample.st_corrected !! 3%positive = Some Sample.chunk'_cell
  /\ properties Sample.st_corrected !! 12%positive = Some (Sample.md 3 15).
Proof.
  assert (Run : darkCurrentCorrectChunkExposure Sample.chunk Sample.master Sample.isr_amp_0
                  Sample.noPolicy Sample.st_30_15
                = (Sample.st_corrected, Ok tt))
    by (vm_compute; reflexivity).
  destruct (correction_is_local _ _ _ _ _ _ Run) as (I & (cd & Hcd & Pr) & _).
  split; [exact Run|]. split.
  - rewrite (I 3%positive) by discriminate. reflexivity.
  - injection Hcd as <-. rewrite (Pr 12%positive) by discriminate. reflexivity.
Defined.

(** X7: when the exposure times are equal and [darkScale] is zero, no
    scaling applies: the master is after the correction the very image it
    was, pixels, mask and variance, and the chunk pixels are the former ones
    minus the master's.  The run has made no division and no scaling. *)
Theorem unscaled_master_is_untouched
        {ImageT MaskT : Type} {ops : ImageOps ImageT MaskT}
        (st : state ImageT MaskT) (chunkExposure masterChunkExposure : Exposure)
        (isrPolicy datasetPolicy : Policy)
        (cd md : MaskedImageData ImageT MaskT) (cdp mdp : DataProperty)
        (darkPolicy : Policy) (chunkType : string) (l : locals) :
  passes st chunkExposure masterChunkExposure isrPolicy cd md cdp mdp
         darkPolicy chunkType l ->
  getMaskedImage chunkExposure <> getMaskedImage masterChunkExposure ->
  float_ne (exptime l) (mexptime l) = false ->
  double_to_bool (darkScale l) = false ->
  exists st',
    darkCurrentCorrectChunkExposure chunkExposure masterChunkExposure
                                    isrPolicy datasetPolicy st = (st', Ok tt)
    /\ images st' !! getMaskedImage masterChunkExposure = Some md
    /\ pixels_of st' chunkExposure
       = Some (zip_with pixel_sub (mi_image cd) (mi_image md))
    /\ exists evs, log st' = log st ++ evs
                   /\ Forall (fun ev => match ev with
                                        | EvDivide _ _ | EvScale _ _ => False
                                        | _ => True
                                        end) evs.
Proof.
  intros P N T D.
  exists (corrected_store st l cd md cdp chunkType).
  split; [exact (correct_run st _ _ _ datasetPolicy _ _ _ _ _ _ _ P)|].
  assert (M : scaled_master (exptime l) (mexptime l) (darkScale l) md = md)
    by (unfold scaled_master; now rewrite T, D).
  split; [|split].
  - rewrite (corrected_master _ _ _ _ _ _ _ _ _ _ _ P N). now rewrite M.
  - destruct (corrected_chunk _ _ _ _ _ _ _ _ _ _ _ P) as (cd' & H' & _ & _ & _ & Hsub).
    specialize (Hsub N). subst cd'. unfold pixels_of. rewrite H', M. reflexivity.
  - eexists. split; [exact (corrected_log _ _ _ _ _ _ _ _ _ _ _ P)|].
    unfold validation_log, identity_reads, scaling_log, provenance_log.
    rewrite T, D.
    destruct (identity_key chunkType);
      repeat first [ apply Forall_app; split | apply Forall_cons; split
                   | apply Forall_nil | exact I ].
Qed.

Lemma unscaled_master_is_untouched_witness :
  exists st',
    darkCurrentCorrectChunkExposure Sample.chunk Sample.master Sample.isr_amp_0
                                    Sample.noPolicy
                                    (Sample.store (Sample.md 3 30) (Sample.md 3 30))
    = (st', Ok tt)
    /\ images st' !! 2%positive = Some Sample.master_cell
    /\ pixels_of st' Sample.chunk
       = Some [Sample.d 99; Sample.d 198; Sample.d 297; Sample.d 396].
Proof.
  assert (P : passes (Sample.store (Sample.md 3 30) (Sample.md 3 30))
                Sample.chunk Sample.master Sample.isr_amp_0
                Sample.chunk_cell Sample.master_cell (Sample.md 3 30) (Sample.md 3 30)
                (mkPolicy [("chunkType", "amp")] [("darkScale", Sample.d 0)] []) "amp"
                (mkLocals 1%positive 11%positive 2%positive 12%positive
                          (Sample.f 30) (Sample.f 30) (Sample.d 0))).
  { split; [split; [split; reflexivity|reflexivity|]|reflexivity..].
    exists 3. split; reflexivity. }
  assert (N : getMaskedImage Sample.chunk <> getMaskedImage Sample.master) by discriminate.
  destruct (unscaled_master_is_untouched _ _ _ _ Sample.noPolicy _ _ _ _ _ _ _ P N
              eq_refl eq_refl) as (st' & Run & Hm & Pix & _).
  exists st'. split; [exact Run|]. split; [exact Hm|].
  rewrite Pix. vm_compute. reflexivity.
Defined.

(** ** Several corrections in one store *)

Lemma assoc_app_Some {V} key (xs ys : list (string * V)) v :
  assoc key xs = Some v -> assoc key (xs ++ ys) = Some v.
Proof.
  induction xs as [|[k w] xs IH]; simpl; [discriminate|].
  now destruct (String.eqb k key).
Qed.

(** As [passes_transfer], when the metadata of the master have grown
    without a change under the keys the function reads. *)
Lemma passes_transfer_metadata
      {ImageT MaskT : Type} (st st1 : state ImageT MaskT)
      chunkExposure masterChunkExposure isrPolicy
      (cd md md' : MaskedImageData ImageT MaskT) cdp mdp mdp' darkPolicy chunkType l :
  passes st chunkExposure masterChunkExposure isrPolicy cd md cdp mdp darkPolicy
         chunkType l ->
  images st1 !! getMaskedImage chunkExposure = Some cd ->
  images st1 !! getMaskedImage masterChunkExposure = Some md' ->
  mi_metadata md' = mi_metadata md ->
  mi_cols md' = mi_cols md -> mi_rows md' = mi_rows md ->
  properties st1 !! mi_metadata cd = Some cdp ->
  properties st1 !! mi_metadata md = Some mdp' ->
  (forall key v, assoc key mdp = Some v -> assoc key mdp' = Some v) ->
  passes st1 chunkExposure masterChunkExposure isrPolicy cd md' cdp mdp' darkPolicy
         chunkType l.
Proof.
  intros [[[Hcd Hmd Hcdp Hgate Hsize Hpol Htype] Hmdp Hid] He Hme Hds Hl]
         Hcd1 Hmd1 Hm Hc Hr Hcdp1 Hmdp1 Keeps.
  split; [split; [split|..]|..]; try assumption.
  - unfold sizes_differ in *. now rewrite Hc, Hr.
  - now rewrite Hm.
  - unfold identity_matches in *. destruct (identity_key chunkType); [|exact I].
    destruct Hid as (a & Ha & Ha'). exists a. split; [exact Ha|now apply Keeps].
  - now apply Keeps.
  - now rewrite Hm.
Qed.

(** X8: two distinct chunks that both pass the validation, corrected one
    after the other by the same master object, distinct from both.  The
    first correction returns.  When the two chunks share their metadata
    object, the second is rejected as corrected already (line 83), the
    first having written [ISR_DARKCOR] there.  Otherwise the second returns
    too, and as the first has scaled the master in place (lines 176 and
    185) the second chunk is decreased by the reference scaled twice over,
    by the factors of the first correction and then by those of the second;
    the master ends scaled by both. *)
Theorem shared_master_accumulates_scalings
        {ImageT MaskT : Type} {ops : ImageOps ImageT MaskT}
        (st : state ImageT MaskT) (chunk1 chunk2 masterChunkExposure : Exposure)
        (isr1 isr2 datasetPolicy : Policy)
        (cd1 cd2 md : MaskedImageData ImageT MaskT) (cdp1 cdp2 mdp : DataProperty)
        (dp1 dp2 : Policy) (ct1 ct2 : string) (l1 l2 : locals) :
  passes st chunk1 masterChunkExposure isr1 cd1 md cdp1 mdp dp1 ct1 l1 ->
  passes st chunk2 masterChunkExposure isr2 cd2 md cdp2 mdp dp2 ct2 l2 ->
  getMaskedImage chunk1 <> getMaskedImage masterChunkExposure ->
  getMaskedImage chunk2 <> getMaskedImage masterChunkExposure ->
  getMaskedImage chunk2 <> getMaskedImage chunk1 ->
  let twice p :=
    scaled_reference (exptime l2) (mexptime l2) (darkScale l2)
                     (scaled_reference (exptime l1) (mexptime l1) (darkScale l1) p) in
  exists st1,
    darkCurrentCorrectChunkExposure chunk1 masterChunkExposure isr1 datasetPolicy st
    = (st1, Ok tt)
    /\ if decide (mi_metadata cd2 = mi_metadata cd1)
       then darkCurrentCorrectChunkExposure chunk2 masterChunkExposure isr2
                                            datasetPolicy st1
            = (logged [EvFindUnique (mi_metadata cd2) "ISR_DARKCOR"] st1,
               Throw (Runtime previously_performed))
       else exists st2,
           darkCurrentCorrectChunkExposure chunk2 masterChunkExposure isr2
                                           datasetPolicy st1
           = (st2, Ok tt)
           /\ pixels_of st2 chunk2
              = Some (zip_with pixel_sub (mi_image cd2) (map twice (mi_image md)))
           /\ pixels_of st2 masterChunkExposure = Some (map twice (mi_image md)).
Proof.
  intros P1 P2 N1 N2 N21 twice.
  set (md' := scaled_master (exptime l1) (mexptime l1) (darkScale l1) md).
  set (st1 := corrected_store st l1 cd1 md cdp1 ct1).
  exists st1.
  split; [exact (correct_run st _ _ _ datasetPolicy _ _ _ _ _ _ _ P1)|].
  pose proof P1 as [[[_ _ Hcdp1 Hgate1 _ _ _] _ _] _ _ _ _].
  pose proof P2 as [[[Hcd2 _ Hcdp2 _ _ _ _] Hmdp _] _ _ _ _].
  assert (Hcd2' : images st1 !! getMaskedImage chunk2 = Some cd2)
    by now (unfold st1; rewrite (corrected_others _ _ _ _ _ _ _ _ _ _ _ P1 _ N21 N2)).
  assert (Hmd' : images st1 !! getMaskedImage masterChunkExposure = Some md')
    by exact (corrected_master _ _ _ _ _ _ _ _ _ _ _ P1 N1).
  assert (Pr : properties st1
               = <[mi_metadata cd1 := cdp1 ++ [("ISR_DARKCOR", success_marker)]]>
                   (properties st))
    by exact (corrected_properties _ _ _ _ _ _ _ _ _ _ _ P1).
  destruct (decide (mi_metadata cd2 = mi_metadata cd1)) as [E|Ncm].
  - apply (run_throws st1 _ _ _ datasetPolicy).
    apply (validate_already_run st1 _ _ isr2 datasetPolicy cd2 md'
             (cdp1 ++ [("ISR_DARKCOR", success_marker)]) Hcd2' Hmd'
             ltac:(rewrite Pr, E; apply lookup_insert_eq) success_marker).
    now apply assoc_app_new.
  - assert (P2' : exists mdp',
               passes st1 chunk2 masterChunkExposure isr2 cd2 md' cdp2 mdp' dp2 ct2 l2).
    { destruct (decide (mi_metadata md = mi_metadata cd1)) as [Em|Nm].
      - exists (cdp1 ++ [("ISR_DARKCOR", success_marker)]).
        assert (M : mdp = cdp1) by (rewrite Em, Hcdp1 in Hmdp; now injection Hmdp).
        apply (passes_transfer_metadata st st1 _ _ _ cd2 md md' cdp2 mdp _ _ _ _ P2);
          try assumption.
        + apply scaled_master_metadata.
        + apply scaled_master_size.
        + apply scaled_master_size.
        + rewrite Pr. now rewrite lookup_insert_ne.
        + rewrite Pr, Em. apply lookup_insert_eq.
        + intros key v H. rewrite M in H. now apply assoc_app_Some.
      - exists mdp.
        apply (passes_transfer_metadata st st1 _ _ _ cd2 md md' cdp2 mdp _ _ _ _ P2);
          try assumption.
        + apply scaled_master_metadata.
        + apply scaled_master_size.
        + apply scaled_master_size.
        + rewrite Pr. now rewrite lookup_insert_ne.
        + rewrite Pr. now rewrite lookup_insert_ne.
        + now intros key v H. }
    destruct P2' as (mdp' & P2').
    exists (corrected_store st1 l2 cd2 md' cdp2 ct2).
    split; [exact (correct_run _ _ _ _ datasetPolicy _ _ _ _ _ _ _ P2')|].
    assert (I : mi_image (scaled_master (exptime l2) (mexptime l2) (darkScale l2) md')
                = map twice (mi_image md)).
    { rewrite scaled_master_image. unfold md'. rewrite scaled_master_image.
      now rewrite map_map. }
    split.
    + destruct (corrected_chunk _ _ _ _ _ _ _ _ _ _ _ P2')
        as (cd' & H' & _ & _ & _ & Hsub).
      specialize (Hsub N2). subst cd'. unfold pixels_of. rewrite H'. simpl.
      now rewrite I.
    + unfold pixels_of. rewrite (corrected_master _ _ _ _ _ _ _ _ _ _ _ P2' N2). simpl.
      now rewrite I.
Qed.

Lemma shared_master_accumulates_scalings_witness :
  exists st1 st2,
    darkCurrentCorrectChunkExposure Sample.chunk Sample.master Sample.isr_amp_0
                                    Sample.noPolicy Pairs.st = (st1, Ok tt)
    /\ darkCurrentCorrectChunkExposure Sample.chunk' Sample.master
         (Sample.policy "amp" [("darkScale", Sample.d 3)]) Sample.noPolicy st1
       = (st2, Ok tt)
    /\ pixels_of st2 Sample.chunk'
       = Some [Sample.d 38; Sample.d 36; Sample.d 34; Sample.d 32]
    /\ pixels_of st2 Sample.master
       = Some [Sample.d 12; Sample.d 24; Sample.d 36; Sample.d 48].
Proof.
  assert (P1 : passes Pairs.st Sample.chunk Sample.master Sample.isr_amp_0
                 Sample.chunk_cell Sample.master_cell (Sample.md 3 30) (Sample.md 3 15)
                 (mkPolicy [("chunkType", "amp")] [("darkScale", Sample.d 0)] []) "amp"
                 (Pairs.l 1 2 15)).
  { split; [split; [split; reflexivity|reflexivity|]|reflexivity..].
    exists 3. split; reflexivity. }
  assert (P2 : passes Pairs.st Sample.chunk' Sample.master
                 (Sample.policy "amp" [("darkScale", Sample.d 3)])
                 Sample.chunk'_cell Sample.master_cell (Sample.md 3 30) (Sample.md 3 15)
                 (mkPolicy [("chunkType", "amp")] [("darkScale", Sample.d 3)] []) "amp"
                 (mkLocals 3%positive 13%positive 2%positive 12%positive
                           (Sample.f 30) (Sample.f 15) (Sample.d 3))).
  { split; [split; [split; reflexivity|reflexivity|]|reflexivity..].
    exists 3. split; reflexivity. }
  assert (N : forall a b : positive, (a =? b)%positive = false -> a <> b)
    by (intros a b H ->; now rewrite Pos.eqb_refl in H).
  destruct (shared_master_accumulates_scalings
              _ _ _ _ _ _ Sample.noPolicy _ _ _ _ _ _ _ _ _ _ _ _ P1 P2
              (N 1 2 eq_refl) (N 3 2 eq_refl) (N 3 1 eq_refl))%positive
    as (st1 & Run1 & Second).
  destruct (decide (mi_metadata Sample.chunk'_cell = mi_metadata Sample.chunk_cell))
    as [E|_]; [exact (False_ind _ (N 13 11 eq_refl E))%positive|].
  destruct Second as (st2 & Run2 & Pix & Pm).
  exists st1, st2. split; [exact Run1|]. split; [exact Run2|].
  rewrite Pix, Pm. split; vm_compute; reflexivity.
Defined.

(** X9: two corrections of pairs that share no image, and whose chunk
    metadata are no metadata of the other pair, do not interfere: carried
    out in either order both return, to the same images and the same
    metadata. *)
Theorem separate_corrections_commute
        {ImageT MaskT : Type} {ops : ImageOps ImageT MaskT}
        (st : state ImageT MaskT) (chunk1 master1 chunk2 master2 : Exposure)
        (isr1 isr2 datasetPolicy : Policy)
        (cd1 md1 cd2 md2 : MaskedImageData ImageT MaskT)
        (cdp1 mdp1 cdp2 mdp2 : DataProperty)
        (dp1 dp2 : Policy) (ct1 ct2 : string) (l1 l2 : locals) :
  passes st chunk1 master1 isr1 cd1 md1 cdp1 mdp1 dp1 ct1 l1 ->
  passes st chunk2 master2 isr2 cd2 md2 cdp2 mdp2 dp2 ct2 l2 ->
  getMaskedImage chunk1 <> getMaskedImage chunk2 ->
  getMaskedImage chunk1 <> getMaskedImage master2 ->
  getMaskedImage master1 <> getMaskedImage chunk2 ->
  getMaskedImage master1 <> getMaskedImage master2 ->
  mi_metadata cd1 <> mi_metadata cd2 ->
  mi_metadata md1 <> mi_metadata cd2 ->
  mi_metadata md2 <> mi_metadata cd1 ->
  let correct1 := darkCurrentCorrectChunkExposure chunk1 master1 isr1 datasetPolicy in
  let correct2 := darkCurrentCorrectChunkExposure chunk2 master2 isr2 datasetPolicy in
  exists st1 st2 st12 st21,
    correct1 st = (st1, Ok tt) /\ correct2 st1 = (st12, Ok tt)
    /\ correct2 st = (st2, Ok tt) /\ correct1 st2 = (st21, Ok tt)
    /\ images st12 = images st21
    /\ properties st12 = properties st21.
Proof.
  intros P1 P2 Ncc Ncm Nmc Nmm Mcc Mmc Mcm correct1 correct2.
  pose proof (passes_after_other st chunk1 master1 chunk2 master2 isr1 isr2
                cd1 md1 cd2 md2 cdp1 mdp1 cdp2 mdp2 dp1 dp2 ct1 ct2 l1 l2 P1 P2
                (conj (not_eq_sym Ncc) (not_eq_sym Nmc)) (not_eq_sym Ncm)
                (conj (not_eq_sym Mcc) Mcm) (not_eq_sym Nmm)) as P2'.
  pose proof (passes_after_other st chunk2 master2 chunk1 master1 isr2 isr1
                cd2 md2 cd1 md1 cdp2 mdp2 cdp1 mdp1 dp2 dp1 ct2 ct1 l2 l1 P2 P1
                (conj Ncc Ncm) Nmc (conj Mcc Mmc) Nmm) as P1'.
  exists (corrected_store st l1 cd1 md1 cdp1 ct1), (corrected_store st l2 cd2 md2 cdp2 ct2).
  exists (corrected_store (corrected_store st l1 cd1 md1 cdp1 ct1) l2 cd2 md2 cdp2 ct2).
  exists (corrected_store (corrected_store st l2 cd2 md2 cdp2 ct2) l1 cd1 md1 cdp1 ct1).
  split; [exact (correct_run st _ _ _ datasetPolicy _ _ _ _ _ _ _ P1)|].
  split; [exact (correct_run _ _ _ _ datasetPolicy _ _ _ _ _ _ _ P2')|].
  split; [exact (correct_run st _ _ _ datasetPolicy _ _ _ _ _ _ _ P2)|].
  split; [exact (correct_run _ _ _ _ datasetPolicy _ _ _ _ _ _ _ P1')|].
  destruct (passes_handles _ _ _ _ _ _ _ _ _ _ _ P1) as (Lc1 & Lm1 & Lcm1 & _).
  destruct (passes_handles _ _ _ _ _ _ _ _ _ _ _ P2) as (Lc2 & Lm2 & Lcm2 & _).
  unfold corrected_store. simpl. rewrite Lc1, Lm1, Lcm1, Lc2, Lm2, Lcm2. split.
  - rewrite (insert_insert_ne _ (getMaskedImage master2) (getMaskedImage chunk1))
      by congruence.
    rewrite (insert_insert_ne _ (getMaskedImage chunk2) (getMaskedImage chunk1))
      by congruence.
    rewrite (insert_insert_ne _ (getMaskedImage master2) (getMaskedImage master1))
      by congruence.
    rewrite (insert_insert_ne _ (getMaskedImage chunk2) (getMaskedImage master1))
      by congruence.
    reflexivity.
  - apply insert_insert_ne. congruence.
Qed.

Lemma separate_corrections_commute_witness :
  exists st1 st2 st12 st21,
    darkCurrentCorrectChunkExposure Sample.chunk Sample.master Sample.isr_amp_0
                                    Sample.noPolicy Pairs.st = (st1, Ok tt)
    /\ darkCurrentCorrectChunkExposure Sample.chunk' Pairs.master' Sample.isr_amp_0
                                       Sample.noPolicy st1 = (st12, Ok tt)
    /\ darkCurrentCorrectChunkExposure Sample.chunk' Pairs.master' Sample.isr_amp_0
                                       Sample.noPolicy Pairs.st = (st2, Ok tt)
    /\ darkCurrentCorrectChunkExposure Sample.chunk Sample.master Sample.isr_amp_0
                                       Sample.noPolicy st2 = (st21, Ok tt)
    /\ images st12 = images st21
    /\ properties st12 = properties st21.
Proof.
  assert (P1 : passes Pairs.st Sample.chunk Sample.master Sample.isr_amp_0
                 Sample.chunk_cell Sample.master_cell (Sample.md 3 30) (Sample.md 3 15)
                 (mkPolicy [("chunkType", "amp")] [("darkScale", Sample.d 0)] []) "amp"
                 (Pairs.l 1 2 15)).
  { split; [split; [split; reflexivity|reflexivity|]|reflexivity..].
    exists 3. split; reflexivity. }
  assert (P2 : passes Pairs.st Sample.chunk' Pairs.master' Sample.isr_amp_0
                 Sample.chunk'_cell Pairs.master'_cell (Sample.md 3 30) (Sample.md 3 10)
                 (mkPolicy [("chunkType", "amp")] [("darkScale", Sample.d 0)] []) "amp"
                 (Pairs.l 3 4 10)).
  { split; [split; [split; reflexivity|reflexivity|]|reflexivity..].
    exists 3. split; reflexivity. }
  assert (N : forall a b : positive, (a =? b)%positive = false -> a <> b)
    by (intros a b H ->; now rewrite Pos.eqb_refl in H).
  exact (separate_corrections_commute _ _ _ _ _ _ _ Sample.noPolicy
           _ _ _ _ _ _ _ _ _ _ _ _ _ _ P1 P2
           (N 1 3 eq_refl) (N 1 4 eq_refl) (N 2 3 eq_refl) (N 2 4 eq_refl)
           (N 11 13 eq_refl) (N 12 13 eq_refl) (N 14 11 eq_refl))%positive.
Defined.

(** ** Corner cases of the arithmetic *)




Lemma float_ne_nan (a b : cfloat) :
  a = S754_nan \/ b = S754_nan -> float_ne a b = true /\ timeScale a b = S754_nan.
Proof.
  unfold timeScale, float_div. intros [-> | ->].
  - split; [reflexivity|]. now destruct b.
  - split; now destruct a.
Qed.

(** X11: an exposure time that is a NaN is not rejected.  It compares
    unequal to everything (line 174), so that the master is scaled in place
    by [exptime / mexptime], which is a NaN, before [darkScale] and the
    subtraction, and the function returns as for any other correction. *)
Theorem nan_exptime_is_not_rejected
        {ImageT MaskT : Type} {ops : ImageOps ImageT MaskT}
        (st : state ImageT MaskT) (chunkExposure masterChunkExposure : Exposure)
        (isrPolicy datasetPolicy : Policy)
        (cd md : MaskedImageData ImageT MaskT) (cdp mdp : DataProperty)
        (darkPolicy : Policy) (chunkType : string) (l : locals) :
  passes st chunkExposure masterChunkExposure isrPolicy cd md cdp mdp
         darkPolicy chunkType l ->
  getMaskedImage chunkExposure <> getMaskedImage masterChunkExposure ->
  exptime l = S754_nan \/ mexptime l = S754_nan ->
  let scaled p :=
    let p1 := pixel_scale p S754_nan in
    if double_to_bool (darkScale l) then pixel_scale p1 (darkScale l) else p1 in
  exists st',
    darkCurrentCorrectChunkExposure chunkExposure masterChunkExposure
                                    isrPolicy datasetPolicy st = (st', Ok tt)
    /\ In (EvScale (getMaskedImage masterChunkExposure) S754_nan) (log st')
    /\ pixels_of st' masterChunkExposure = Some (map scaled (mi_image md))
    /\ pixels_of st' chunkExposure
       = Some (zip_with pixel_sub (mi_image cd) (map scaled (mi_image md))).
Proof.
  intros P N Nan scaled.
  destruct (float_ne_nan _ _ Nan) as [Ne Ts].
  exists (corrected_store st l cd md cdp chunkType).
  split; [exact (correct_run st _ _ _ datasetPolicy _ _ _ _ _ _ _ P)|].
  destruct (passes_handles _ _ _ _ _ _ _ _ _ _ _ P) as (_ & Lm & _).
  assert (I : mi_image (scaled_master (exptime l) (mexptime l) (darkScale l) md)
              = map scaled (mi_image md)).
  { rewrite scaled_master_image. unfold scaled_reference, scaled.
    now rewrite Ne, Ts. }
  split; [|split].
  - rewrite (corrected_log _ _ _ _ _ _ _ _ _ _ _ P). unfold scaling_log.
    rewrite Ne, Ts, Lm. rewrite !in_app_iff. right. right. left. left.
    right. now left.
  - unfold pixels_of. rewrite (corrected_master _ _ _ _ _ _ _ _ _ _ _ P N). simpl.
    now rewrite I.
  - destruct (corrected_chunk _ _ _ _ _ _ _ _ _ _ _ P) as (cd' & H' & _ & _ & _ & Hsub).
    specialize (Hsub N). subst cd'. unfold pixels_of. rewrite H'. simpl. now rewrite I.
Qed.

Lemma nan_exptime_is_not_rejected_witness :
  exists st',
    darkCurrentCorrectChunkExposure
      Sample.chunk Sample.master Sample.isr_amp_0 Sample.noPolicy
      (Sample.store [("AMPID", AnyInt 3); ("EXPTIME", AnyFloat S754_nan)] (Sample.md 3 15))
    = (st', Ok tt)
    /\ pixels_of st' Sample.chunk = Some [S754_nan; S754_nan; S754_nan; S754_nan]
    /\ pixels_of st' Sample.master = Some [S754_nan; S754_nan; S754_nan; S754_nan].
Proof.
  assert (P : passes (Sample.store [("AMPID", AnyInt 3); ("EXPTIME", AnyFloat S754_nan)]
                                   (Sample.md 3 15))
                Sample.chunk Sample.master Sample.isr_amp_0
                Sample.chunk_cell Sample.master_cell
                [("AMPID", AnyInt 3); ("EXPTIME", AnyFloat S754_nan)] (Sample.md 3 15)
                (mkPolicy [("chunkType", "amp")] [("darkScale", Sample.d 0)] []) "amp"
                (mkLocals 1%positive 11%positive 2%positive 12%positive
                          S754_nan (Sample.f 15) (Sample.d 0))).
  { split; [split; [split; reflexivity|reflexivity|]|reflexivity..].
    exists 3. split; reflexivity. }
  assert (N : getMaskedImage Sample.chunk <> getMaskedImage Sample.master)
    by (intros H; inversion H).
  destruct (nan_exptime_is_not_rejected _ _ _ _ Sample.noPolicy _ _ _ _ _ _ _ P N
              (or_introl eq_refl)) as (st' & Run & _ & Pm & Pc).
  exists st'. split; [exact Run|]. rewrite Pc, Pm. split; vm_compute; reflexivity.
Defined.
